(** * A toy banking ledger: accounts, users and the bank registry

    Shallow embedding of [Hackathon/main.py]: the [Account] class hierarchy
    ([SavingsAccount], [CurrentAccount]), [User] and [Bank], and of the
    [Account] class of [Banking_Project/main.py], followed by the
    properties the specification states about them.

    Conventions of the embedding.
    - A method that mutates [self] is a computation in the monad [M S], which
      threads the object and either returns a value or raises; what a call had
      already mutated when it raises stays mutated, as in Python.
    - The bank owns its accounts in a dictionary; a reference to an account is
      its key in that dictionary, so two references to one account alias.
    - [datetime.now()] and [random.randint] are inputs: a method that stamps a
      transaction receives the clock reading, [open_account] receives the
      digits the generator will draw.
    - The classes are embedded twice.  The first embedding, at top level,
      carries the registry: users, owner lists, account numbers, the order
      of the tests and which of them raises.  Its amounts are exact
      rationals ([Q]) and its strings hold characters below 256; it is used
      for the properties that do not depend on how an amount rounds or on
      characters beyond that range.
    - The second embedding is the machine's.  In [Float64] and
      [BankingProject] an amount is a binary64 float and [+], [-], [*], [/],
      [<], [<=] are the IEEE operations, with rounding, infinities and NaN;
      in [Unicode] a [str] is a sequence of code points and
      [password.encode()] may raise.  Every property about the value of a
      balance or of a recorded amount, about an amount passing a test, about
      the characters of a holder name or about what the credential methods
      raise is stated on these modules. *)

From Stdlib Require Import QArith Lqa Floats.
From stdpp Require Import gmap strings list fin_maps pretty.

(** A decimal literal such as [0.045] denotes the binary64 float nearest to
    it, as in Python. *)
Set Warnings "-inexact-float".

Local Open Scope Q_scope.

(** ** Numbers: the comparisons of the source *)

(** [x <= y] on amounts. *)
Definition Qleb (x y : Q) : bool := Qle_bool x y.
(** [x < y] on amounts. *)
Definition Qltb (x y : Q) : bool := negb (Qle_bool y x).
(** [x > y] on amounts. *)
Definition Qgtb (x y : Q) : bool := Qltb y x.

(** ** Exceptions and the state-and-exception monad *)

Inductive exn : Type :=
  | BankingError (msg : string)   (* class BankingError(Exception) *)
  | KeyError (key : string)       (* d[k] on a dict without k *)
  | AttributeError (attr : string). (* a method called on None *)

Inductive outcome (A : Type) : Type :=
  | Return (v : A)
  | Raise (e : exn).
Arguments Return {A} v.
Arguments Raise {A} e.

Definition M (S A : Type) : Type := S → outcome A * S.

Definition ret {S A} (v : A) : M S A := λ s, (Return v, s).
Definition raise {S A} (e : exn) : M S A := λ s, (Raise e, s).
Definition bind {S A B} (m : M S A) (k : A → M S B) : M S B :=
  λ s, match m s with
       | (Return v, s') => k v s'
       | (Raise e, s') => (Raise e, s')
       end.
Definition get {S} : M S S := λ s, (Return s, s).
Definition modify {S} (f : S → S) : M S unit := λ s, (Return tt, f s).
(** [if c: raise e] *)
Definition raise_if {S} (c : bool) (e : exn) : M S unit :=
  if c then raise e else ret tt.

Declare Scope M_scope.
Delimit Scope M_scope with M.
Notation "x <- m ;; k" := (bind m (λ x, k))
  (at level 100, m at next level, right associativity) : M_scope.
Notation "m ;;; k" := (bind m (λ _, k))
  (at level 100, right associativity) : M_scope.
Local Open Scope M_scope.

(** ** Enumerations *)

Inductive AccountType : Type := SAVINGS | CURRENT.

Inductive TransactionType : Type :=
  | DEPOSIT | WITHDRAWAL | TRANSFER_SENT | TRANSFER_RECEIVED | INTEREST_CREDIT.

(** The [.value] of an enumeration member. *)
Definition AccountType_value (t : AccountType) : string :=
  match t with SAVINGS => "Savings" | CURRENT => "Current" end.

Definition TransactionType_value (t : TransactionType) : string :=
  match t with
  | DEPOSIT => "Deposit"
  | WITHDRAWAL => "Withdrawal"
  | TRANSFER_SENT => "Transfer Sent"
  | TRANSFER_RECEIVED => "Transfer Received"
  | INTEREST_CREDIT => "Interest Credit"
  end.

Global Instance AccountType_eq_dec : EqDecision AccountType.
Proof. solve_decision. Defined.
Global Instance TransactionType_eq_dec : EqDecision TransactionType.
Proof. solve_decision. Defined.

(** ** Transactions and accounts *)

(** The dictionary [_add_transaction] builds: keys 'timestamp', 'type',
    'amount', 'balance'. *)
Record Transaction : Type := mkTransaction {
  tx_timestamp : string;
  tx_type : string;
  tx_amount : Q;
  tx_balance : Q
}.

Record Account : Type := mkAccount {
  _account_number : string;
  _account_holder : string;
  _balance : Q;
  _transactions : list Transaction;
  _account_type : AccountType;
  _is_active : bool
}.

Definition set_balance (b : Q) (a : Account) : Account :=
  mkAccount (_account_number a) (_account_holder a) b (_transactions a)
            (_account_type a) (_is_active a).
Definition set_transactions (l : list Transaction) (a : Account) : Account :=
  mkAccount (_account_number a) (_account_holder a) (_balance a) l
            (_account_type a) (_is_active a).
Definition set_is_active (f : bool) (a : Account) : Account :=
  mkAccount (_account_number a) (_account_holder a) (_balance a)
            (_transactions a) (_account_type a) f.

(** [Account.__init__] *)
Definition Account_init (account_number account_holder : string)
    (account_type : AccountType) : Account :=
  mkAccount account_number account_holder 0 [] account_type true.

(** [_add_transaction]: appends one record holding the balance of that
    moment. *)
Definition _add_transaction (now : string) (transaction_type : TransactionType)
    (amount : Q) : M Account unit :=
  modify (λ self,
    set_transactions
      (_transactions self ++
         [mkTransaction now (TransactionType_value transaction_type) amount
                        (_balance self)])
      self).

(** [Account.deposit] *)
Definition deposit (now : string) (amount : Q) : M Account bool :=
  self <- get;;
  raise_if (negb (_is_active self)) (BankingError "Account is inactive");;;
  raise_if (Qleb amount 0) (BankingError "Invalid deposit amount");;;
  modify (λ self, set_balance (_balance self + amount) self);;;
  _add_transaction now DEPOSIT amount;;;
  ret true.

(** [Account.withdraw], the shared base method. *)
Definition Account_withdraw (now : string) (amount : Q) : M Account bool :=
  self <- get;;
  raise_if (negb (_is_active self)) (BankingError "Account is inactive");;;
  raise_if (Qleb amount 0) (BankingError "Invalid withdrawal amount");;;
  raise_if (Qgtb amount (_balance self)) (BankingError "Insufficient balance");;;
  modify (λ self, set_balance (_balance self - amount) self);;;
  _add_transaction now WITHDRAWAL (- amount);;;
  ret true.

Definition get_balance (self : Account) : Q := _balance self.

(** [toggle_account_status] *)
Definition toggle_account_status : M Account unit :=
  modify (λ self, set_is_active (negb (_is_active self)) self).

(** *** SavingsAccount *)

Definition INTEREST_RATE : Q := 0.045.
Definition MINIMUM_BALANCE : Q := 1000.

Definition SavingsAccount_init (account_number account_holder : string) : Account :=
  Account_init account_number account_holder SAVINGS.

Definition SavingsAccount_calculate_interest (now : string) : M Account Q :=
  self <- get;;
  let monthly_interest := (_balance self * INTEREST_RATE) / 12 in
  modify (λ self, set_balance (_balance self + monthly_interest) self);;;
  _add_transaction now INTEREST_CREDIT monthly_interest;;;
  ret monthly_interest.

(** The f-string renders the float [1000.0]. *)
Definition SavingsAccount_withdraw (now : string) (amount : Q) : M Account bool :=
  self <- get;;
  raise_if (Qltb (_balance self - amount) MINIMUM_BALANCE)
           (BankingError "Must maintain minimum balance of 1000.0");;;
  Account_withdraw now amount.

(** *** CurrentAccount *)

Definition OVERDRAFT_LIMIT : Q := 10000.

Definition CurrentAccount_init (account_number account_holder : string) : Account :=
  Account_init account_number account_holder CURRENT.

Definition CurrentAccount_calculate_interest : M Account Q := ret 0.

Definition CurrentAccount_withdraw (now : string) (amount : Q) : M Account bool :=
  self <- get;;
  raise_if (Qltb (_balance self - amount) (- OVERDRAFT_LIMIT))
           (BankingError "Exceeds overdraft limit of 10000.0");;;
  Account_withdraw now amount.

(** *** Method dispatch on the class of the object *)

Definition withdraw (now : string) (amount : Q) : M Account bool :=
  self <- get;;
  match _account_type self with
  | SAVINGS => SavingsAccount_withdraw now amount
  | CURRENT => CurrentAccount_withdraw now amount
  end.

Definition calculate_interest (now : string) : M Account Q :=
  self <- get;;
  match _account_type self with
  | SAVINGS => SavingsAccount_calculate_interest now
  | CURRENT => CurrentAccount_calculate_interest
  end.

(** The error kinds the specification names, as the exceptions the source
    raises for them. *)
Definition InactiveAccount : exn := BankingError "Account is inactive".
Definition InvalidDeposit : exn := BankingError "Invalid deposit amount".
Definition InvalidWithdrawal : exn := BankingError "Invalid withdrawal amount".
Definition InsufficientFunds : exn := BankingError "Insufficient balance".
Definition BelowMinimumBalance : exn :=
  BankingError "Must maintain minimum balance of 1000.0".
Definition OverdraftLimitExceeded : exn :=
  BankingError "Exceeds overdraft limit of 10000.0".

(** ** Regular expressions of the validators *)

Definition code (c : Ascii.ascii) : nat := Ascii.nat_of_ascii c.
Definition in_range (lo hi : nat) (c : Ascii.ascii) : bool :=
  ((lo <=? code c) && (code c <=? hi))%nat.

(** [A-Z], [a-z], [0-9] *)
Definition is_upper : Ascii.ascii → bool := in_range 65 90.
Definition is_lower : Ascii.ascii → bool := in_range 97 122.
Definition is_digit : Ascii.ascii → bool := in_range 48 57.
(** [[A-Za-z0-9_]] *)
Definition is_username_char (c : Ascii.ascii) : bool :=
  is_upper c || is_lower c || is_digit c || (code c =? 95)%nat.
(** [\s] on a [str] pattern: the code points below 256 that Python counts as
    white space (9 to 13, 28 to 32, 133 and 160). *)
Definition is_space (c : Ascii.ascii) : bool :=
  in_range 9 13 c || in_range 28 32 c || (code c =? 133)%nat || (code c =? 160)%nat.
(** [[A-Za-z\s]] *)
Definition is_name_char (c : Ascii.ascii) : bool :=
  is_upper c || is_lower c || is_space c.
(** The class of the last [re.search] of [_validate_password]: the
    characters ! @ # $ % ^ & * ( ) , . ? : { } | < > and the double quote
    (code 34). *)
Definition is_special (c : Ascii.ascii) : bool :=
  existsb (Ascii.eqb c) (String.list_ascii_of_string "!@#$%^&*(),.?:{}|<>")
  || (code c =? 34)%nat.

(** [$] without MULTILINE: at the end of the string, or just before a
    newline that is the last character. *)
Definition at_dollar (s : string) : bool :=
  match s with
  | EmptyString => true
  | String c EmptyString => (code c =? 10)%nat
  | _ => false
  end.

(** [re.match(r'^[cls]{lo,hi}$', s)]: some count between [lo] and [hi] of
    leading characters of the class is followed by [$]. *)
Fixpoint match_class_bounded (cls : Ascii.ascii → bool) (lo hi : nat) (s : string)
    : bool :=
  ((lo =? 0)%nat && at_dollar s)
  || match hi, s with
     | S hi', String c s' => cls c && match_class_bounded cls (pred lo) hi' s'
     | _, _ => false
     end.

(** [re.search(r'[cls]', s)] *)
Fixpoint search_class (cls : Ascii.ascii → bool) (s : string) : bool :=
  match s with
  | EmptyString => false
  | String c s' => cls c || search_class cls s'
  end.

Definition _validate_name (name : string) : bool :=
  match_class_bounded is_name_char 2 50 name.

Definition _validate_username (username : string) : bool :=
  match_class_bounded is_username_char 4 20 username.

Definition _validate_password (password : string) : bool :=
  if (String.length password <? 8)%nat then false
  else if negb (search_class is_upper password) then false
  else if negb (search_class is_lower password) then false
  else if negb (search_class is_digit password) then false
  else if negb (search_class is_special password) then false
  else true.

(** ** Users and the bank *)

Record User : Type := mkUser {
  username : string;
  password_hash : string
}.

Record Bank : Type := mkBank {
  _accounts : gmap string Account;
  _users : gmap string User;
  _account_holders : gmap string (list string)
}.

(** [Bank.__init__] *)
Definition Bank_init : Bank := mkBank ∅ ∅ ∅.

Definition set_accounts (f : gmap string Account → gmap string Account)
    (b : Bank) : Bank :=
  mkBank (f (_accounts b)) (_users b) (_account_holders b).

(** [k in d] *)
Definition dict_has {V} (d : gmap string V) (k : string) : bool :=
  match d !! k with Some _ => true | None => false end.

(** [get_account]: [dict.get], [None] on a miss. *)
Definition get_account (self : Bank) (account_number : string) : option Account :=
  _accounts self !! account_number.

(** [get_user_accounts]: [dict.get] with default [[]]. *)
Definition get_user_accounts (self : Bank) (username : string) : list string :=
  default [] (_account_holders self !! username).

(** A method call [self.get_account(k).m(...)] through the reference the
    bank holds under key [k]: the method runs on the stored object and the
    object stays stored, mutated; on [None] the attribute lookup fails. *)
Definition on_account {A} (k : string) (m : M Account A) : M Bank A :=
  λ self, match _accounts self !! k with
          | Some a => let '(r, a') := m a in (r, set_accounts (<[k := a']>) self)
          | None => (Raise (AttributeError "NoneType"), self)
          end.

(** [transfer]; [now i] is the clock reading of the [i]-th transaction the
    call stamps. *)
Definition transfer (now : nat → string)
    (sender_account_number receiver_account_number : string) (amount : Q)
    : M Bank bool :=
  raise_if (Qleb amount 0) (BankingError "Invalid transfer amount");;;
  self <- get;;
  match get_account self sender_account_number,
        get_account self receiver_account_number with
  | Some sender, Some receiver =>
      raise_if (negb (_is_active sender) || negb (_is_active receiver))
               (BankingError "One or both accounts are inactive");;;
      on_account sender_account_number (withdraw (now 0%nat) amount);;;
      on_account receiver_account_number (deposit (now 1%nat) amount);;;
      on_account sender_account_number
        (_add_transaction (now 2%nat) TRANSFER_SENT (- amount));;;
      on_account receiver_account_number
        (_add_transaction (now 3%nat) TRANSFER_RECEIVED amount);;;
      ret true
  | _, _ => raise (BankingError "Invalid account number(s)")
  end.

(** One candidate of [_generate_account_number]: ten draws of
    [random.randint(0, 9)], each rendered by [str] and joined. *)
Definition draw_candidate (rng : list nat) : option (string * list nat) :=
  if (length rng <? 10)%nat then None
  else Some (String.concat "" (pretty <$> take 10 rng), drop 10 rng).

(** The [while True] loop of [_generate_account_number], run on the draws
    [rng]; [None] when they are used up before a free number comes. *)
Fixpoint generate_loop (fuel : nat) (rng : list nat)
    (accounts : gmap string Account) : option string :=
  match fuel with
  | O => None
  | S fuel' =>
      match draw_candidate rng with
      | None => None
      | Some (account_number, rng') =>
          if dict_has accounts account_number
          then generate_loop fuel' rng' accounts
          else Some account_number
      end
  end.

Definition _generate_account_number (rng : list nat) (self : Bank)
    : option string :=
  generate_loop (length rng) rng (_accounts self).

(** [open_account], given the number the generator came up with. *)
Definition open_account_with (account_number : string)
    (username account_holder : string) (account_type : AccountType)
    : M Bank string :=
  let account :=
    match account_type with
    | SAVINGS => SavingsAccount_init account_number account_holder
    | CURRENT => CurrentAccount_init account_number account_holder
    end in
  modify (set_accounts (<[account_number := account]>));;;
  self <- get;;
  match _account_holders self !! username with
  | None => raise (KeyError username)
  | Some owned =>
      modify (λ self, mkBank (_accounts self) (_users self)
                (<[username := owned ++ [account_number]]>
                   (_account_holders self)));;;
      ret account_number
  end.

(** [open_account]; [None] when the generator does not come back on the
    draws [rng]. *)
Definition open_account (rng : list nat) (username account_holder : string)
    (account_type : AccountType) (self : Bank) : option (outcome string * Bank) :=
  if negb (_validate_name account_holder)
  then Some (Raise (BankingError "Invalid account holder name"), self)
  else
    match _generate_account_number rng self with
    | None => None
    | Some account_number =>
        Some (open_account_with account_number username account_holder
                account_type self)
    end.

Section Credentials.

(** [hashlib.sha256(password.encode()).hexdigest()] *)
Variable sha256_hexdigest : string → string.

Definition _hash_password (password : string) : string :=
  sha256_hexdigest password.

(** [User.__init__] *)
Definition User_init (username password : string) : User :=
  mkUser username (_hash_password password).

Definition verify_password (self : User) (password : string) : bool :=
  bool_decide (_hash_password password = password_hash self).

Definition create_user (username password : string) : M Bank bool :=
  raise_if (negb (_validate_username username))
           (BankingError "Invalid username format");;;
  raise_if (negb (_validate_password password))
           (BankingError "Password does not meet security requirements");;;
  self <- get;;
  raise_if (dict_has (_users self) username)
           (BankingError "Username already exists");;;
  modify (λ self, mkBank (_accounts self)
            (<[username := User_init username password]> (_users self))
            (_account_holders self));;;
  modify (λ self, mkBank (_accounts self) (_users self)
            (<[username := []]> (_account_holders self)));;;
  ret true.

(** [authenticate_user]: an instance of [User] is always truthy. *)
Definition authenticate_user (username password : string) (self : Bank)
    : bool :=
  match _users self !! username with
  | Some user => if verify_password user password then true else false
  | None => false
  end.

End Credentials.

Definition ValidationError_amount : exn := BankingError "Invalid transfer amount".
Definition AccountNotFound : exn := BankingError "Invalid account number(s)".
Definition InactiveAccounts : exn :=
  BankingError "One or both accounts are inactive".

(** ** The rest of the account and bank interface *)

(** [get_statement]: the header lines and the log itself. *)
Definition get_statement (self : Account) : string * list Transaction :=
  let nl := String (Ascii.ascii_of_nat 10) EmptyString in
  let account_info :=
    String.concat ""
      ["Account Statement for "; _account_holder self; nl;
       "Account Number: "; _account_number self; nl;
       "Account Type: "; AccountType_value (_account_type self); nl;
       "Account Status: "; if _is_active self then "Active" else "Inactive"] in
  (account_info, _transactions self).

(** [isinstance(account, SavingsAccount)] and [isinstance(account,
    CurrentAccount)]: the class of an account is the one its constructor
    recorded in [_account_type]. *)
Definition is_savings (account : Account) : bool :=
  bool_decide (_account_type account = SAVINGS).
Definition is_current (account : Account) : bool :=
  bool_decide (_account_type account = CURRENT).

(** [admin_check_total_deposit]: [sum] starts from 0 and adds the balances
    one by one. *)
Definition admin_check_total_deposit (self : Bank) : Q :=
  map_fold (λ _ account total, total + get_balance account) 0 (_accounts self).

(** [admin_check_total_accounts] *)
Definition admin_check_total_accounts (self : Bank) : Z :=
  Z.of_nat (size (_accounts self)).

(** [sum(1 for acc in accounts.values() if cond(acc))] *)
Definition count_accounts (cond : Account → bool)
    (accounts : gmap string Account) : Z :=
  map_fold (λ _ acc n, if cond acc then (n + 1)%Z else n) 0%Z accounts.

(** The dictionary [admin_get_account_stats] returns. *)
Record AccountStats : Type := mkAccountStats {
  total_accounts : Z;
  active_accounts : Z;
  inactive_accounts : Z;
  savings_accounts : Z;
  current_accounts : Z;
  total_deposits : Q
}.

Definition admin_get_account_stats (self : Bank) : AccountStats :=
  let total_accounts := Z.of_nat (size (_accounts self)) in
  let active_accounts := count_accounts _is_active (_accounts self) in
  let savings_accounts := count_accounts is_savings (_accounts self) in
  let current_accounts := count_accounts is_current (_accounts self) in
  mkAccountStats total_accounts active_accounts
    (total_accounts - active_accounts)%Z savings_accounts current_accounts
    (admin_check_total_deposit self).

(** ** The amounts as the machine computes them

    [Float64] is the account side of [Hackathon/main.py] once more, with
    every amount a binary64 float and every operator the one Python
    applies to floats: [+], [-], [*], [/], unary minus, [<] and [<=] are
    the IEEE operations, rounding to nearest, with infinities and NaN.
    Everything said below about an amount is said of this module. *)

Module Float64.

Local Open Scope float_scope.

Record Transaction : Type := mkTransaction {
  tx_timestamp : string;
  tx_type : string;
  tx_amount : float;
  tx_balance : float
}.

Record Account : Type := mkAccount {
  _account_number : string;
  _account_holder : string;
  _balance : float;
  _transactions : list Transaction;
  _account_type : AccountType;
  _is_active : bool
}.

Definition set_balance (b : float) (a : Account) : Account :=
  mkAccount (_account_number a) (_account_holder a) b (_transactions a)
            (_account_type a) (_is_active a).
Definition set_transactions (l : list Transaction) (a : Account) : Account :=
  mkAccount (_account_number a) (_account_holder a) (_balance a) l
            (_account_type a) (_is_active a).
Definition set_is_active (f : bool) (a : Account) : Account :=
  mkAccount (_account_number a) (_account_holder a) (_balance a)
            (_transactions a) (_account_type a) f.

(** [Account.__init__]: the balance starts at [0.0]. *)
Definition Account_init (account_number account_holder : string)
    (account_type : AccountType) : Account :=
  mkAccount account_number account_holder 0 [] account_type true.

Definition _add_transaction (now : string) (transaction_type : TransactionType)
    (amount : float) : M Account unit :=
  modify (λ self,
    set_transactions
      (_transactions self ++
         [mkTransaction now (TransactionType_value transaction_type) amount
                        (_balance self)])
      self).

(** [Account.deposit] *)
Definition deposit (now : string) (amount : float) : M Account bool :=
  self <- get;;
  raise_if (negb (_is_active self)) (BankingError "Account is inactive");;;
  raise_if (amount <=? 0) (BankingError "Invalid deposit amount");;;
  modify (λ self, set_balance (_balance self + amount) self);;;
  _add_transaction now DEPOSIT amount;;;
  ret true.

(** [Account.withdraw]; [amount > self._balance] is [self._balance <
    amount]. *)
Definition Account_withdraw (now : string) (amount : float) : M Account bool :=
  self <- get;;
  raise_if (negb (_is_active self)) (BankingError "Account is inactive");;;
  raise_if (amount <=? 0) (BankingError "Invalid withdrawal amount");;;
  raise_if (_balance self <? amount) (BankingError "Insufficient balance");;;
  modify (λ self, set_balance (_balance self - amount) self);;;
  _add_transaction now WITHDRAWAL (- amount);;;
  ret true.

Definition get_balance (self : Account) : float := _balance self.

Definition toggle_account_status : M Account unit :=
  modify (λ self, set_is_active (negb (_is_active self)) self).

(** The float that the literal [0.045] denotes, the binary64 number nearest
    to 45/1000. *)
Definition INTEREST_RATE : float := 0x1.70a3d70a3d70ap-5.
Definition MINIMUM_BALANCE : float := 1000.
Definition OVERDRAFT_LIMIT : float := 10000.

Definition SavingsAccount_init (account_number account_holder : string)
    : Account :=
  Account_init account_number account_holder SAVINGS.

(** [SavingsAccount.calculate_interest]; the integer [12] is converted to
    the float [12.0] by the division. *)
Definition SavingsAccount_calculate_interest (now : string) : M Account float :=
  self <- get;;
  let monthly_interest := (_balance self * INTEREST_RATE) / 12 in
  modify (λ self, set_balance (_balance self + monthly_interest) self);;;
  _add_transaction now INTEREST_CREDIT monthly_interest;;;
  ret monthly_interest.

Definition SavingsAccount_withdraw (now : string) (amount : float)
    : M Account bool :=
  self <- get;;
  raise_if (_balance self - amount <? MINIMUM_BALANCE)
           (BankingError "Must maintain minimum balance of 1000.0");;;
  Account_withdraw now amount.

Definition CurrentAccount_init (account_number account_holder : string)
    : Account :=
  Account_init account_number account_holder CURRENT.

Definition CurrentAccount_calculate_interest : M Account float := ret 0.

Definition CurrentAccount_withdraw (now : string) (amount : float)
    : M Account bool :=
  self <- get;;
  raise_if (_balance self - amount <? - OVERDRAFT_LIMIT)
           (BankingError "Exceeds overdraft limit of 10000.0");;;
  Account_withdraw now amount.

(** Method dispatch on the class of the object. *)
Definition withdraw (now : string) (amount : float) : M Account bool :=
  self <- get;;
  match _account_type self with
  | SAVINGS => SavingsAccount_withdraw now amount
  | CURRENT => CurrentAccount_withdraw now amount
  end.

Definition calculate_interest (now : string) : M Account float :=
  self <- get;;
  match _account_type self with
  | SAVINGS => SavingsAccount_calculate_interest now
  | CURRENT => CurrentAccount_calculate_interest
  end.

(** The bank, as far as amounts go: the account dictionary and the two
    methods that move money or credit interest across it. *)
Record Bank : Type := mkBank {
  _accounts : gmap string Account;
  _users : gmap string User;
  _account_holders : gmap string (list string)
}.

Definition set_accounts (f : gmap string Account → gmap string Account)
    (b : Bank) : Bank :=
  mkBank (f (_accounts b)) (_users b) (_account_holders b).

Definition get_account (self : Bank) (account_number : string)
    : option Account :=
  _accounts self !! account_number.

(** A method call through the reference the bank holds under key [k]. *)
Definition on_account {A} (k : string) (m : M Account A) : M Bank A :=
  λ self, match _accounts self !! k with
          | Some a => let '(r, a') := m a in (r, set_accounts (<[k := a']>) self)
          | None => (Raise (AttributeError "NoneType"), self)
          end.

(** [transfer]; [now i] is the clock reading of the [i]-th transaction the
    call stamps. *)
Definition transfer (now : nat → string)
    (sender_account_number receiver_account_number : string) (amount : float)
    : M Bank bool :=
  raise_if (amount <=? 0) (BankingError "Invalid transfer amount");;;
  self <- get;;
  match get_account self sender_account_number,
        get_account self receiver_account_number with
  | Some sender, Some receiver =>
      raise_if (negb (_is_active sender) || negb (_is_active receiver))
               (BankingError "One or both accounts are inactive");;;
      on_account sender_account_number (withdraw (now 0%nat) amount);;;
      on_account receiver_account_number (deposit (now 1%nat) amount);;;
      on_account sender_account_number
        (_add_transaction (now 2%nat) TRANSFER_SENT (- amount));;;
      on_account receiver_account_number
        (_add_transaction (now 3%nat) TRANSFER_RECEIVED amount);;;
      ret true
  | _, _ => raise (BankingError "Invalid account number(s)")
  end.

(** [calculate_all_interest].  The loop visits every stored account once
    and mutates only the one it visits, so the order of the visit shows
    nowhere but in the clock readings; [now k] is the reading taken while
    the account under key [k] is stamped.  [calculate_interest] has no
    [raise], so its outcome is dropped. *)
Definition calculate_all_interest (now : string → string) : M Bank unit :=
  modify (set_accounts (map_imap (λ k account,
    Some (if bool_decide (_account_type account = SAVINGS)
             && _is_active account
          then snd (calculate_interest (now k) account)
          else account)))).

End Float64.

(** ** The single-account program, [Banking_Project/main.py]

    Its [Account] class without the window around it, on binary64 amounts.
    The class has its own two exceptions and keeps its log as (type,
    amount) pairs, the amount unsigned. *)

Module BankingProject.

Local Open Scope float_scope.

Inductive error : Type :=
  | InvalidAmountError (msg : string)
  | InsufficientBalanceError (msg : string).

Inductive result (A : Type) : Type :=
  | Ok (v : A)
  | Err (e : error).
Arguments Ok {A} v.
Arguments Err {A} e.

Record Account : Type := mkAccount {
  name : string;
  balance : float;
  transactions : list (string * float)
}.

(** [Account.__init__]: no object comes out of a negative initial
    balance. *)
Definition Account_init (name : string) (initial_balance : float)
    : result Account :=
  if initial_balance <? 0
  then Err (InvalidAmountError "Initial balance cannot be negative.")
  else Ok (mkAccount name initial_balance []).

(** [deposit]: the outcome and the object after the call. *)
Definition deposit (amount : float) (self : Account) : result unit * Account :=
  if amount <=? 0
  then (Err (InvalidAmountError "Deposit amount must be positive."), self)
  else (Ok tt,
        mkAccount (name self) (balance self + amount)
          (transactions self ++ [("Deposit", amount)])).

(** [withdraw] *)
Definition withdraw (amount : float) (self : Account) : result unit * Account :=
  if amount <=? 0
  then (Err (InvalidAmountError "Withdrawal amount must be positive."), self)
  else if balance self <? amount
  then (Err (InsufficientBalanceError "Insufficient balance for withdrawal."),
        self)
  else (Ok tt,
        mkAccount (name self) (balance self - amount)
          (transactions self ++ [("Withdrawal", amount)])).

Definition check_balance (self : Account) : float := balance self.

Section Statement.

(** How [f"{x:.2f}"] renders an amount. *)
Variable format_2f : float → string.

(** One turn of the loop of [print_statement], on the running balance and
    the text built so far. *)
Definition statement_step (state : float * string)
    (transaction : string * float) : float * string :=
  let '(balance, statement) := state in
  let '(transaction_type, amount) := transaction in
  let balance :=
    if String.eqb transaction_type "Deposit" then balance + amount
    else if String.eqb transaction_type "Withdrawal" then balance - amount
    else balance in
  (balance,
   String.concat ""
     [statement; "- "; transaction_type; ": $"; format_2f amount;
      ". New Balance: $"; format_2f balance; ".";
      String (Ascii.ascii_of_nat 10) EmptyString]).

(** The loop of [print_statement]: it starts its own balance at [0.0]. *)
Definition statement_loop (statement : string) (log : list (string * float))
    : float * string :=
  fold_left statement_step log (0, statement).

Definition print_statement (self : Account) : string :=
  let statement :=
    String.concat ""
      ["Account statement for "; name self; ":";
       String (Ascii.ascii_of_nat 10) EmptyString] in
  match transactions self with
  | [] => String.append statement "No transactions yet."
  | _ :: _ => snd (statement_loop statement (transactions self))
  end.

End Statement.

End BankingProject.

(** ** Names and credentials as Unicode text

    [Unicode] is the validators and the credential methods of
    [Hackathon/main.py] once more, on Python's own [str]: a sequence of
    code points, which are the numbers up to 0x10FFFF, the surrogates 0xD800
    to 0xDFFF among them.  [\s] in a [str] pattern is Unicode white space,
    [password.encode()] is the UTF-8 encoder, which raises on a surrogate,
    and a method that calls it may raise in turn.  Everything said below
    about the characters a name or a password may hold, and about what the
    credential methods raise, is said of this module. *)

Module Unicode.

Local Open Scope N_scope.

Definition str : Type := list N.

(** A literal written with characters below 256. *)
Definition of_string (s : string) : str :=
  (λ c, N.of_nat (Ascii.nat_of_ascii c)) <$> String.list_ascii_of_string s.

Inductive exn : Type :=
  | BankingError (msg : string)
  | UnicodeEncodeError.          (* raised by [str.encode] *)

Inductive outcome (A : Type) : Type :=
  | Return (v : A)
  | Raise (e : exn).
Arguments Return {A} v.
Arguments Raise {A} e.

(** *** Regular expressions *)

Definition in_range (lo hi c : N) : bool := (lo <=? c) && (c <=? hi).

(** [A-Z], [a-z], [0-9]: without IGNORECASE a range is a range of code
    points. *)
Definition is_upper : N → bool := in_range 65 90.
Definition is_lower : N → bool := in_range 97 122.
Definition is_digit : N → bool := in_range 48 57.
(** [[A-Za-z0-9_]] *)
Definition is_username_char (c : N) : bool :=
  is_upper c || is_lower c || is_digit c || (c =? 95).
(** [\s] on a [str] pattern: the code points for which [str.isspace] holds. *)
Definition is_space (c : N) : bool :=
  in_range 0x09 0x0D c || in_range 0x1C 0x20 c || (c =? 0x85) || (c =? 0xA0)
  || (c =? 0x1680) || in_range 0x2000 0x200A c || (c =? 0x2028)
  || (c =? 0x2029) || (c =? 0x202F) || (c =? 0x205F) || (c =? 0x3000).
(** [[A-Za-z\s]] *)
Definition is_name_char (c : N) : bool :=
  is_upper c || is_lower c || is_space c.
(** The class of the last [re.search] of [_validate_password]: the
    characters ! @ # $ % ^ & * ( ) , . ? : { } | < > and the double quote
    (code point 34). *)
Definition is_special (c : N) : bool :=
  bool_decide (c ∈ of_string "!@#$%^&*(),.?:{}|<>") || (c =? 34).

(** [$] without MULTILINE: at the end of the string, or just before a
    line feed that is the last character. *)
Definition at_dollar (s : str) : bool :=
  match s with
  | [] => true
  | [c] => c =? 10
  | _ => false
  end.

(** [re.match(r'^[cls]{lo,hi}$', s)] *)
Fixpoint match_class_bounded (cls : N → bool) (lo hi : nat) (s : str) : bool :=
  ((lo =? 0)%nat && at_dollar s)
  || match hi, s with
     | S hi', c :: s' => cls c && match_class_bounded cls (pred lo) hi' s'
     | _, _ => false
     end.

(** [re.search(r'[cls]', s)] *)
Definition search_class (cls : N → bool) (s : str) : bool := existsb cls s.

Definition _validate_name (name : str) : bool :=
  match_class_bounded is_name_char 2 50 name.

Definition _validate_username (username : str) : bool :=
  match_class_bounded is_username_char 4 20 username.

Definition _validate_password (password : str) : bool :=
  if (length password <? 8)%nat then false
  else if negb (search_class is_upper password) then false
  else if negb (search_class is_lower password) then false
  else if negb (search_class is_digit password) then false
  else if negb (search_class is_special password) then false
  else true.

(** *** [str.encode()]: UTF-8, errors='strict' *)

Definition is_surrogate : N → bool := in_range 0xD800 0xDFFF.

(** The bytes of one code point; none for a surrogate. *)
Definition encode_point (c : N) : option (list N) :=
  if c <? 0x80 then Some [c]
  else if c <? 0x800 then Some [0xC0 + c / 64; 0x80 + c mod 64]
  else if is_surrogate c then None
  else if c <? 0x10000
  then Some [0xE0 + c / 4096; 0x80 + (c / 64) mod 64; 0x80 + c mod 64]
  else Some [0xF0 + c / 262144; 0x80 + (c / 4096) mod 64;
             0x80 + (c / 64) mod 64; 0x80 + c mod 64].

(** The bytes of a string; [None] is the UnicodeEncodeError. *)
Fixpoint encode (s : str) : option (list N) :=
  match s with
  | [] => Some []
  | c :: s' =>
      match encode_point c, encode s' with
      | Some bytes, Some rest => Some (bytes ++ rest)
      | _, _ => None
      end
  end.

(** *** Users and the bank *)

Record User : Type := mkUser {
  username : str;
  password_hash : string
}.

(** The bank; its accounts are of no concern to the credential methods and
    stay of an arbitrary type. *)
Record Bank (Account : Type) : Type := mkBank {
  _accounts : gmap string Account;
  _users : gmap str User;
  _account_holders : gmap str (list string)
}.
Arguments mkBank {Account} _ _ _.
Arguments _accounts {Account} _.
Arguments _users {Account} _.
Arguments _account_holders {Account} _.

(** [Bank.__init__] *)
Definition Bank_init {Account} : Bank Account := mkBank ∅ ∅ ∅.

(** [get_user_accounts]: [dict.get] with default [[]]. *)
Definition get_user_accounts {Account} (self : Bank Account) (username : str)
    : list string :=
  default [] (_account_holders self !! username).

Section Credentials.

Context {Account : Type}.

(** [hashlib.sha256(data).hexdigest()], of the bytes [data]. *)
Variable sha256_hexdigest : list N → string.

(** [_hash_password]: [password.encode()] comes first and may raise. *)
Definition _hash_password (password : str) : outcome string :=
  match encode password with
  | Some data => Return (sha256_hexdigest data)
  | None => Raise UnicodeEncodeError
  end.

(** [User.__init__]: no object comes out when the hash raises. *)
Definition User_init (username password : str) : outcome User :=
  match _hash_password password with
  | Return password_hash => Return (mkUser username password_hash)
  | Raise e => Raise e
  end.

Definition verify_password (self : User) (password : str) : outcome bool :=
  match _hash_password password with
  | Return h => Return (bool_decide (h = password_hash self))
  | Raise e => Raise e
  end.

(** [create_user]: the outcome and the bank after the call.  The right-hand
    side [User(username, password)] is evaluated before the assignment to
    [self._users[username]], so a raise in it leaves the bank as it was. *)
Definition create_user (username password : str) (self : Bank Account)
    : outcome bool * Bank Account :=
  if negb (_validate_username username)
  then (Raise (BankingError "Invalid username format"), self)
  else if negb (_validate_password password)
  then (Raise (BankingError "Password does not meet security requirements"),
        self)
  else if bool_decide (is_Some (_users self !! username))
  then (Raise (BankingError "Username already exists"), self)
  else
    match User_init username password with
    | Raise e => (Raise e, self)
    | Return user =>
        (Return true,
         mkBank (_accounts self) (<[username := user]> (_users self))
           (<[username := []]> (_account_holders self)))
    end.

(** [authenticate_user]: [self._users.get(username)], and only for a user
    that is there the call of [verify_password]; an instance of [User] is
    always truthy.  The bank is not mutated. *)
Definition authenticate_user (username password : str) (self : Bank Account)
    : outcome bool :=
  match _users self !! username with
  | Some user =>
      match verify_password user password with
      | Return true => Return true
      | Return false => Return false
      | Raise e => Raise e
      end
  | None => Return false
  end.

End Credentials.

End Unicode.

(** * Vocabulary of the properties *)

(** The account after a successful [deposit]. *)
Definition deposited (now : string) (amount : Q) (a : Account) : Account :=
  mkAccount (_account_number a) (_account_holder a) (_balance a + amount)
    (_transactions a ++
       [mkTransaction now "Deposit" amount (_balance a + amount)])
    (_account_type a) (_is_active a).

(** The account after a successful [withdraw]. *)
Definition withdrawn (now : string) (amount : Q) (a : Account) : Account :=
  mkAccount (_account_number a) (_account_holder a) (_balance a - amount)
    (_transactions a ++
       [mkTransaction now "Withdrawal" (- amount) (_balance a - amount)])
    (_account_type a) (_is_active a).

(** The account after [_add_transaction]. *)
Definition stamped (now : string) (ty : TransactionType) (amount : Q)
    (a : Account) : Account :=
  set_transactions
    (_transactions a ++
       [mkTransaction now (TransactionType_value ty) amount (_balance a)]) a.

(** A Savings account holding 1500. *)
Definition savings_1500 : Account :=
  mkAccount "0000000001" "Alice Smith" 1500
    [mkTransaction "t0" "Deposit" 1500 1500] SAVINGS true.

(** The bank after the object under key [k] went through [f]. *)
Definition update_account (k : string) (f : Account → Account) (b : Bank)
    : Bank :=
  set_accounts (alter f k) b.

(** The bank after a transfer that went through: the four mutations in the
    order of the source, each on the object its reference names. *)
Definition transferred (now : nat → string) (s r : string) (amount : Q)
    (b : Bank) : Bank :=
  update_account r (stamped (now 3%nat) TRANSFER_RECEIVED amount)
    (update_account s (stamped (now 2%nat) TRANSFER_SENT (- amount))
       (update_account r (deposited (now 1%nat) amount)
          (update_account s (withdrawn (now 0%nat) amount) b))).

(** A stand-in for SHA-256 in the examples: any function will do, since
    nothing below depends on which one hashes the passwords. *)
Definition example_digest (password : string) : string :=
  String.append "digest:" password.

Definition example_clock (i : nat) : string := String.append "t" (pretty i).

(** The bank [open_account] leaves, or the bank itself if the call does not
    come back. *)
Definition after_open_account (rng : list nat) (user holder : string)
    (ty : AccountType) (b : Bank) : Bank :=
  match open_account rng user holder ty b with
  | Some (_, b') => b'
  | None => b
  end.

(** User "alice_01" with two accounts of the given variants, numbered
    0000000001 and 0000000002, holding 500 and 200. *)
Definition example_bank (ty1 ty2 : AccountType) : Bank :=
  let b := snd (create_user example_digest "alice_01" "Str0ng!Pass" Bank_init) in
  let b := after_open_account [0; 0; 0; 0; 0; 0; 0; 0; 0; 1]%nat
             "alice_01" "Alice Smith" ty1 b in
  let b := after_open_account [0; 0; 0; 0; 0; 0; 0; 0; 0; 2]%nat
             "alice_01" "Alice Smith" ty2 b in
  let b := snd (on_account "0000000001" (deposit "d1" 500) b) in
  snd (on_account "0000000002" (deposit "d2" 200) b).

(** The bank after [create_user] registered [name]. *)
Definition registered (h : string → string) (name password : string)
    (b : Bank) : Bank :=
  mkBank (_accounts b) (<[name := User_init h name password]> (_users b))
         (<[name := []]> (_account_holders b)).

Definition InvalidUsername : exn := BankingError "Invalid username format".
Definition WeakPassword : exn :=
  BankingError "Password does not meet security requirements".
Definition UsernameTaken : exn := BankingError "Username already exists".

(** The username rule in the specification's words: 4 to 20 characters,
    each a letter, a digit or an underscore. *)
Definition username_well_formed (name : string) : bool :=
  (4 <=? String.length name)%nat && (String.length name <=? 20)%nat
  && forallb is_username_char (String.list_ascii_of_string name).

(** "user" followed by a line feed. *)
Definition user_newline : string :=
  String.append "user" (String (Ascii.ascii_of_nat 10) "").

(** The candidates the generator forms from the draws, in order. *)
Fixpoint candidates_loop (fuel : nat) (rng : list nat) : list string :=
  match fuel with
  | O => []
  | S fuel' =>
      match draw_candidate rng with
      | None => []
      | Some (account_number, rng') =>
          account_number :: candidates_loop fuel' rng'
      end
  end.

Definition candidates (rng : list nat) : list string :=
  candidates_loop (length rng) rng.

(** The object [open_account] constructs. *)
Definition new_account (account_number account_holder : string)
    (account_type : AccountType) : Account :=
  match account_type with
  | SAVINGS => SavingsAccount_init account_number account_holder
  | CURRENT => CurrentAccount_init account_number account_holder
  end.

(** Every state a caller can bring a bank to: from the empty bank, by the
    bank's methods and by the methods of the accounts it hands out, whether
    the call returns or raises.  ([calculate_all_interest] is a run of
    [calculate_interest] calls.) *)
Inductive reachable : Bank → Prop :=
  | reach_init : reachable Bank_init
  | reach_create_user h name password b r b' :
      reachable b → create_user h name password b = (r, b') → reachable b'
  | reach_open_account rng user holder ty b r b' :
      reachable b → open_account rng user holder ty b = Some (r, b') →
      reachable b'
  | reach_transfer now s t amount b r b' :
      reachable b → transfer now s t amount b = (r, b') → reachable b'
  | reach_deposit k now amount b r b' :
      reachable b → on_account k (deposit now amount) b = (r, b') →
      reachable b'
  | reach_withdraw k now amount b r b' :
      reachable b → on_account k (withdraw now amount) b = (r, b') →
      reachable b'
  | reach_calculate_interest k now b r b' :
      reachable b → on_account k (calculate_interest now) b = (r, b') →
      reachable b'
  | reach_toggle_account_status k b r b' :
      reachable b → on_account k toggle_account_status b = (r, b') →
      reachable b'.

(** The invariant of the data model: users and owner lists have the same
    keys, and every owned number is a key of the account mapping. *)
Definition registry_consistent (b : Bank) : Prop :=
  (∀ u, is_Some (_users b !! u) ↔ is_Some (_account_holders b !! u))
  ∧ (∀ u owned n, _account_holders b !! u = Some owned → n ∈ owned →
       is_Some (_accounts b !! n)).

(** [b'] has the users and owner lists of [b] and at least its accounts. *)
Definition accounts_extended (b b' : Bank) : Prop :=
  _users b' = _users b ∧ _account_holders b' = _account_holders b
  ∧ ∀ n, is_Some (_accounts b !! n) → is_Some (_accounts b' !! n).

(** What holds of every stored account: it sits under its own number and
    its balance is not negative. *)
Definition account_sound (k : string) (a : Account) : Prop :=
  _account_number a = k ∧ 0 <= _balance a.

Definition accounts_sound (b : Bank) : Prop :=
  ∀ k a, _accounts b !! k = Some a → account_sound k a.

(** The bank a failed [open_account] of an unknown user leaves behind: one
    Current account, owned by nobody. *)
Definition orphan_bank : Bank :=
  after_open_account [0; 0; 0; 0; 0; 0; 0; 0; 0; 7]%nat "ghost" "Alice Smith"
    CURRENT Bank_init.

(** No account number is owned twice: not twice by one user, not by two
    users. *)
Definition owner_lists_unique (b : Bank) : Prop :=
  (∀ u, NoDup (get_user_accounts b u))
  ∧ (∀ u1 u2 n, u1 ≠ u2 → n ∈ get_user_accounts b u1 →
       n ∉ get_user_accounts b u2).

(** One call on the bank or on one of its accounts, returning or raising:
    the moves of [reachable], taken one at a time. *)
Inductive bank_step : Bank → Bank → Prop :=
  | step_create_user h name password b r b' :
      create_user h name password b = (r, b') → bank_step b b'
  | step_open_account rng user holder ty b r b' :
      open_account rng user holder ty b = Some (r, b') → bank_step b b'
  | step_transfer now s t amount b r b' :
      transfer now s t amount b = (r, b') → bank_step b b'
  | step_deposit k now amount b r b' :
      on_account k (deposit now amount) b = (r, b') → bank_step b b'
  | step_withdraw k now amount b r b' :
      on_account k (withdraw now amount) b = (r, b') → bank_step b b'
  | step_calculate_interest k now b r b' :
      on_account k (calculate_interest now) b = (r, b') → bank_step b b'
  | step_toggle_account_status k b r b' :
      on_account k toggle_account_status b = (r, b') → bank_step b b'.

(** [a'] is a later state of the account [a]: same number, holder and
    variant, and a log that continues the log of [a]. *)
Definition account_continues (a a' : Account) : Prop :=
  _account_number a' = _account_number a
  ∧ _account_holder a' = _account_holder a
  ∧ _account_type a' = _account_type a
  ∧ _transactions a `prefix_of` _transactions a'.

(** [b'] is a later state of the bank [b]: every user is still there with
    the same hash, every owner list continues the old one, and every
    account is still there, continued. *)
Definition bank_continues (b b' : Bank) : Prop :=
  (∀ u user, _users b !! u = Some user → _users b' !! u = Some user)
  ∧ (∀ u, get_user_accounts b u `prefix_of` get_user_accounts b' u)
  ∧ (∀ k a, get_account b k = Some a →
       ∃ a', get_account b' k = Some a' ∧ account_continues a a').

(** *** Vocabulary on binary64 amounts *)

(** The account after a successful [Float64.deposit]. *)
Definition deposited64 (now : string) (amount : float) (a : Float64.Account)
    : Float64.Account :=
  Float64.mkAccount (Float64._account_number a) (Float64._account_holder a)
    (Float64._balance a + amount)%float
    (Float64._transactions a ++
       [Float64.mkTransaction now "Deposit" amount
          (Float64._balance a + amount)%float])
    (Float64._account_type a) (Float64._is_active a).

(** The account after a successful [Float64.withdraw]. *)
Definition withdrawn64 (now : string) (amount : float) (a : Float64.Account)
    : Float64.Account :=
  Float64.mkAccount (Float64._account_number a) (Float64._account_holder a)
    (Float64._balance a - amount)%float
    (Float64._transactions a ++
       [Float64.mkTransaction now "Withdrawal" (- amount)%float
          (Float64._balance a - amount)%float])
    (Float64._account_type a) (Float64._is_active a).

(** The account after [Float64._add_transaction]. *)
Definition stamped64 (now : string) (ty : TransactionType) (amount : float)
    (a : Float64.Account) : Float64.Account :=
  Float64.set_transactions
    (Float64._transactions a ++
       [Float64.mkTransaction now (TransactionType_value ty) amount
          (Float64._balance a)]) a.

(** A Savings account after its monthly interest was credited. *)
Definition credited64 (now : string) (a : Float64.Account) : Float64.Account :=
  Float64.mkAccount (Float64._account_number a) (Float64._account_holder a)
    (Float64._balance a
     + Float64._balance a * Float64.INTEREST_RATE / 12)%float
    (Float64._transactions a ++
       [Float64.mkTransaction now "Interest Credit"
          (Float64._balance a * Float64.INTEREST_RATE / 12)%float
          (Float64._balance a
           + Float64._balance a * Float64.INTEREST_RATE / 12)%float])
    (Float64._account_type a) (Float64._is_active a).

(** The amounts of a log added up from zero in the order of the log, each
    addition the float addition. *)
Definition running_total (log : list Float64.Transaction) : float :=
  fold_left (λ s t, (s + Float64.tx_amount t)%float) log 0%float.

(** The three operations a caller applies to an account it holds. *)
Inductive AccountOp : Type :=
  | OpDeposit (now : string) (amount : float)
  | OpWithdraw (now : string) (amount : float)
  | OpInterest (now : string).

(** The call an operation stands for, its return value dropped. *)
Definition perform (o : AccountOp) : M Float64.Account unit :=
  match o with
  | OpDeposit now amount => Float64.deposit now amount;;; ret tt
  | OpWithdraw now amount => Float64.withdraw now amount;;; ret tt
  | OpInterest now => Float64.calculate_interest now;;; ret tt
  end.

(** A sequence of calls on one account; a call that raises is given up by
    the caller and the next one runs on the account as it was left. *)
Definition apply_ops (ops : list AccountOp) (a : Float64.Account)
    : Float64.Account :=
  fold_left (λ a o, snd (perform o a)) ops a.

Definition balanced (a : Float64.Account) : Prop :=
  Float64._balance a = running_total (Float64._transactions a).

(** The signed amount an operation records when it goes through: the
    deposit as given, the withdrawal negated, the interest computed on the
    balance before the call. *)
Definition recorded_amount (o : AccountOp) (a : Float64.Account) : float :=
  match o with
  | OpDeposit _ amount => amount
  | OpWithdraw _ amount => (- amount)%float
  | OpInterest _ => (Float64._balance a * Float64.INTEREST_RATE / 12)%float
  end.

(** What the code has checked of the amount of a deposit or a withdrawal
    that went through: that [amount <= 0] is false, which leaves the
    positive amounts and NaN. *)
Definition amount_accepted (o : AccountOp) : Prop :=
  match o with
  | OpDeposit _ amount | OpWithdraw _ amount =>
      (amount <=? 0)%float = false
      ∧ (is_nan amount = true ∨ (0 <? amount)%float = true)
  | OpInterest _ => True
  end.

(** A Savings account holding 1500, one holding exactly the minimum, and
    an inactive one holding the minimum. *)
Definition savings64_1500 : Float64.Account :=
  Float64.mkAccount "0000000001" "Alice Smith" 1500
    [Float64.mkTransaction "t0" "Deposit" 1500 1500] SAVINGS true.
Definition savings64_1000 : Float64.Account :=
  Float64.mkAccount "0000000004" "Dee Ray" 1000
    [Float64.mkTransaction "t0" "Deposit" 1000 1000] SAVINGS true.
Definition savings64_1000_inactive : Float64.Account :=
  Float64.mkAccount "0000000005" "Eve Ray" 1000
    [Float64.mkTransaction "t0" "Deposit" 1000 1000] SAVINGS false.
Definition current64_inactive : Float64.Account :=
  Float64.mkAccount "0000000003" "Cy Day" 0 [] CURRENT false.

(** *** Vocabulary on Unicode text *)

(** The white-space characters of Unicode, by code point. *)
Definition unicode_white_space : list N :=
  [0x09; 0x0A; 0x0B; 0x0C; 0x0D; 0x1C; 0x1D; 0x1E; 0x1F; 0x20; 0x85; 0xA0;
   0x1680; 0x2000; 0x2001; 0x2002; 0x2003; 0x2004; 0x2005; 0x2006; 0x2007;
   0x2008; 0x2009; 0x200A; 0x2028; 0x2029; 0x202F; 0x205F; 0x3000]%N.

(** The letters A to Z and a to z. *)
Definition ascii_letter (c : N) : Prop :=
  (65 ≤ c ≤ 90 ∨ 97 ≤ c ≤ 122)%N.

(** The holder-name rule in the words of the shell's message: 2 to 50
    characters, each a letter or white space. *)
Definition holder_name_well_formed (name : Unicode.str) : Prop :=
  (2 ≤ length name ≤ 50)%nat
  ∧ Forall (λ c, ascii_letter c ∨ c ∈ unicode_white_space) name.

(** The code points [str.encode()] refuses. *)
Definition surrogate (c : N) : Prop := (0xD800 ≤ c ≤ 0xDFFF)%N.

(** A stand-in for SHA-256 on bytes in the examples: any function will do,
    since nothing below depends on which one hashes the passwords. *)
Definition example_digest_of_bytes (data : list N) : string :=
  String.concat "," (pretty <$> data).

Definition InvalidUsernameU : Unicode.exn :=
  Unicode.BankingError "Invalid username format".
Definition WeakPasswordU : Unicode.exn :=
  Unicode.BankingError "Password does not meet security requirements".
Definition UsernameTakenU : Unicode.exn :=
  Unicode.BankingError "Username already exists".

(** "alice_01" and "Str0ng!Pass", and the latter followed by the lone
    surrogate U+DCFF. *)
Definition alice : Unicode.str := Unicode.of_string "alice_01".
Definition strong_pass : Unicode.str := Unicode.of_string "Str0ng!Pass".
Definition surrogate_pass : Unicode.str := (strong_pass ++ [0xDCFF])%N.

(** A bank without accounts in which "alice_01" is registered with
    "Str0ng!Pass". *)
Definition alice_bank : Unicode.Bank unit :=
  snd (Unicode.create_user example_digest_of_bytes alice strong_pass
         Unicode.Bank_init).

(** *** Vocabulary on binary64 banks *)

Definition update_account64 (k : string)
    (f : Float64.Account → Float64.Account) (b : Float64.Bank)
    : Float64.Bank :=
  Float64.set_accounts (alter f k) b.

(** The bank after a [Float64.transfer] that went through: the four
    mutations in the order of the source, each on the object its reference
    names. *)
Definition transferred64 (now : nat → string) (s r : string) (amount : float)
    (b : Float64.Bank) : Float64.Bank :=
  update_account64 r (stamped64 (now 3%nat) TRANSFER_RECEIVED amount)
    (update_account64 s (stamped64 (now 2%nat) TRANSFER_SENT (- amount)%float)
       (update_account64 r (deposited64 (now 1%nat) amount)
          (update_account64 s (withdrawn64 (now 0%nat) amount) b))).

(** An account of variant [ty] under [number] that holds [balance] after
    one deposit of that amount. *)
Definition funded64 (number : string) (ty : AccountType) (balance : float)
    : Float64.Account :=
  Float64.mkAccount number "Alice Smith" balance
    [Float64.mkTransaction "d" "Deposit" balance balance] ty true.

(** A bank with two accounts of "alice_01": "0000000001", of variant [ty1]
    and holding [x], and "0000000002", of variant [ty2] and holding [y]. *)
Definition example_bank64 (ty1 ty2 : AccountType) (x y : float)
    : Float64.Bank :=
  Float64.mkBank
    (<["0000000001" := funded64 "0000000001" ty1 x]>
       (<["0000000002" := funded64 "0000000002" ty2 y]> ∅))
    (<["alice_01" := mkUser "alice_01" (example_digest "Str0ng!Pass")]> ∅)
    (<["alice_01" := ["0000000001"; "0000000002"]]> ∅).

(** *** Vocabulary on the single-account program *)

(** The calls a user of the single-account program makes on its account,
    and a run of them; a call that raises leaves the account to the next
    one as it was. *)
Inductive SimpleOp : Type :=
  | SimpleDeposit (amount : float)
  | SimpleWithdraw (amount : float).

Definition simple_perform (o : SimpleOp) (a : BankingProject.Account)
    : BankingProject.Account :=
  match o with
  | SimpleDeposit amount => snd (BankingProject.deposit amount a)
  | SimpleWithdraw amount => snd (BankingProject.withdraw amount a)
  end.

Definition simple_apply (ops : list SimpleOp) (a : BankingProject.Account)
    : BankingProject.Account :=
  fold_left (λ a o, simple_perform o a) ops a.

(** A log replayed on a balance that starts at [start]: every "Deposit"
    added and every "Withdrawal" subtracted, in the order of the log and in
    float arithmetic. *)
Definition replay (start : float) (log : list (string * float)) : float :=
  fold_left
    (λ balance transaction,
       if String.eqb (fst transaction) "Deposit"
       then (balance + snd transaction)%float
       else if String.eqb (fst transaction) "Withdrawal"
       then (balance - snd transaction)%float
       else balance)
    log start.

(** A stand-in for the two-decimal rendering in the examples; the running
    balances do not depend on how amounts are printed. *)
Definition example_format (x : float) : string := "#".

(** *** Vocabulary on the sign of binary64 amounts *)

(** A float of the specification that is not below zero: a zero of either
    sign, a positive number, plus infinity or NaN. *)
Definition SF_not_negative (z : spec_float) : bool :=
  match z with
  | S754_infinity true | S754_finite true _ _ => false
  | _ => true
  end.

(** One that is not above zero and not NaN either: a zero, a negative
    number or minus infinity. *)
Definition SF_not_positive (z : spec_float) : bool :=
  match z with
  | S754_zero _ | S754_infinity true | S754_finite true _ _ => true
  | _ => false
  end.

(** [x < 0] is false: [x] is zero, positive or NaN. *)
Definition not_below_zero (x : float) : Prop := (x <? 0)%float = false.

Definition balances_not_below_zero (b : Float64.Bank) : Prop :=
  ∀ k a, Float64._accounts b !! k = Some a →
         not_below_zero (Float64._balance a).

(** One call that may move an amount in the bank: [transfer],
    [calculate_all_interest], or a method of a stored account called
    through the bank; returning or raising. *)
Inductive amount_step : Float64.Bank → Float64.Bank → Prop :=
  | amount_step_transfer now s r amount b res b' :
      Float64.transfer now s r amount b = (res, b') → amount_step b b'
  | amount_step_all_interest now b res b' :
      Float64.calculate_all_interest now b = (res, b') → amount_step b b'
  | amount_step_deposit k now amount b res b' :
      Float64.on_account k (Float64.deposit now amount) b = (res, b') →
      amount_step b b'
  | amount_step_withdraw k now amount b res b' :
      Float64.on_account k (Float64.withdraw now amount) b = (res, b') →
      amount_step b b'
  | amount_step_interest k now b res b' :
      Float64.on_account k (Float64.calculate_interest now) b = (res, b') →
      amount_step b b'
  | amount_step_toggle k b res b' :
      Float64.on_account k Float64.toggle_account_status b = (res, b') →
      amount_step b b'.

(** * Properties *)

(** ** The model on small inputs *)

Example current_fresh_withdraw_5000 :
  withdraw "t" 5000 (CurrentAccount_init "0000000001" "Ann Lee")
  = (Raise InsufficientFunds, CurrentAccount_init "0000000001" "Ann Lee").
Proof. reflexivity. Qed.

Example validate_username_newline :
  _validate_username (String.append "user" (String (Ascii.ascii_of_nat 10) "")) = true.
Proof. reflexivity. Qed.
Example validate_username_ok : _validate_username "alice_01" = true.
Proof. reflexivity. Qed.
Example validate_username_short : _validate_username "abc" = false.
Proof. reflexivity. Qed.
Example validate_username_long :
  _validate_username "abcdefghijklmnopqrstu" = false.
Proof. reflexivity. Qed.
Example validate_password_ok : _validate_password "Str0ng!Pass" = true.
Proof. reflexivity. Qed.
Example validate_name_ok : _validate_name "Alice Smith" = true.
Proof. reflexivity. Qed.

(** ** Sequencing *)

Lemma bind_return {S A B} (m : M S A) (k : A → M S B) s v s' :
  m s = (Return v, s') → bind m k s = k v s'.
Proof. intros H. unfold bind. rewrite H. reflexivity. Qed.

Lemma bind_raise {S A B} (m : M S A) (k : A → M S B) s e s' :
  m s = (Raise e, s') → bind m k s = (Raise e, s').
Proof. intros H. unfold bind. rewrite H. reflexivity. Qed.

(** ** Comparisons *)

Lemma Qleb_true (x y : Q) : Qleb x y = true ↔ x <= y.
Proof. apply Qle_bool_iff. Qed.

Lemma Qleb_false (x y : Q) : Qleb x y = false ↔ y < x.
Proof.
  unfold Qleb. rewrite <- not_true_iff_false, Qle_bool_iff.
  split; [apply Qnot_le_lt | apply Qlt_not_le].
Qed.

Lemma Qltb_true (x y : Q) : Qltb x y = true ↔ x < y.
Proof. unfold Qltb. rewrite negb_true_iff. apply Qleb_false. Qed.

Lemma Qltb_false (x y : Q) : Qltb x y = false ↔ y <= x.
Proof. unfold Qltb. rewrite negb_false_iff. apply Qleb_true. Qed.

(** ** What each account method does, in closed form *)

Lemma deposit_eq now amount a :
  deposit now amount a =
    if negb (_is_active a) then (Raise InactiveAccount, a)
    else if Qleb amount 0 then (Raise InvalidDeposit, a)
    else (Return true, deposited now amount a).
Proof.
  unfold deposit, bind, get, raise_if, raise, ret, modify, _add_transaction.
  destruct (_is_active a); simpl; [|reflexivity].
  destruct (Qleb amount 0); reflexivity.
Qed.

Lemma Account_withdraw_eq now amount a :
  Account_withdraw now amount a =
    if negb (_is_active a) then (Raise InactiveAccount, a)
    else if Qleb amount 0 then (Raise InvalidWithdrawal, a)
    else if Qgtb amount (_balance a) then (Raise InsufficientFunds, a)
    else (Return true, withdrawn now amount a).
Proof.
  unfold Account_withdraw, bind, get, raise_if, raise, ret, modify,
    _add_transaction.
  destruct (_is_active a); simpl; [|reflexivity].
  destruct (Qleb amount 0); simpl; [reflexivity|].
  destruct (Qgtb amount (_balance a)); reflexivity.
Qed.

Lemma withdraw_eq now amount a :
  withdraw now amount a =
    match _account_type a with
    | SAVINGS =>
        if Qltb (_balance a - amount) MINIMUM_BALANCE
        then (Raise BelowMinimumBalance, a)
        else Account_withdraw now amount a
    | CURRENT =>
        if Qltb (_balance a - amount) (- OVERDRAFT_LIMIT)
        then (Raise OverdraftLimitExceeded, a)
        else Account_withdraw now amount a
    end.
Proof.
  unfold withdraw, SavingsAccount_withdraw, CurrentAccount_withdraw, bind, get,
    raise_if, raise, ret.
  destruct (_account_type a); simpl.
  - destruct (Qltb _ MINIMUM_BALANCE); reflexivity.
  - destruct (Qltb _ (- OVERDRAFT_LIMIT)); reflexivity.
Qed.

(** A [withdraw] that raises has not touched the account, and one that
    returns has returned [True] and left [withdrawn]. *)
Lemma withdraw_cases now amount a :
  (∃ e, withdraw now amount a = (Raise e, a))
  ∨ withdraw now amount a = (Return true, withdrawn now amount a).
Proof.
  rewrite withdraw_eq, Account_withdraw_eq.
  destruct (_account_type a);
    repeat match goal with
           | |- context [if ?c then _ else _] => destruct c
           end; eauto.
Qed.

Lemma calculate_interest_eq now a :
  calculate_interest now a =
    match _account_type a with
    | SAVINGS =>
        let monthly_interest := (_balance a * INTEREST_RATE) / 12 in
        (Return monthly_interest,
         mkAccount (_account_number a) (_account_holder a)
           (_balance a + monthly_interest)
           (_transactions a ++
              [mkTransaction now "Interest Credit" monthly_interest
                 (_balance a + monthly_interest)])
           (_account_type a) (_is_active a))
    | CURRENT => (Return 0, a)
    end.
Proof.
  destruct a as [n h b l [] f]; reflexivity.
Qed.

(** ** Withdrawal policies *)

(** A successful [withdraw] on a Current account needs [amount <= balance]:
    the base method it ends in refuses anything larger, whatever the
    overdraft test let through. *)
Lemma current_withdraw_success_inv now amount a r a' :
  _account_type a = CURRENT →
  withdraw now amount a = (Return r, a') →
  amount <= _balance a ∧ 0 <= _balance a'.
Proof.
  intros Hty. rewrite withdraw_eq, Hty, Account_withdraw_eq.
  destruct (Qltb _ (- OVERDRAFT_LIMIT)); [discriminate|].
  destruct (negb (_is_active a)); [discriminate|].
  destruct (Qleb amount 0); [discriminate|].
  destruct (Qgtb amount (_balance a)) eqn:Hgt; [discriminate|].
  intros [= _ <-]. apply Qltb_false in Hgt. simpl. split; [exact Hgt | lra].
Qed.

(** C1 (the code departs from the claim).  On a freshly opened Current
    account, balance 0, [withdraw(5000)] passes the overdraft test
    (0 - 5000 is not below -10000) and is then refused by the base method
    with "Insufficient balance"; the balance stays 0 and nothing is logged. *)
Theorem current_withdraw_within_overdraft_refused
    (account_number account_holder now : string) :
  let a := CurrentAccount_init account_number account_holder in
  _balance a == 0
  ∧ - OVERDRAFT_LIMIT <= _balance a - 5000
  ∧ Qltb (_balance a - 5000) (- OVERDRAFT_LIMIT) = false
  ∧ withdraw now 5000 a = (Raise InsufficientFunds, a).
Proof.
  repeat split; try reflexivity. simpl. unfold OVERDRAFT_LIMIT. lra.
Qed.

(** The two account scenarios of the specification, run on the code.  The
    Savings one goes as written; in the Current one the first withdrawal is
    already refused. *)
Example savings_scenario :
  let a0 := SavingsAccount_init "0000000001" "Alice Smith" in
  let a1 := snd (deposit "t0" 1500 a0) in
  let a2 := snd (withdraw "t1" 400 a1) in
  _balance a1 == 1500
  ∧ withdraw "t1" 400 a1 = (Return true, a2)
  ∧ _balance a2 == 1100
  ∧ withdraw "t2" 200 a2 = (Raise BelowMinimumBalance, a2).
Proof. repeat split. Qed.

Example current_scenario :
  let a0 := CurrentAccount_init "0000000002" "Alice Smith" in
  withdraw "t0" 5000 a0 = (Raise InsufficientFunds, a0)
  ∧ withdraw "t1" 6000 a0 = (Raise InsufficientFunds, a0)
  ∧ withdraw "t2" 11000 a0 = (Raise OverdraftLimitExceeded, a0).
Proof. repeat split. Qed.

(** ** Transfers *)

Lemma set_accounts_insert_same k a b :
  _accounts b !! k = Some a → set_accounts (<[k := a]>) b = b.
Proof.
  intros H. destruct b as [accs us hs]. unfold set_accounts. simpl in *.
  f_equal. apply insert_id, H.
Qed.

Lemma set_accounts_insert_alter k a f b :
  _accounts b !! k = Some a →
  set_accounts (<[k := f a]>) b = update_account k f b.
Proof.
  intros H. unfold update_account, set_accounts. f_equal.
  apply map_eq. intros i. destruct (decide (k = i)) as [<-|Hne].
  - rewrite lookup_insert_eq, lookup_alter_eq, H. reflexivity.
  - rewrite lookup_insert_ne, lookup_alter_ne by exact Hne. reflexivity.
Qed.

Lemma on_account_raise {A} k (m : M Account A) b a e :
  _accounts b !! k = Some a → m a = (Raise e, a) →
  on_account k m b = (Raise e, b).
Proof.
  intros Hk Hm. unfold on_account. rewrite Hk, Hm.
  rewrite (set_accounts_insert_same _ _ _ Hk). reflexivity.
Qed.

Lemma on_account_return {A} k (m : M Account A) b a v f :
  _accounts b !! k = Some a → m a = (Return v, f a) →
  on_account k m b = (Return v, update_account k f b).
Proof.
  intros Hk Hm. unfold on_account. rewrite Hk, Hm.
  rewrite (set_accounts_insert_alter _ _ _ _ Hk). reflexivity.
Qed.

Lemma update_account_lookup k f b i :
  _accounts (update_account k f b) !! i
  = if decide (k = i) then f <$> _accounts b !! i else _accounts b !! i.
Proof.
  unfold update_account. simpl. destruct (decide (k = i)) as [<-|Hne].
  - apply lookup_alter_eq.
  - apply lookup_alter_ne, Hne.
Qed.

Lemma update_account_users k f b : _users (update_account k f b) = _users b.
Proof. reflexivity. Qed.

Lemma update_account_holders k f b :
  _account_holders (update_account k f b) = _account_holders b.
Proof. reflexivity. Qed.

(** [transfer] in closed form: the three guards in the order of the source,
    then the sender's [withdraw], whose exception leaves the bank as it was
    and whose return is followed by the remaining three steps, none of which
    can raise. *)
Lemma transfer_eq now s r amount b :
  transfer now s r amount b =
    if Qleb amount 0 then (Raise ValidationError_amount, b)
    else match _accounts b !! s, _accounts b !! r with
         | Some sender, Some receiver =>
             if negb (_is_active sender) || negb (_is_active receiver)
             then (Raise InactiveAccounts, b)
             else match withdraw (now 0%nat) amount sender with
                  | (Raise e, _) => (Raise e, b)
                  | (Return _, _) => (Return true, transferred now s r amount b)
                  end
         | _, _ => (Raise AccountNotFound, b)
         end.
Proof.
  unfold transfer, get_account.
  destruct (Qleb amount 0) eqn:Hpos; [reflexivity|].
  rewrite (bind_return _ _ b tt b) by reflexivity.
  rewrite (bind_return _ _ b b b) by reflexivity.
  destruct (_accounts b !! s) as [sender|] eqn:Hs; [|reflexivity].
  destruct (_accounts b !! r) as [receiver|] eqn:Hr; [|reflexivity].
  destruct (_is_active sender) eqn:Has; [|reflexivity].
  destruct (_is_active receiver) eqn:Har; [|reflexivity].
  rewrite (bind_return _ _ b tt b) by reflexivity.
  destruct (withdraw_cases (now 0%nat) amount sender) as [[e He]|Hw].
  { rewrite He. apply bind_raise, (on_account_raise _ _ _ _ _ Hs He). }
  rewrite Hw.
  set (b1 := update_account s (withdrawn (now 0%nat) amount) b).
  rewrite (bind_return _ _ b true b1)
    by apply (on_account_return _ _ _ _ _ _ Hs Hw).
  assert (∃ a1, _accounts b1 !! r = Some a1 ∧ _is_active a1 = true)
    as (a1 & Hr1 & Hact1).
  { unfold b1. rewrite update_account_lookup.
    destruct (decide (s = r)) as [<-|_].
    - rewrite Hs. simpl. eexists. split; [reflexivity|]. exact Has.
    - rewrite Hr. eauto. }
  assert (deposit (now 1%nat) amount a1
          = (Return true, deposited (now 1%nat) amount a1)) as Hd.
  { rewrite deposit_eq, Hact1, Hpos. reflexivity. }
  set (b2 := update_account r (deposited (now 1%nat) amount) b1).
  rewrite (bind_return _ _ b1 true b2)
    by apply (on_account_return _ _ _ _ _ _ Hr1 Hd).
  assert (is_Some (_accounts b2 !! s)) as [a2 Hs2].
  { unfold b2, b1. rewrite !update_account_lookup, Hs.
    repeat case_decide; simpl; eauto. }
  set (b3 := update_account s (stamped (now 2%nat) TRANSFER_SENT (- amount)) b2).
  rewrite (bind_return _ _ b2 tt b3)
    by apply (on_account_return _ _ _ _ _ _ Hs2 eq_refl).
  assert (is_Some (_accounts b3 !! r)) as [a3 Hr3].
  { unfold b3, b2. rewrite !update_account_lookup, Hr1.
    repeat case_decide; simpl; eauto. }
  rewrite (bind_return _ _ b3 tt (transferred now s r amount b))
    by apply (on_account_return _ _ _ _ _ _ Hr3 eq_refl).
  reflexivity.
Qed.

Lemma transferred_sender now s r amount b A :
  s ≠ r → _accounts b !! s = Some A →
  _accounts (transferred now s r amount b) !! s
  = Some (stamped (now 2%nat) TRANSFER_SENT (- amount)
            (withdrawn (now 0%nat) amount A)).
Proof.
  intros Hne Hs. unfold transferred. rewrite !update_account_lookup, Hs.
  repeat case_decide; try congruence. reflexivity.
Qed.

Lemma transferred_receiver now s r amount b B :
  s ≠ r → _accounts b !! r = Some B →
  _accounts (transferred now s r amount b) !! r
  = Some (stamped (now 3%nat) TRANSFER_RECEIVED amount
            (deposited (now 1%nat) amount B)).
Proof.
  intros Hne Hr. unfold transferred. rewrite !update_account_lookup, Hr.
  repeat case_decide; try congruence. reflexivity.
Qed.

Lemma transferred_other now s r amount b k :
  k ≠ s → k ≠ r →
  _accounts (transferred now s r amount b) !! k = _accounts b !! k.
Proof.
  intros Hs Hr. unfold transferred. rewrite !update_account_lookup.
  repeat case_decide; congruence.
Qed.

(** A [transfer] that raises leaves the bank as it found it. *)
Lemma transfer_raise_unchanged now s r amount b e b' :
  transfer now s r amount b = (Raise e, b') → b' = b.
Proof.
  rewrite transfer_eq.
  repeat match goal with
         | |- context [if ?c then _ else _] => destruct c
         | |- context [match ?o with Some _ => _ | None => _ end] => destruct o
         | |- context [let (_, _) := ?p in _] => destruct p as [[?|?] ?]
         end; congruence.
Qed.

(** *** Example banks *)

Example example_bank_accounts :
  get_account (example_bank SAVINGS CURRENT) "0000000001"
  = Some (mkAccount "0000000001" "Alice Smith" 500
            [mkTransaction "d1" "Deposit" 500 500] SAVINGS true)
  ∧ get_account (example_bank SAVINGS CURRENT) "0000000002"
    = Some (mkAccount "0000000002" "Alice Smith" 200
              [mkTransaction "d2" "Deposit" 200 200] CURRENT true)
  ∧ get_user_accounts (example_bank SAVINGS CURRENT) "alice_01"
    = ["0000000001"; "0000000002"].
Proof. vm_compute. auto. Qed.

(** C3 as the claim has it fails: with amount 100, both accounts present
    and active, sender holding 500 and receiver 200, a Savings sender's
    [withdraw] is refused by the minimum-balance rule, so nothing is
    withdrawn or deposited and no balance changes. *)
Lemma transfer_from_savings_500_refused :
  let b := example_bank SAVINGS SAVINGS in
  (∃ A B, get_account b "0000000001" = Some A
          ∧ get_account b "0000000002" = Some B
          ∧ _is_active A = true ∧ _is_active B = true
          ∧ _balance A == 500 ∧ _balance B == 200)
  ∧ transfer example_clock "0000000001" "0000000002" 100 b
    = (Raise BelowMinimumBalance, b).
Proof.
  split.
  - eexists _, _. repeat split; try (vm_compute; reflexivity).
  - vm_compute. reflexivity.
Qed.

(** C3, amended.  [transfer] raises the amount error when [amount <= 0];
    else the unknown-account error when either number is not in the
    mapping; else the inactive error when either account is inactive; else
    it calls [withdraw] on the sender: an exception of that call (the
    variant's policy, or insufficient balance) comes out of [transfer] with
    the bank unchanged, and when it returns the receiver is credited and one
    "Transfer Sent" and one "Transfer Received" record are appended.  For a
    transfer of 100 from a Current account holding 500 to another account
    holding 200, both active, the sender ends at 400 and the receiver at
    300; the sender's log gains a "Withdrawal" and then a "Transfer Sent"
    record of -100, the receiver's a "Deposit" and then a "Transfer
    Received" record of 100. *)
Theorem transfer_outcomes now s r amount b :
  (amount <= 0 → transfer now s r amount b = (Raise ValidationError_amount, b))
  ∧ (0 < amount → get_account b s = None ∨ get_account b r = None →
     transfer now s r amount b = (Raise AccountNotFound, b))
  ∧ (∀ A B,
       0 < amount → get_account b s = Some A → get_account b r = Some B →
       (_is_active A = false ∨ _is_active B = false →
        transfer now s r amount b = (Raise InactiveAccounts, b))
       ∧ (_is_active A = true → _is_active B = true →
          (∀ e A', withdraw (now 0%nat) amount A = (Raise e, A') →
             transfer now s r amount b = (Raise e, b))
          ∧ (∀ v A', withdraw (now 0%nat) amount A = (Return v, A') →
             transfer now s r amount b
             = (Return true, transferred now s r amount b)))
       ∧ (s ≠ r → _is_active A = true → _is_active B = true →
          _account_type A = CURRENT → amount == 100 →
          _balance A == 500 → _balance B == 200 →
          ∃ A' B',
            transfer now s r amount b
            = (Return true, transferred now s r amount b)
            ∧ get_account (transferred now s r amount b) s = Some A'
            ∧ get_account (transferred now s r amount b) r = Some B'
            ∧ _balance A' == 400 ∧ _balance B' == 300
            ∧ _transactions A' =
                _transactions A ++
                  [mkTransaction (now 0%nat) "Withdrawal" (- amount)
                     (_balance A - amount);
                   mkTransaction (now 2%nat) "Transfer Sent" (- amount)
                     (_balance A - amount)]
            ∧ _transactions B' =
                _transactions B ++
                  [mkTransaction (now 1%nat) "Deposit" amount
                     (_balance B + amount);
                   mkTransaction (now 3%nat) "Transfer Received" amount
                     (_balance B + amount)])).
Proof.
  unfold get_account. split; [|split].
  - intros Hle. rewrite transfer_eq. apply Qleb_true in Hle. rewrite Hle.
    reflexivity.
  - intros Hpos Hmiss. rewrite transfer_eq. apply Qleb_false in Hpos.
    rewrite Hpos. destruct Hmiss as [-> | ->]; [reflexivity|].
    destruct (_accounts b !! s); reflexivity.
  - intros A B Hpos Hs Hr. apply Qleb_false in Hpos.
    assert (_is_active A = true → _is_active B = true →
            transfer now s r amount b
            = match withdraw (now 0%nat) amount A with
              | (Raise e, _) => (Raise e, b)
              | (Return _, _) => (Return true, transferred now s r amount b)
              end) as Hgo.
    { intros HA HB. rewrite transfer_eq, Hpos, Hs, Hr, HA, HB. reflexivity. }
    split; [|split].
    + intros Hin. rewrite transfer_eq, Hpos, Hs, Hr.
      destruct Hin as [-> | ->]; [reflexivity|].
      destruct (_is_active A); reflexivity.
    + intros HA HB. rewrite (Hgo HA HB).
      split; intros x A' Hx; rewrite Hx; reflexivity.
    + intros Hne HA HB Hty H100 H500 H200.
      assert (withdraw (now 0%nat) amount A
              = (Return true, withdrawn (now 0%nat) amount A)) as Hw.
      { rewrite withdraw_eq, Hty, Account_withdraw_eq, HA, Hpos.
        replace (Qltb (_balance A - amount) (- OVERDRAFT_LIMIT)) with false
          by (symmetry; apply Qltb_false; unfold OVERDRAFT_LIMIT; lra).
        replace (Qgtb amount (_balance A)) with false
          by (symmetry; apply Qltb_false; lra).
        reflexivity. }
      eexists _, _. split; [rewrite (Hgo HA HB), Hw; reflexivity|].
      split; [apply (transferred_sender _ _ _ _ _ _ Hne Hs)|].
      split; [apply (transferred_receiver _ _ _ _ _ _ Hne Hr)|].
      simpl. rewrite <- !app_assoc. simpl.
      repeat split; try reflexivity; lra.
Qed.

Lemma transfer_outcomes_witness :
  let b := example_bank CURRENT SAVINGS in
  transfer example_clock "0000000001" "0000000002" 0 b
  = (Raise ValidationError_amount, b)
  ∧ transfer example_clock "0000000001" "0000000009" 100 b
    = (Raise AccountNotFound, b)
  ∧ ∃ A' B',
      transfer example_clock "0000000001" "0000000002" 100 b
      = (Return true,
         transferred example_clock "0000000001" "0000000002" 100 b)
      ∧ get_account
          (transferred example_clock "0000000001" "0000000002" 100 b)
          "0000000001" = Some A'
      ∧ get_account
          (transferred example_clock "0000000001" "0000000002" 100 b)
          "0000000002" = Some B'
      ∧ _balance A' == 400 ∧ _balance B' == 300
      ∧ _transactions A' =
          [mkTransaction "d1" "Deposit" 500 500] ++
            [mkTransaction "t0" "Withdrawal" (- 100) (500 - 100);
             mkTransaction "t2" "Transfer Sent" (- 100) (500 - 100)]
      ∧ _transactions B' =
          [mkTransaction "d2" "Deposit" 200 200] ++
            [mkTransaction "t1" "Deposit" 100 (200 + 100);
             mkTransaction "t3" "Transfer Received" 100 (200 + 100)].
Proof.
  intros b. split; [|split].
  - apply (proj1 (transfer_outcomes example_clock "0000000001" "0000000002"
                    0 b)).
    discriminate.
  - apply (proj1 (proj2 (transfer_outcomes example_clock "0000000001"
                           "0000000009" 100 b))).
    + reflexivity.
    + right. vm_compute. reflexivity.
  - pose proof (proj2 (proj2 (transfer_outcomes example_clock "0000000001"
                                  "0000000002" 100 b))) as H.
    specialize (H (mkAccount "0000000001" "Alice Smith" 500
                     [mkTransaction "d1" "Deposit" 500 500] CURRENT true)
                  (mkAccount "0000000002" "Alice Smith" 200
                     [mkTransaction "d2" "Deposit" 200 200] SAVINGS true)).
    destruct H as (_ & _ & H);
      [reflexivity | vm_compute; reflexivity | vm_compute; reflexivity |].
    apply H; try reflexivity. discriminate.
Defined.

(** C9.  A [transfer] that raises leaves the whole bank, hence both
    accounts' balances and logs, exactly as before the call; what it raises
    is one of the three guard errors or the exception of the sender's
    [withdraw], which has not touched the sender.  Once the guards are
    passed and the sender's [withdraw] has returned, [transfer] returns:
    the receiver's [deposit] cannot raise. *)
Theorem transfer_all_or_nothing now s r amount b :
  (∀ e b', transfer now s r amount b = (Raise e, b') →
     b' = b
     ∧ (e = ValidationError_amount ∨ e = AccountNotFound
        ∨ e = InactiveAccounts
        ∨ ∃ A, get_account b s = Some A
               ∧ withdraw (now 0%nat) amount A = (Raise e, A)))
  ∧ (∀ A B v A',
       0 < amount → get_account b s = Some A → get_account b r = Some B →
       _is_active A = true → _is_active B = true →
       withdraw (now 0%nat) amount A = (Return v, A') →
       transfer now s r amount b = (Return true, transferred now s r amount b)).
Proof.
  unfold get_account. split.
  - intros e b' Hrun.
    split; [exact (transfer_raise_unchanged _ _ _ _ _ _ _ Hrun)|].
    rewrite transfer_eq in Hrun.
    destruct (Qleb amount 0); [left; congruence|].
    destruct (_accounts b !! s) as [A|]; [|right; left; congruence].
    destruct (_accounts b !! r) as [B|]; [|right; left; congruence].
    destruct (_ || _); [right; right; left; congruence|].
    right; right; right. exists A. split; [reflexivity|].
    destruct (withdraw_cases (now 0%nat) amount A) as [[e' He]|Hw].
    + rewrite He in Hrun. congruence.
    + rewrite Hw in Hrun. discriminate.
  - intros A B v A' Hpos Hs Hr HA HB Hw. apply Qleb_false in Hpos.
    rewrite transfer_eq, Hpos, Hs, Hr, HA, HB, Hw. reflexivity.
Qed.

Lemma transfer_all_or_nothing_witness :
  (example_bank SAVINGS SAVINGS = example_bank SAVINGS SAVINGS
   ∧ (BelowMinimumBalance = ValidationError_amount
      ∨ BelowMinimumBalance = AccountNotFound
      ∨ BelowMinimumBalance = InactiveAccounts
      ∨ ∃ A, get_account (example_bank SAVINGS SAVINGS) "0000000001" = Some A
             ∧ withdraw (example_clock 0%nat) 100 A
               = (Raise BelowMinimumBalance, A)))
  ∧ transfer example_clock "0000000001" "0000000002" 100
      (example_bank CURRENT SAVINGS)
    = (Return true,
       transferred example_clock "0000000001" "0000000002" 100
         (example_bank CURRENT SAVINGS)).
Proof.
  split.
  - apply (proj1 (transfer_all_or_nothing example_clock "0000000001"
                    "0000000002" 100 (example_bank SAVINGS SAVINGS))).
    vm_compute. reflexivity.
  - apply (proj2 (transfer_all_or_nothing example_clock "0000000001"
                    "0000000002" 100 (example_bank CURRENT SAVINGS))
             (mkAccount "0000000001" "Alice Smith" 500
                [mkTransaction "d1" "Deposit" 500 500] CURRENT true)
             (mkAccount "0000000002" "Alice Smith" 200
                [mkTransaction "d2" "Deposit" 200 200] SAVINGS true)
             true
             (withdrawn (example_clock 0%nat) 100
                (mkAccount "0000000001" "Alice Smith" 500
                   [mkTransaction "d1" "Deposit" 500 500] CURRENT true)));
      vm_compute; reflexivity.
Defined.

(** ** Users *)

Lemma create_user_eq h name password b :
  create_user h name password b =
    if negb (_validate_username name) then (Raise InvalidUsername, b)
    else if negb (_validate_password password) then (Raise WeakPassword, b)
    else if dict_has (_users b) name then (Raise UsernameTaken, b)
    else (Return true, registered h name password b).
Proof.
  unfold create_user.
  destruct (_validate_username name); [|reflexivity].
  destruct (_validate_password password); [|reflexivity].
  rewrite (bind_return _ _ b tt b) by reflexivity.
  rewrite (bind_return _ _ b tt b) by reflexivity.
  rewrite (bind_return _ _ b b b) by reflexivity.
  destruct (dict_has (_users b) name); reflexivity.
Qed.

(** How far [_validate_username] is from that rule: it accepts the
    well-formed names and, besides, a well-formed name followed by one line
    feed. *)
Lemma match_class_bounded_unfold cls lo hi s :
  match_class_bounded cls lo hi s =
    ((lo =? 0)%nat && at_dollar s)
    || match hi, s with
       | S hi', String c s' => cls c && match_class_bounded cls (pred lo) hi' s'
       | _, _ => false
       end.
Proof. destruct hi, s; reflexivity. Qed.

Lemma append_empty_l t : String.append EmptyString t = t.
Proof. reflexivity. Qed.

Lemma append_cons c w t :
  String.append (String c w) t = String c (String.append w t).
Proof. reflexivity. Qed.

Lemma append_empty_r w : String.append w EmptyString = w.
Proof.
  induction w as [|c w IH]; [reflexivity|]. rewrite append_cons, IH.
  reflexivity.
Qed.

Lemma match_class_bounded_spec cls lo hi s :
  match_class_bounded cls lo hi s = true
  ↔ ∃ w t, s = String.append w t
           ∧ (lo ≤ String.length w ≤ hi)%nat
           ∧ forallb cls (String.list_ascii_of_string w) = true
           ∧ at_dollar t = true.
Proof.
  revert lo s. induction hi as [|hi IH]; intros lo s;
    rewrite match_class_bounded_unfold, orb_true_iff, andb_true_iff,
      Nat.eqb_eq.
  - split.
    + intros [[-> Hd]|Hf]; [|destruct s; discriminate].
      exists EmptyString, s. repeat split; auto.
    + intros (w & t & -> & [Hlo Hhi] & _ & Hd). left.
      destruct w; simpl in *; [split; [lia|exact Hd]|lia].
  - split.
    + intros [[-> Hd]|Hr].
      * exists EmptyString, s. repeat split; auto. simpl. lia.
      * destruct s as [|c s']; [discriminate|].
        apply andb_true_iff in Hr as [Hc Hr].
        apply IH in Hr as (w & t & -> & [Hlo Hhi] & Hall & Hd).
        exists (String c w), t. simpl. rewrite Hc, Hall.
        repeat split; auto; lia.
    + intros (w & t & -> & [Hlo Hhi] & Hall & Hd).
      destruct w as [|c w]; simpl in *.
      * left. rewrite append_empty_l. split; [lia|exact Hd].
      * right. apply andb_true_iff in Hall as [Hc Hall]. rewrite Hc. simpl.
        apply IH. exists w, t. repeat split; auto; lia.
Qed.

Lemma at_dollar_spec t :
  at_dollar t = true ↔ t = EmptyString ∨ t = String (Ascii.ascii_of_nat 10) "".
Proof.
  split.
  - destruct t as [|c [|c' t']]; simpl; try discriminate; [auto|].
    intros Hc. apply Nat.eqb_eq in Hc. right. f_equal.
    unfold code in Hc. rewrite <- Hc. symmetry. apply Ascii.ascii_nat_embedding.
  - intros [-> | ->]; reflexivity.
Qed.

(** X17.  [_validate_username] accepts the names of 4 to 20 letters,
    digits and underscores and, because of [$], such a name followed by one
    line feed; it accepts nothing else. *)
Lemma validate_username_spec name :
  _validate_username name = true
  ↔ username_well_formed name = true
    ∨ ∃ w, name = String.append w (String (Ascii.ascii_of_nat 10) "")
           ∧ username_well_formed w = true.
Proof.
  unfold _validate_username, username_well_formed.
  rewrite match_class_bounded_spec. split.
  - intros (w & t & -> & [Hlo Hhi] & Hall & Hd).
    assert ((4 <=? String.length w)%nat && (String.length w <=? 20)%nat
            && forallb is_username_char (String.list_ascii_of_string w) = true)
      as Hw.
    { rewrite Hall, andb_true_r. apply andb_true_iff.
      split; apply Nat.leb_le; assumption. }
    apply at_dollar_spec in Hd as [-> | ->].
    + left. rewrite append_empty_r. exact Hw.
    + right. eauto.
  - intros [Hw|(w & -> & Hw)];
      apply andb_true_iff in Hw as [Hlen Hall];
      apply andb_true_iff in Hlen as [Hlo Hhi];
      apply Nat.leb_le in Hlo, Hhi.
    + exists name, EmptyString. rewrite append_empty_r. repeat split; auto.
    + exists w, (String (Ascii.ascii_of_nat 10) ""). repeat split; auto.
Qed.

(** [create_user] raises exactly when one of its three tests fails, and
    then changes nothing; otherwise it returns [True] and the bank differs
    only by the new user and that user's empty owner list. *)
Lemma create_user_raises_iff h name password b :
  ((∃ e, create_user h name password b = (Raise e, b))
   ↔ _validate_username name = false ∨ _validate_password password = false
     ∨ is_Some (_users b !! name))
  ∧ ((∃ e b', create_user h name password b = (Raise e, b'))
     ∨ create_user h name password b
       = (Return true, registered h name password b)).
Proof.
  rewrite create_user_eq. unfold dict_has.
  destruct (_validate_username name), (_validate_password password),
    (_users b !! name) as [u|]; simpl; (split; [split|]); eauto;
    try (intros [[=]|[[=]|[? [=]]]]); try (intros [? [=]]).
Qed.

(** C7 (the code departs from the claim).  The five-character username
    made of "user" and a line feed is not 4 to 20 letters, digits and
    underscores, yet [_validate_username] accepts it, because [$] also
    matches just before a final newline; with a strong password and an empty
    bank [create_user] returns [True] and registers that name. *)
Theorem create_user_accepts_trailing_newline (h : string → string) :
  username_well_formed user_newline = false
  ∧ _validate_username user_newline = true
  ∧ _validate_password "Str0ng!Pass" = true
  ∧ create_user h user_newline "Str0ng!Pass" Bank_init
    = (Return true,
       mkBank ∅ (<[user_newline := mkUser user_newline (h "Str0ng!Pass")]> ∅)
              (<[user_newline := []]> ∅)).
Proof.
  repeat split; reflexivity.
Qed.

(** ** Opening accounts *)

(** The generator comes back as soon as one candidate is free, and with a
    free one. *)
Lemma generate_loop_returns fuel rng accounts c :
  c ∈ candidates_loop fuel rng → dict_has accounts c = false →
  ∃ n, generate_loop fuel rng accounts = Some n.
Proof.
  revert rng. induction fuel as [|fuel IH]; intros rng Hin Hfree; simpl in *.
  - inversion Hin.
  - destruct (draw_candidate rng) as [[n rng']|]; [|inversion Hin].
    destruct (dict_has accounts n) eqn:Hn; [|eauto].
    apply IH; [|exact Hfree].
    apply elem_of_cons in Hin as [->|Hin]; [congruence|exact Hin].
Qed.

Lemma generate_loop_free fuel rng (accounts : gmap string Account) n :
  generate_loop fuel rng accounts = Some n → accounts !! n = None.
Proof.
  revert rng. induction fuel as [|fuel IH]; intros rng; simpl; [discriminate|].
  destruct (draw_candidate rng) as [[c rng']|]; [|discriminate].
  destruct (dict_has accounts c) eqn:Hc; [apply IH|].
  intros [= <-]. unfold dict_has in Hc.
  destruct (accounts !! c); [discriminate|reflexivity].
Qed.

Lemma open_account_with_eq n user holder ty b :
  open_account_with n user holder ty b =
    let b1 := set_accounts (<[n := new_account n holder ty]>) b in
    match _account_holders b !! user with
    | None => (Raise (KeyError user), b1)
    | Some owned =>
        (Return n,
         mkBank (_accounts b1) (_users b1)
           (<[user := owned ++ [n]]> (_account_holders b1)))
    end.
Proof.
  unfold open_account_with, new_account.
  set (b1 := set_accounts _ b).
  rewrite (bind_return _ _ b tt b1) by reflexivity.
  rewrite (bind_return _ _ b1 b1 b1) by reflexivity.
  change (_account_holders b1) with (_account_holders b).
  destruct (_account_holders b !! user); reflexivity.
Qed.

(** *** The states a bank goes through *)

Lemma accounts_extended_consistent b b' :
  accounts_extended b b' → registry_consistent b → registry_consistent b'.
Proof.
  intros (Hu & Hh & Ha) [H1 H2]. split.
  - intros u. rewrite Hu, Hh. apply H1.
  - intros u owned n. rewrite Hh. intros Ho Hn. eapply Ha, H2; eauto.
Qed.

Lemma accounts_extended_refl b : accounts_extended b b.
Proof. repeat split; auto. Qed.

Lemma on_account_extended {A} k (m : M Account A) b r b' :
  on_account k m b = (r, b') → accounts_extended b b'.
Proof.
  unfold on_account. destruct (_accounts b !! k) as [a|] eqn:Hk.
  - destruct (m a) as [r' a']. intros [= _ <-]. repeat split; try reflexivity.
    intros n. simpl. rewrite lookup_insert. case_decide; eauto.
  - intros [= _ <-]. apply accounts_extended_refl.
Qed.

Lemma update_account_extended k f b : accounts_extended b (update_account k f b).
Proof.
  repeat split; try reflexivity. intros n. rewrite update_account_lookup.
  case_decide; [|auto]. intros [a ->]. simpl. eauto.
Qed.

Lemma accounts_extended_trans b1 b2 b3 :
  accounts_extended b1 b2 → accounts_extended b2 b3 → accounts_extended b1 b3.
Proof.
  intros (Hu & Hh & Ha) (Hu' & Hh' & Ha'). repeat split; try congruence. auto.
Qed.

Lemma transfer_extended now s t amount b r b' :
  transfer now s t amount b = (r, b') → accounts_extended b b'.
Proof.
  rewrite transfer_eq.
  repeat match goal with
         | |- context [if ?c then _ else _] => destruct c
         | |- context [match ?o with Some _ => _ | None => _ end] => destruct o
         | |- context [let (_, _) := ?p in _] => destruct p as [[?|?] ?]
         end; intros [= _ <-]; try apply accounts_extended_refl.
  unfold transferred.
  repeat (eapply accounts_extended_trans; [|apply update_account_extended]).
  apply accounts_extended_refl.
Qed.

Lemma reachable_consistent b : reachable b → registry_consistent b.
Proof.
  induction 1 as [|h name password b r b' _ IH Hrun
                  |rng user holder ty b r b' _ IH Hrun
                  |now s t amount b r b' _ IH Hrun
                  |k now amount b r b' _ IH Hrun
                  |k now amount b r b' _ IH Hrun
                  |k now b r b' _ IH Hrun
                  |k b r b' _ IH Hrun];
    try (eapply accounts_extended_consistent;
         [eapply on_account_extended, Hrun | exact IH]).
  - split; [intros u|intros u owned n]; simpl.
    + rewrite !lookup_empty. split; intros [? ?]; discriminate.
    + rewrite lookup_empty. discriminate.
  - rewrite create_user_eq in Hrun.
    repeat match type of Hrun with
           | context [if ?c then _ else _] => destruct c
           end; injection Hrun as _ <-; try exact IH.
    destruct IH as [H1 H2]. split; simpl.
    + intros u. rewrite !lookup_insert. case_decide; [|apply H1].
      split; eauto.
    + intros u owned n. rewrite lookup_insert. case_decide.
      * intros [= <-] Hn. inversion Hn.
      * apply H2.
  - unfold open_account in Hrun.
    destruct (negb (_validate_name holder)); [injection Hrun as _ <-; exact IH|].
    destruct (_generate_account_number rng b) as [n|]; [|discriminate].
    rewrite open_account_with_eq in Hrun. simpl in Hrun.
    destruct IH as [H1 H2].
    destruct (_account_holders b !! user) as [owned|] eqn:Hown;
      injection Hrun as _ <-; split; simpl.
    + intros u. rewrite lookup_insert. case_decide as Hu; [|apply H1].
      subst u. rewrite H1, Hown. split; eauto.
    + intros u l m. rewrite !lookup_insert. case_decide as Hu.
      * subst u. intros [= <-] Hm. case_decide; [eauto|].
        apply elem_of_app in Hm as [Hm|Hm]; [eapply H2; eauto|].
        apply list_elem_of_singleton in Hm. congruence.
      * intros Hl Hm. case_decide; [eauto|]. eapply H2; eauto.
    + exact H1.
    + intros u l m Hl Hm. rewrite lookup_insert. case_decide; [eauto|].
      eapply H2; eauto.
  - eapply accounts_extended_consistent; [eapply transfer_extended, Hrun|].
    exact IH.
Qed.

(** C10.  In any state the bank can be in, when the username is not
    registered, the holder name is valid and the draws hold a free
    candidate (so that the generator comes back), [open_account] raises
    [KeyError] on the username, which is not a [BankingError]; the bank it
    leaves is the old one plus the new account stored under its fresh
    number, and that number is in no user's owner list. *)
Theorem open_account_unregistered_user rng user holder ty b c :
  reachable b →
  _users b !! user = None →
  _validate_name holder = true →
  c ∈ candidates rng → get_account b c = None →
  ∃ n,
    open_account rng user holder ty b
    = Some (Raise (KeyError user),
            set_accounts (<[n := new_account n holder ty]>) b)
    ∧ (∀ msg, KeyError user ≠ BankingError msg)
    ∧ get_account b n = None
    ∧ get_account (set_accounts (<[n := new_account n holder ty]>) b) n
      = Some (new_account n holder ty)
    ∧ ∀ u, n ∉ get_user_accounts
                 (set_accounts (<[n := new_account n holder ty]>) b) u.
Proof.
  intros Hreach Huser Hname Hc Hfree.
  destruct (reachable_consistent b Hreach) as [H1 H2].
  destruct (generate_loop_returns (length rng) rng (_accounts b) c Hc)
    as [n Hgen].
  { unfold dict_has. unfold get_account in Hfree. rewrite Hfree. reflexivity. }
  pose proof (generate_loop_free _ _ _ _ Hgen) as Hn.
  assert (_account_holders b !! user = None) as Hnone.
  { apply eq_None_not_Some. rewrite <- H1, Huser. intros [? ?]; discriminate. }
  exists n. split; [|split; [|split; [|split]]].
  - unfold open_account, _generate_account_number.
    rewrite Hname, Hgen. simpl. rewrite open_account_with_eq, Hnone.
    reflexivity.
  - discriminate.
  - exact Hn.
  - unfold get_account. simpl. apply lookup_insert_eq.
  - intros u Hin. unfold get_user_accounts in Hin. simpl in Hin.
    destruct (_account_holders b !! u) as [owned|] eqn:Hown; simpl in Hin.
    + destruct (H2 u owned n Hown Hin) as [a Ha]. congruence.
    + inversion Hin.
Qed.

Lemma open_account_unregistered_user_witness :
  ∃ n,
    open_account [0; 0; 0; 0; 0; 0; 0; 0; 0; 7]%nat "ghost" "Alice Smith"
      SAVINGS Bank_init
    = Some (Raise (KeyError "ghost"),
            set_accounts (<[n := new_account n "Alice Smith" SAVINGS]>)
              Bank_init)
    ∧ (∀ msg, KeyError "ghost" ≠ BankingError msg)
    ∧ get_account Bank_init n = None
    ∧ get_account
        (set_accounts (<[n := new_account n "Alice Smith" SAVINGS]>) Bank_init)
        n
      = Some (new_account n "Alice Smith" SAVINGS)
    ∧ ∀ u, n ∉ get_user_accounts
                 (set_accounts (<[n := new_account n "Alice Smith" SAVINGS]>)
                    Bank_init) u.
Proof.
  apply (open_account_unregistered_user
           [0; 0; 0; 0; 0; 0; 0; 0; 0; 7]%nat "ghost" "Alice Smith" SAVINGS
           Bank_init "0000000007").
  - apply reach_init.
  - reflexivity.
  - reflexivity.
  - vm_compute. apply list_elem_of_here.
  - reflexivity.
Defined.

(** The orphan is there for good: the account a failed [open_account] left
    behind can be looked up and used like any other. *)
Example open_account_orphan :
  open_account [0; 0; 0; 0; 0; 0; 0; 0; 0; 7]%nat "ghost" "Alice Smith"
    CURRENT Bank_init
  = Some (Raise (KeyError "ghost"),
          mkBank (<["0000000007" :=
                     CurrentAccount_init "0000000007" "Alice Smith"]> ∅) ∅ ∅).
Proof. vm_compute. reflexivity. Qed.

(** * Further properties of the code *)

(** ** Deposits and withdrawals *)

Lemma withdraw_return_conditions now amount a :
  (∃ r a', withdraw now amount a = (Return r, a'))
  ↔ _is_active a = true ∧ 0 < amount
    ∧ match _account_type a with
      | SAVINGS => MINIMUM_BALANCE <= _balance a - amount
      | CURRENT => amount <= _balance a
      end.
Proof.
  rewrite withdraw_eq, Account_withdraw_eq. unfold Qgtb.
  destruct (_account_type a).
  + destruct (Qltb (_balance a - amount) MINIMUM_BALANCE) eqn:Hmin;
      [apply Qltb_true in Hmin|apply Qltb_false in Hmin];
      unfold MINIMUM_BALANCE in *.
    { split; [intros (? & ? & [=])|]. intros (_ & _ & Hge). lra. }
    destruct (_is_active a); simpl;
      [|split; [intros (? & ? & [=])|intros ([=] & _)]].
    destruct (Qleb amount 0) eqn:Hpos;
      [apply Qleb_true in Hpos|apply Qleb_false in Hpos].
    { split; [intros (? & ? & [=])|]. intros (_ & Hlt & _). lra. }
    destruct (Qltb (_balance a) amount) eqn:Hgt;
      [apply Qltb_true in Hgt; lra|].
    split; [auto|eauto].
  + destruct (Qltb (_balance a - amount) (- OVERDRAFT_LIMIT)) eqn:Hov;
      [apply Qltb_true in Hov|apply Qltb_false in Hov];
      unfold OVERDRAFT_LIMIT in *.
    { split; [intros (? & ? & [=])|]. intros (_ & _ & Hle). lra. }
    destruct (_is_active a); simpl;
      [|split; [intros (? & ? & [=])|intros ([=] & _)]].
    destruct (Qleb amount 0) eqn:Hpos;
      [apply Qleb_true in Hpos|apply Qleb_false in Hpos].
    { split; [intros (? & ? & [=])|]. intros (_ & Hlt & _). lra. }
    destruct (Qltb (_balance a) amount) eqn:Hgt;
      [apply Qltb_true in Hgt|apply Qltb_false in Hgt].
    { split; [intros (? & ? & [=])|]. intros (_ & _ & Hle). lra. }
    split; [auto|eauto].
Qed.

(** X3.  Deactivating an account with [toggle_account_status] keeps its
    balance and log and makes every [deposit] and [withdraw] raise without
    effect; [calculate_interest] does not look at the status, so a
    deactivated Savings account called directly is still credited; a second
    toggle gives the account back as it was. *)
Theorem deactivated_account now amount a :
  _is_active a = true →
  let a1 := snd (toggle_account_status a) in
  _is_active a1 = false
  ∧ _balance a1 = _balance a ∧ _transactions a1 = _transactions a
  ∧ (∃ e, deposit now amount a1 = (Raise e, a1))
  ∧ (∃ e, withdraw now amount a1 = (Raise e, a1))
  ∧ (_account_type a = SAVINGS →
     ∃ a2, calculate_interest now a1
           = (Return (_balance a * INTEREST_RATE / 12), a2)
           ∧ _balance a2 = _balance a + _balance a * INTEREST_RATE / 12
           ∧ _is_active a2 = false)
  ∧ snd (toggle_account_status a1) = a.
Proof.
  intros Hact. destruct a as [n h bal log ty act]. simpl in Hact. subst act.
  simpl. repeat split.
  - rewrite deposit_eq. simpl. eauto.
  - rewrite withdraw_eq, Account_withdraw_eq. simpl.
    destruct ty; match goal with
                 | |- context [if ?c then _ else _] => destruct c
                 end; eauto.
  - intros ->. rewrite calculate_interest_eq. simpl. eauto.
Qed.

Lemma deactivated_account_witness :
  let a1 := snd (toggle_account_status savings_1500) in
  _is_active a1 = false
  ∧ _balance a1 = _balance savings_1500
  ∧ _transactions a1 = _transactions savings_1500
  ∧ (∃ e, deposit "t" 10 a1 = (Raise e, a1))
  ∧ (∃ e, withdraw "t" 10 a1 = (Raise e, a1))
  ∧ (_account_type savings_1500 = SAVINGS →
     ∃ a2, calculate_interest "t" a1
           = (Return (_balance savings_1500 * INTEREST_RATE / 12), a2)
           ∧ _balance a2
             = _balance savings_1500
               + _balance savings_1500 * INTEREST_RATE / 12
           ∧ _is_active a2 = false)
  ∧ snd (toggle_account_status a1) = savings_1500.
Proof. apply (deactivated_account "t" 10 savings_1500). reflexivity. Defined.

(** ** Invariants of the stored accounts *)

Lemma update_account_sound k f b :
  (∀ a, _accounts b !! k = Some a → account_sound k a → account_sound k (f a)) →
  accounts_sound b → accounts_sound (update_account k f b).
Proof.
  intros Hf Hb i a. rewrite update_account_lookup. case_decide as Hki.
  - subst i. destruct (_accounts b !! k) as [a0|] eqn:Hk; [|discriminate].
    intros [= <-]. apply Hf; [reflexivity|]. apply Hb, Hk.
  - apply Hb.
Qed.

Lemma on_account_sound {A} k (m : M Account A) b r b' :
  (∀ a ra a', m a = (ra, a') → account_sound k a → account_sound k a') →
  on_account k m b = (r, b') → accounts_sound b → accounts_sound b'.
Proof.
  intros Hm Hrun Hb. unfold on_account in Hrun.
  destruct (_accounts b !! k) as [a|] eqn:Hk.
  - destruct (m a) as [ra a'] eqn:Hma. injection Hrun as _ <-.
    intros i x. simpl. rewrite lookup_insert. case_decide as Hki.
    + subst i. intros [= <-]. eapply Hm; [exact Hma|]. apply Hb, Hk.
    + apply Hb.
  - injection Hrun as _ <-. exact Hb.
Qed.

Lemma deposit_sound k now amount a r a' :
  deposit now amount a = (r, a') → account_sound k a → account_sound k a'.
Proof.
  rewrite deposit_eq. intros Hrun [Hn Hb].
  destruct (negb (_is_active a)); [injection Hrun as _ <-; split; auto|].
  destruct (Qleb amount 0) eqn:Hpos; injection Hrun as _ <-; [split; auto|].
  apply Qleb_false in Hpos. split; [exact Hn|]. simpl. lra.
Qed.

Lemma withdrawn_sound k now amount a r a' :
  withdraw now amount a = (Return r, a') → account_sound k a →
  0 < amount ∧ account_sound k (withdrawn now amount a).
Proof.
  intros Hrun [Hn Hb].
  assert (∃ r a', withdraw now amount a = (Return r, a')) as Hex by eauto.
  apply (proj1 (withdraw_return_conditions now amount a)) in Hex
    as (_ & Hpos & Hpol).
  split; [exact Hpos|]. split; [exact Hn|]. simpl.
  destruct (_account_type a); unfold MINIMUM_BALANCE in *; lra.
Qed.

Lemma withdraw_sound k now amount a r a' :
  withdraw now amount a = (r, a') → account_sound k a → account_sound k a'.
Proof.
  intros Hrun Ha.
  destruct (withdraw_cases now amount a) as [[e He]|Hw].
  - rewrite He in Hrun. injection Hrun as _ <-. exact Ha.
  - pose proof (withdrawn_sound _ _ _ _ _ _ Hw Ha) as [_ Hs].
    rewrite Hw in Hrun. injection Hrun as _ <-. exact Hs.
Qed.

Lemma calculate_interest_sound k now a r a' :
  calculate_interest now a = (r, a') → account_sound k a → account_sound k a'.
Proof.
  rewrite calculate_interest_eq. intros Hrun [Hn Hb].
  destruct (_account_type a); injection Hrun as _ <-; split; auto.
  simpl. unfold INTEREST_RATE.
  assert (0 <= _balance a * 0.045 / 12)
    by (apply Qle_shift_div_l; [reflexivity|lra]).
  lra.
Qed.

Lemma transfer_sound now s t amount b r b' :
  transfer now s t amount b = (r, b') → accounts_sound b → accounts_sound b'.
Proof.
  rewrite transfer_eq. intros Hrun Hb.
  destruct (Qleb amount 0) eqn:Hpos; [injection Hrun as _ <-; exact Hb|].
  destruct (_accounts b !! s) as [sender|] eqn:Hs;
    [|injection Hrun as _ <-; exact Hb].
  destruct (_accounts b !! t) as [receiver|] eqn:Ht;
    [|injection Hrun as _ <-; exact Hb].
  destruct (_ || _); [injection Hrun as _ <-; exact Hb|].
  destruct (withdraw (now 0%nat) amount sender) as [[v|e] a1] eqn:Hw;
    injection Hrun as _ <-; [|exact Hb].
  apply Qleb_false in Hpos. unfold transferred.
  repeat apply update_account_sound; try exact Hb.
  - intros a _ [Hn Hbal]. split; auto.
  - intros a _ [Hn Hbal]. split; auto.
  - intros a _ [Hn Hbal]. split; [exact Hn|]. simpl. lra.
  - intros a Ha Hsound. rewrite Hs in Ha. injection Ha as <-.
    apply (withdrawn_sound _ _ _ _ _ _ Hw Hsound).
Qed.

Lemma generated_number_free rng b n :
  _generate_account_number rng b = Some n → _accounts b !! n = None.
Proof. apply generate_loop_free. Qed.

Lemma accounts_sound_of_reachable b : reachable b → accounts_sound b.
Proof.
  induction 1 as [|h name password b r b' _ IH Hrun
                  |rng user holder ty b r b' _ IH Hrun
                  |now s t amount b r b' _ IH Hrun
                  |k now amount b r b' _ IH Hrun
                  |k now amount b r b' _ IH Hrun
                  |k now b r b' _ IH Hrun
                  |k b r b' _ IH Hrun].
  - intros k a. simpl. rewrite lookup_empty. discriminate.
  - rewrite create_user_eq in Hrun.
    repeat match type of Hrun with
           | context [if ?c then _ else _] => destruct c
           end; injection Hrun as _ <-; exact IH.
  - unfold open_account in Hrun.
    destruct (negb (_validate_name holder)); [injection Hrun as _ <-; exact IH|].
    destruct (_generate_account_number rng b) as [n|]; [|discriminate].
    rewrite open_account_with_eq in Hrun. simpl in Hrun.
    assert (accounts_sound (set_accounts (<[n := new_account n holder ty]>) b))
      as Hnew.
    { intros k a. simpl. rewrite lookup_insert. case_decide as Hk.
      - subst k. intros [= <-]. destruct ty; split; simpl; auto; discriminate.
      - apply IH. }
    destruct (_account_holders b !! user); injection Hrun as _ <-; exact Hnew.
  - eapply transfer_sound; eauto.
  - eapply on_account_sound; [|exact Hrun|exact IH].
    intros a ra a'. apply deposit_sound.
  - eapply on_account_sound; [|exact Hrun|exact IH].
    intros a ra a'. apply withdraw_sound.
  - eapply on_account_sound; [|exact Hrun|exact IH].
    intros a ra a'. apply calculate_interest_sound.
  - eapply on_account_sound; [|exact Hrun|exact IH].
    intros a ra a' [= _ <-] [Hn Hb]. split; auto.
Qed.

(** X4.  In every state the bank can reach, through calls that return and
    calls that raise, each stored account sits under its own account
    number: the key of the account mapping and the number the account
    carries never part. *)
Theorem reachable_account_under_its_number b k a :
  reachable b → get_account b k = Some a → _account_number a = k.
Proof.
  intros Hreach Hk. apply (accounts_sound_of_reachable b Hreach k a Hk).
Qed.

Lemma reachable_account_under_its_number_witness :
  _account_number (CurrentAccount_init "0000000007" "Alice Smith")
  = "0000000007".
Proof.
  apply (reachable_account_under_its_number orphan_bank "0000000007").
  - apply (reach_open_account [0; 0; 0; 0; 0; 0; 0; 0; 0; 7]%nat "ghost"
             "Alice Smith" CURRENT Bank_init (Raise (KeyError "ghost"))).
    + apply reach_init.
    + vm_compute. reflexivity.
  - vm_compute. reflexivity.
Defined.

(** ** Opening an account for a registered user *)

(** X5.  When the username has an owner list, the holder name is valid and
    the draws hold a free candidate, [open_account] returns a number that
    was not in use; afterwards that number looks up to a fresh account of
    the requested variant (balance 0, empty log, active), it is the last
    entry of the user's owner list, and every other account, every other
    owner list and the users are as before. *)
Theorem open_account_registers rng user holder ty b owned c :
  _account_holders b !! user = Some owned →
  _validate_name holder = true →
  c ∈ candidates rng → get_account b c = None →
  ∃ n b',
    open_account rng user holder ty b = Some (Return n, b')
    ∧ get_account b n = None
    ∧ get_account b' n = Some (mkAccount n holder 0 [] ty true)
    ∧ get_user_accounts b' user = owned ++ [n]
    ∧ (∀ k, k ≠ n → get_account b' k = get_account b k)
    ∧ (∀ u, u ≠ user → get_user_accounts b' u = get_user_accounts b u)
    ∧ _users b' = _users b.
Proof.
  intros Hown Hname Hc Hfree.
  destruct (generate_loop_returns (length rng) rng (_accounts b) c Hc)
    as [n Hgen].
  { unfold dict_has. unfold get_account in Hfree. rewrite Hfree. reflexivity. }
  pose proof (generate_loop_free _ _ _ _ Hgen) as Hn.
  eexists n, _. split; [|split; [|split; [|split; [|split; [|split]]]]].
  - unfold open_account, _generate_account_number.
    rewrite Hname, Hgen. simpl. rewrite open_account_with_eq, Hown.
    reflexivity.
  - exact Hn.
  - unfold get_account. simpl. rewrite lookup_insert_eq.
    destruct ty; reflexivity.
  - unfold get_user_accounts. simpl. rewrite lookup_insert_eq. reflexivity.
  - intros k Hk. unfold get_account. simpl. apply lookup_insert_ne. auto.
  - intros u Hu. unfold get_user_accounts. simpl.
    rewrite lookup_insert_ne by auto. reflexivity.
  - reflexivity.
Qed.

Lemma open_account_registers_witness :
  ∃ n b',
    open_account [0; 0; 0; 0; 0; 0; 0; 0; 0; 1; 0; 0; 0; 0; 0; 0; 0; 0; 0; 3]%nat
      "alice_01" "Bob Ray" CURRENT (example_bank SAVINGS SAVINGS)
    = Some (Return n, b')
    ∧ get_account (example_bank SAVINGS SAVINGS) n = None
    ∧ get_account b' n = Some (mkAccount n "Bob Ray" 0 [] CURRENT true)
    ∧ get_user_accounts b' "alice_01"
      = ["0000000001"; "0000000002"] ++ [n]
    ∧ (∀ k, k ≠ n →
         get_account b' k = get_account (example_bank SAVINGS SAVINGS) k)
    ∧ (∀ u, u ≠ "alice_01" →
         get_user_accounts b' u
         = get_user_accounts (example_bank SAVINGS SAVINGS) u)
    ∧ _users b' = _users (example_bank SAVINGS SAVINGS).
Proof.
  apply (open_account_registers _ "alice_01" "Bob Ray" CURRENT
           (example_bank SAVINGS SAVINGS) ["0000000001"; "0000000002"]
           "0000000003").
  - vm_compute. reflexivity.
  - reflexivity.
  - vm_compute. apply list_elem_of_further, list_elem_of_here.
  - vm_compute. reflexivity.
Defined.

(** The generator skipped the first candidate of those draws, which was
    taken. *)
Example open_account_skips_taken_number :
  fst <$> open_account
            [0; 0; 0; 0; 0; 0; 0; 0; 0; 1; 0; 0; 0; 0; 0; 0; 0; 0; 0; 3]%nat
            "alice_01" "Bob Ray" CURRENT (example_bank SAVINGS SAVINGS)
  = Some (Return "0000000003").
Proof. vm_compute. reflexivity. Qed.

(** ** Account numbers are never handed out twice *)

Lemma owner_lists_unique_same_holders b b' :
  _account_holders b' = _account_holders b →
  owner_lists_unique b → owner_lists_unique b'.
Proof.
  intros Hh [H1 H2]. unfold owner_lists_unique, get_user_accounts in *.
  rewrite Hh. auto.
Qed.

Lemma reachable_owner_lists_unique b : reachable b → owner_lists_unique b.
Proof.
  induction 1 as [|h name password b r b' Hreach IH Hrun
                  |rng user holder ty b r b' Hreach IH Hrun
                  |now s t amount b r b' _ IH Hrun
                  |k now amount b r b' _ IH Hrun
                  |k now amount b r b' _ IH Hrun
                  |k now b r b' _ IH Hrun
                  |k b r b' _ IH Hrun];
    try (eapply owner_lists_unique_same_holders; [|exact IH];
         eapply on_account_extended, Hrun).
  - split; [intros u|intros u1 u2 n _]; unfold get_user_accounts; simpl;
      rewrite lookup_empty; simpl; [constructor|inversion 1].
  - rewrite create_user_eq in Hrun.
    repeat match type of Hrun with
           | context [if ?c then _ else _] => destruct c
           end; injection Hrun as _ <-; try exact IH.
    destruct IH as [H1 H2]. unfold owner_lists_unique, get_user_accounts in *.
    simpl. split.
    + intros u. rewrite lookup_insert. case_decide; [constructor|apply H1].
    + intros u1 u2 n Hne. rewrite !lookup_insert.
      repeat case_decide; simpl; subst.
      * inversion 1.
      * inversion 1.
      * intros _ Hin. inversion Hin.
      * apply H2, Hne.
  - unfold open_account in Hrun.
    destruct (negb (_validate_name holder)); [injection Hrun as _ <-; exact IH|].
    destruct (_generate_account_number rng b) as [n|] eqn:Hgen; [|discriminate].
    rewrite open_account_with_eq in Hrun. simpl in Hrun.
    pose proof (generated_number_free _ _ _ Hgen) as Hfree.
    destruct (reachable_consistent b Hreach) as [_ Hkeys].
    assert (∀ u, n ∉ get_user_accounts b u) as Hnew.
    { intros u Hin. unfold get_user_accounts in Hin.
      destruct (_account_holders b !! u) as [o|] eqn:Ho; simpl in Hin.
      - destruct (Hkeys u o n Ho Hin) as [a Ha]. congruence.
      - inversion Hin. }
    destruct (_account_holders b !! user) as [owned|] eqn:Hown;
      injection Hrun as _ <-;
      [|eapply owner_lists_unique_same_holders; [|exact IH]; reflexivity].
    destruct IH as [H1 H2].
    assert (get_user_accounts b user = owned) as Huser
      by (unfold get_user_accounts; rewrite Hown; reflexivity).
    assert (∀ u, get_user_accounts
                   (mkBank (<[n := new_account n holder ty]> (_accounts b))
                      (_users b)
                      (<[user := owned ++ [n]]> (_account_holders b))) u
                 = if decide (user = u) then owned ++ [n]
                   else get_user_accounts b u) as Hget.
    { intros u. unfold get_user_accounts. simpl. rewrite lookup_insert.
      case_decide; reflexivity. }
    split.
    + intros u. rewrite Hget. case_decide; [|apply H1].
      apply NoDup_app. split; [rewrite <- Huser; apply H1|].
      split; [|apply NoDup_singleton].
      intros x Hx Hx'. apply list_elem_of_singleton in Hx'. subst x.
      apply (Hnew user). rewrite Huser. exact Hx.
    + intros u1 u2 x Hne. rewrite !Hget.
      destruct (decide (user = u1)) as [<-|Hu1],
               (decide (user = u2)) as [<-|Hu2].
      * congruence.
      * intros Hx Hx2. apply elem_of_app in Hx as [Hx|Hx].
        -- rewrite <- Huser in Hx. exact (H2 _ _ _ Hne Hx Hx2).
        -- apply list_elem_of_singleton in Hx. subst x. exact (Hnew _ Hx2).
      * intros Hx Hx2. apply elem_of_app in Hx2 as [Hx2|Hx2].
        -- rewrite <- Huser in Hx2. exact (H2 _ _ _ Hne Hx Hx2).
        -- apply list_elem_of_singleton in Hx2. subst x. exact (Hnew _ Hx).
      * apply H2, Hne.
  - eapply owner_lists_unique_same_holders; [|exact IH].
    eapply transfer_extended, Hrun.
Qed.

(** X6.  In every state the bank can reach, the owner lists hold each
    account number at most once, no number is in the lists of two users,
    and every owned number looks up to an account stored under it. *)
Theorem reachable_numbers_unique b :
  reachable b →
  (∀ u, NoDup (get_user_accounts b u))
  ∧ (∀ u1 u2 n, u1 ≠ u2 → n ∈ get_user_accounts b u1 →
       n ∉ get_user_accounts b u2)
  ∧ (∀ u n, n ∈ get_user_accounts b u →
       ∃ a, get_account b n = Some a ∧ _account_number a = n).
Proof.
  intros Hreach.
  destruct (reachable_owner_lists_unique b Hreach) as [H1 H2].
  split; [exact H1|]. split; [exact H2|].
  intros u n Hin. destruct (reachable_consistent b Hreach) as [_ Hkeys].
  unfold get_user_accounts in Hin.
  destruct (_account_holders b !! u) as [o|] eqn:Ho; simpl in Hin;
    [|inversion Hin].
  destruct (Hkeys u o n Ho Hin) as [a Ha]. exists a. split; [exact Ha|].
  apply (accounts_sound_of_reachable b Hreach n a Ha).
Qed.

Lemma reachable_after_open_account rng user holder ty b :
  reachable b → reachable (after_open_account rng user holder ty b).
Proof.
  intros Hb. unfold after_open_account.
  destruct (open_account rng user holder ty b) as [[r b']|] eqn:Hrun;
    [|exact Hb].
  eapply reach_open_account; eauto.
Qed.

Lemma example_bank_reachable ty1 ty2 : reachable (example_bank ty1 ty2).
Proof.
  unfold example_bank.
  eapply reach_deposit; [|apply surjective_pairing].
  eapply reach_deposit; [|apply surjective_pairing].
  do 2 apply reachable_after_open_account.
  eapply reach_create_user; [apply reach_init|apply surjective_pairing].
Qed.

Lemma reachable_numbers_unique_witness :
  let b := example_bank SAVINGS CURRENT in
  (∀ u, NoDup (get_user_accounts b u))
  ∧ (∀ u1 u2 n, u1 ≠ u2 → n ∈ get_user_accounts b u1 →
       n ∉ get_user_accounts b u2)
  ∧ (∀ u n, n ∈ get_user_accounts b u →
       ∃ a, get_account b n = Some a ∧ _account_number a = n).
Proof.
  apply (reachable_numbers_unique (example_bank SAVINGS CURRENT)).
  apply example_bank_reachable.
Defined.

(** ** The shape of generated account numbers *)

Lemma pretty_digit (d : nat) :
  (d < 10)%nat → ∃ c, pretty d = String c EmptyString ∧ is_digit c = true.
Proof.
  intros Hd.
  do 10 (destruct d as [|d]; [eexists; split; reflexivity|]). lia.
Qed.

Lemma concat_digits (ds : list nat) :
  Forall (λ d, (d < 10)%nat) ds →
  String.length (String.concat "" (pretty <$> ds)) = length ds
  ∧ forallb is_digit
      (String.list_ascii_of_string (String.concat "" (pretty <$> ds))) = true.
Proof.
  induction 1 as [|d ds Hd _ [IHlen IHall]]; [split; reflexivity|].
  destruct (pretty_digit d Hd) as (c & Hc & Hdig).
  assert (String.concat "" (pretty <$> d :: ds)
          = String c (String.concat "" (pretty <$> ds))) as ->.
  { rewrite fmap_cons, Hc. destruct ds; reflexivity. }
  simpl. rewrite IHlen, Hdig, IHall. split; reflexivity.
Qed.

(** X7.  When every draw is a digit (as [random.randint(0, 9)] gives them),
    a number the generator returns is made of exactly ten decimal digits
    and is not a key of the account mapping. *)
Theorem generated_number_format rng b n :
  Forall (λ d, (d < 10)%nat) rng →
  _generate_account_number rng b = Some n →
  String.length n = 10%nat
  ∧ forallb is_digit (String.list_ascii_of_string n) = true
  ∧ get_account b n = None.
Proof.
  intros Hrng Hgen.
  split; [|split; [|exact (generated_number_free _ _ _ Hgen)]];
    unfold _generate_account_number in Hgen;
    revert Hrng Hgen; generalize (length rng) as fuel; intros fuel;
    revert rng; induction fuel as [|fuel IH]; intros rng Hrng; simpl;
    try discriminate;
    unfold draw_candidate; destruct (length rng <? 10)%nat eqn:Hlen;
    try discriminate; apply Nat.ltb_ge in Hlen;
    (destruct (dict_has (_accounts b) _);
     [apply IH, Forall_drop, Hrng|]);
    intros [= <-];
    destruct (concat_digits (take 10 rng)) as [H1 H2];
    try (apply Forall_take, Hrng); try exact H2.
  rewrite H1, length_take. lia.
Qed.

Lemma generated_number_format_witness :
  String.length "0000000003" = 10%nat
  ∧ forallb is_digit (String.list_ascii_of_string "0000000003") = true
  ∧ get_account (example_bank SAVINGS SAVINGS) "0000000003" = None.
Proof.
  apply (generated_number_format
           [0; 0; 0; 0; 0; 0; 0; 0; 0; 1; 0; 0; 0; 0; 0; 0; 0; 0; 0; 3]%nat
           (example_bank SAVINGS SAVINGS) "0000000003").
  - repeat constructor.
  - vm_compute. reflexivity.
Defined.

(** ** Reporting *)

(** Rational addition reorders on the nose, not merely up to [==]: the sum
    of the balances does not depend on the order in which the dictionary is
    walked. *)
Lemma Qplus_swap (s x y : Q) : s + x + y = s + y + x.
Proof.
  destruct s as [sn sd], x as [xn xd], y as [yn yd]. unfold Qplus. simpl.
  f_equal; [|lia].
  rewrite !Pos2Z.inj_mul. ring.
Qed.

Lemma total_deposit_insert (m : gmap string Account) k a :
  m !! k = None →
  map_fold (λ _ account total, total + get_balance account) 0 (<[k := a]> m)
  = map_fold (λ _ account total, total + get_balance account) 0 m
    + get_balance a.
Proof.
  intros Hk. apply (map_fold_insert_L (λ _ account total, total + get_balance account));
    [|exact Hk].
  intros. apply Qplus_swap.
Qed.

Lemma count_accounts_insert cond (m : gmap string Account) k a :
  m !! k = None →
  count_accounts cond (<[k := a]> m)
  = (if cond a then count_accounts cond m + 1 else count_accounts cond m)%Z.
Proof.
  intros Hk. unfold count_accounts.
  apply (map_fold_insert_L (λ _ acc n, if cond acc then (n + 1)%Z else n));
    [|exact Hk].
  intros j1 j2 z1 z2 y _ _ _. destruct (cond z1), (cond z2); lia.
Qed.

Lemma count_accounts_lookup cond (m : gmap string Account) k a :
  m !! k = Some a →
  count_accounts cond m
  = (if cond a then count_accounts cond (delete k m) + 1
     else count_accounts cond (delete k m))%Z.
Proof.
  intros Hk. unfold count_accounts.
  apply (map_fold_delete_L (λ _ acc n, if cond acc then (n + 1)%Z else n));
    [|exact Hk].
  intros j1 j2 z1 z2 y _ _ _. destruct (cond z1), (cond z2); lia.
Qed.

Lemma count_accounts_split cond (m : gmap string Account) :
  (count_accounts cond m + count_accounts (λ a, negb (cond a)) m
   = Z.of_nat (size m))%Z
  ∧ (0 ≤ count_accounts cond m)%Z.
Proof.
  induction m as [|k a m Hk IH] using map_ind.
  - unfold count_accounts. rewrite !map_fold_empty, map_size_empty. lia.
  - rewrite !count_accounts_insert, map_size_insert_None by exact Hk.
    destruct (cond a); simpl; lia.
Qed.

Lemma count_accounts_ext cond1 cond2 (m : gmap string Account) :
  (∀ a, cond1 a = cond2 a) → count_accounts cond1 m = count_accounts cond2 m.
Proof.
  intros Hext. induction m as [|k a m Hk IH] using map_ind; [reflexivity|].
  rewrite !count_accounts_insert, IH, Hext by exact Hk. reflexivity.
Qed.

(** X8.  The counts of [admin_get_account_stats] fit together: Savings and
    Current accounts add up to the total, active and inactive accounts add
    up to the total, the inactive count (computed as total minus active) is
    the number of accounts whose flag is off, no count is negative, and the
    total and the deposits are what [admin_check_total_accounts] and
    [admin_check_total_deposit] report. *)
Theorem account_stats_consistent b :
  let stats := admin_get_account_stats b in
  (savings_accounts stats + current_accounts stats = total_accounts stats)%Z
  ∧ (active_accounts stats + inactive_accounts stats = total_accounts stats)%Z
  ∧ inactive_accounts stats
    = count_accounts (λ a, negb (_is_active a)) (_accounts b)
  ∧ (0 ≤ total_accounts stats ∧ 0 ≤ active_accounts stats
     ∧ 0 ≤ inactive_accounts stats
     ∧ 0 ≤ savings_accounts stats ∧ 0 ≤ current_accounts stats)%Z
  ∧ total_accounts stats = admin_check_total_accounts b
  ∧ total_deposits stats = admin_check_total_deposit b.
Proof.
  simpl.
  destruct (count_accounts_split _is_active (_accounts b)) as [Hact Hact0].
  destruct (count_accounts_split is_savings (_accounts b)) as [Hsav Hsav0].
  destruct (count_accounts_split (λ a, negb (_is_active a)) (_accounts b))
    as [_ Hin0].
  destruct (count_accounts_split is_current (_accounts b)) as [_ Hcur0].
  assert (count_accounts (λ a, negb (is_savings a)) (_accounts b)
          = count_accounts is_current (_accounts b)) as Hcur.
  { apply count_accounts_ext. intros a. unfold is_savings, is_current.
    destruct (_account_type a); reflexivity. }
  rewrite Hcur in Hsav.
  repeat split; try reflexivity; try lia.
Qed.

(** ** Reporting after [open_account] *)

(** X14.  Every [open_account] that gets past the name check adds one
    account to the statistics, whether it returns the number or raises
    [KeyError] for an unknown user: the total and the active count go up by
    one, the count of the requested variant goes up by one and the other
    stays, and the deposits are unchanged. *)
Theorem open_account_statistics rng user holder ty b r b' :
  _validate_name holder = true →
  open_account rng user holder ty b = Some (r, b') →
  let before := admin_get_account_stats b in
  let after := admin_get_account_stats b' in
  (total_accounts after = total_accounts before + 1)%Z
  ∧ (active_accounts after = active_accounts before + 1)%Z
  ∧ inactive_accounts after = inactive_accounts before
  ∧ (savings_accounts after
     = savings_accounts before + if ty is SAVINGS then 1 else 0)%Z
  ∧ (current_accounts after
     = current_accounts before + if ty is CURRENT then 1 else 0)%Z
  ∧ total_deposits after == total_deposits before.
Proof.
  intros Hname Hrun. unfold open_account in Hrun. rewrite Hname in Hrun.
  simpl in Hrun.
  destruct (_generate_account_number rng b) as [n|] eqn:Hgen; [|discriminate].
  pose proof (generated_number_free _ _ _ Hgen) as Hfree.
  rewrite open_account_with_eq in Hrun. simpl in Hrun.
  assert (_accounts b' = <[n := new_account n holder ty]> (_accounts b)) as Hacc.
  { destruct (_account_holders b !! user); injection Hrun as _ <-; reflexivity. }
  unfold admin_get_account_stats, admin_check_total_deposit. simpl.
  rewrite Hacc, !count_accounts_insert, map_size_insert_None,
    total_deposit_insert by exact Hfree.
  destruct ty; simpl; repeat split; try lia; ring.
Qed.

Lemma open_account_statistics_witness :
  let before := admin_get_account_stats Bank_init in
  let after := admin_get_account_stats orphan_bank in
  (total_accounts after = total_accounts before + 1)%Z
  ∧ (active_accounts after = active_accounts before + 1)%Z
  ∧ inactive_accounts after = inactive_accounts before
  ∧ (savings_accounts after = savings_accounts before + 0)%Z
  ∧ (current_accounts after = current_accounts before + 1)%Z
  ∧ total_deposits after == total_deposits before.
Proof.
  apply (open_account_statistics [0; 0; 0; 0; 0; 0; 0; 0; 0; 7]%nat "ghost"
           "Alice Smith" CURRENT Bank_init (Raise (KeyError "ghost"))
           orphan_bank).
  - reflexivity.
  - vm_compute. reflexivity.
Defined.

(** ** Nothing is ever deleted or rewritten *)

Lemma account_continues_refl a : account_continues a a.
Proof. repeat split; reflexivity. Qed.

Lemma account_continues_trans a1 a2 a3 :
  account_continues a1 a2 → account_continues a2 a3 → account_continues a1 a3.
Proof.
  intros (H1 & H2 & H3 & H4) (H1' & H2' & H3' & H4').
  repeat split; try congruence. etrans; eassumption.
Qed.

Lemma bank_continues_refl b : bank_continues b b.
Proof.
  split; [auto|]. split; [reflexivity|].
  intros k a Hk. exists a. split; [exact Hk|apply account_continues_refl].
Qed.

Lemma bank_continues_trans b1 b2 b3 :
  bank_continues b1 b2 → bank_continues b2 b3 → bank_continues b1 b3.
Proof.
  intros (Hu & Hl & Ha) (Hu' & Hl' & Ha'). split; [auto|].
  split; [intros u; etrans; [apply Hl|apply Hl']|].
  intros k a Hk. destruct (Ha k a Hk) as (a2 & Hk2 & Hc).
  destruct (Ha' k a2 Hk2) as (a3 & Hk3 & Hc').
  exists a3. split; [exact Hk3|]. eapply account_continues_trans; eassumption.
Qed.

Lemma update_account_continues k f b :
  (∀ a, account_continues a (f a)) → bank_continues b (update_account k f b).
Proof.
  intros Hf. split; [auto|]. split; [reflexivity|].
  intros i a Hi. unfold get_account in *. rewrite update_account_lookup, Hi.
  case_decide; simpl; eauto using account_continues_refl.
Qed.

Lemma on_account_continues {A} k (m : M Account A) b r b' :
  (∀ a ra a', m a = (ra, a') → account_continues a a') →
  on_account k m b = (r, b') → bank_continues b b'.
Proof.
  intros Hm Hrun. unfold on_account in Hrun.
  destruct (_accounts b !! k) as [a|] eqn:Hk;
    [|injection Hrun as _ <-; apply bank_continues_refl].
  destruct (m a) as [ra a'] eqn:Hma. injection Hrun as _ <-.
  split; [auto|]. split; [reflexivity|].
  intros i x Hi. unfold get_account in *. simpl. rewrite lookup_insert.
  case_decide as Hki.
  - subst i. rewrite Hk in Hi. injection Hi as <-. eauto.
  - eauto using account_continues_refl.
Qed.

Lemma stamped_continues now ty amount a :
  account_continues a (stamped now ty amount a).
Proof. repeat split. apply prefix_app_r. reflexivity. Qed.

Lemma deposited_continues now amount a :
  account_continues a (deposited now amount a).
Proof. repeat split. apply prefix_app_r. reflexivity. Qed.

Lemma withdrawn_continues now amount a :
  account_continues a (withdrawn now amount a).
Proof. repeat split. apply prefix_app_r. reflexivity. Qed.

Lemma bank_step_continues b b' :
  reachable b → bank_step b b' → bank_continues b b'.
Proof.
  intros Hreach Hstep.
  destruct (reachable_consistent b Hreach) as [Hkeys Hown].
  destruct Hstep as [h name password b r b' Hrun
                    |rng user holder ty b r b' Hrun
                    |now s t amount b r b' Hrun
                    |k now amount b r b' Hrun
                    |k now amount b r b' Hrun
                    |k now b r b' Hrun
                    |k b r b' Hrun].
  - rewrite create_user_eq in Hrun. unfold dict_has in Hrun.
    destruct (negb (_validate_username name));
      [injection Hrun as _ <-; apply bank_continues_refl|].
    destruct (negb (_validate_password password));
      [injection Hrun as _ <-; apply bank_continues_refl|].
    destruct (_users b !! name) as [u0|] eqn:Hname;
      injection Hrun as _ <-; [apply bank_continues_refl|].
    assert (_account_holders b !! name = None) as Hnone.
    { apply eq_None_not_Some. rewrite <- Hkeys, Hname.
      intros [? ?]; discriminate. }
    split; [|split].
    + intros u user Hu. simpl. rewrite lookup_insert_ne; [exact Hu|].
      congruence.
    + intros u. unfold get_user_accounts. simpl. rewrite lookup_insert.
      case_decide; [subst u; rewrite Hnone|]; reflexivity.
    + intros k a Hk. exists a. split; [exact Hk|apply account_continues_refl].
  - unfold open_account in Hrun.
    destruct (negb (_validate_name holder));
      [injection Hrun as _ <-; apply bank_continues_refl|].
    destruct (_generate_account_number rng b) as [n|] eqn:Hgen; [|discriminate].
    pose proof (generated_number_free _ _ _ Hgen) as Hfree.
    rewrite open_account_with_eq in Hrun. simpl in Hrun.
    assert (∀ k a, get_account b k = Some a →
              (<[n := new_account n holder ty]> (_accounts b)) !! k = Some a)
      as Hold.
    { intros k a Hk. unfold get_account in Hk.
      rewrite lookup_insert_ne; [exact Hk|]. congruence. }
    destruct (_account_holders b !! user) as [owned|] eqn:Hu;
      injection Hrun as _ <-; (split; [auto|split]).
    + intros u. unfold get_user_accounts. simpl. rewrite lookup_insert.
      case_decide; [subst u; rewrite Hu; simpl; apply prefix_app_r|];
        reflexivity.
    + intros k a Hk. exists a.
      split; [apply Hold, Hk|apply account_continues_refl].
    + reflexivity.
    + intros k a Hk. exists a.
      split; [apply Hold, Hk|apply account_continues_refl].
  - rewrite transfer_eq in Hrun.
    repeat match type of Hrun with
           | context [if ?c then _ else _] => destruct c
           | context [match ?o with Some _ => _ | None => _ end] => destruct o
           | context [let (_, _) := ?p in _] => destruct p as [[?|?] ?]
           end; injection Hrun as _ <-; try apply bank_continues_refl.
    unfold transferred.
    repeat (eapply bank_continues_trans;
            [|apply update_account_continues;
              first [apply stamped_continues | apply deposited_continues
                    | apply withdrawn_continues]]).
    apply bank_continues_refl.
  - eapply on_account_continues; [|exact Hrun]. intros a ra a'.
    rewrite deposit_eq.
    repeat match goal with
           | |- context [if ?c then _ else _] => destruct c
           end; intros [= _ <-];
      [apply account_continues_refl..|apply deposited_continues].
  - eapply on_account_continues; [|exact Hrun]. intros a ra a' Hw.
    destruct (withdraw_cases now amount a) as [[e He]|Hret];
      rewrite Hw in *; [injection He as _ ->; apply account_continues_refl|].
    injection Hret as _ ->. apply withdrawn_continues.
  - eapply on_account_continues; [|exact Hrun]. intros a ra a'.
    rewrite calculate_interest_eq. destruct a as [n h bal log [] act];
      intros [= _ <-]; [|apply account_continues_refl].
    repeat split. apply prefix_app_r. reflexivity.
  - eapply on_account_continues; [|exact Hrun]. intros a ra a' [= _ <-].
    repeat split; reflexivity.
Qed.

Lemma bank_step_reachable b b' : reachable b → bank_step b b' → reachable b'.
Proof.
  intros Hreach Hstep. destruct Hstep;
    eauto using reach_create_user, reach_open_account, reach_transfer,
      reach_deposit, reach_withdraw, reach_calculate_interest,
      reach_toggle_account_status.
Qed.

(** X19.  Nothing is ever deleted or rewritten.  From a reachable state
    and through any further calls, every registered user stays registered
    with the same hash, every owner list only grows at its end, and every
    account stays under its number with the same number, holder and variant
    and a log that only grows at its end. *)
Theorem bank_only_grows b b' :
  reachable b → rtc bank_step b b' →
  (∀ u user, _users b !! u = Some user → _users b' !! u = Some user)
  ∧ (∀ u, get_user_accounts b u `prefix_of` get_user_accounts b' u)
  ∧ (∀ k a, get_account b k = Some a →
       ∃ a', get_account b' k = Some a'
             ∧ _account_number a' = _account_number a
             ∧ _account_holder a' = _account_holder a
             ∧ _account_type a' = _account_type a
             ∧ _transactions a `prefix_of` _transactions a').
Proof.
  intros Hreach Hrun. change (bank_continues b b').
  induction Hrun as [b|b1 b2 b3 Hstep _ IH]; [apply bank_continues_refl|].
  eapply bank_continues_trans; [apply (bank_step_continues _ _ Hreach Hstep)|].
  apply IH. eapply bank_step_reachable; eassumption.
Qed.

Lemma bank_only_grows_witness :
  let b := example_bank CURRENT SAVINGS in
  let b' := transferred example_clock "0000000001" "0000000002" 100 b in
  (∀ u user, _users b !! u = Some user → _users b' !! u = Some user)
  ∧ (∀ u, get_user_accounts b u `prefix_of` get_user_accounts b' u)
  ∧ (∀ k a, get_account b k = Some a →
       ∃ a', get_account b' k = Some a'
             ∧ _account_number a' = _account_number a
             ∧ _account_holder a' = _account_holder a
             ∧ _account_type a' = _account_type a
             ∧ _transactions a `prefix_of` _transactions a').
Proof.
  apply (bank_only_grows (example_bank CURRENT SAVINGS)).
  - apply example_bank_reachable.
  - apply rtc_once.
    apply (step_transfer example_clock "0000000001" "0000000002" 100 _
             (Return true)).
    vm_compute. reflexivity.
Defined.

(** * Properties of the amounts, on binary64 *)

(** ** Two facts of IEEE arithmetic *)

(** Subtraction is addition of the negation, bit for bit. *)
Lemma SFsub_add_opp prec emax x y :
  SFsub prec emax x y = SFadd prec emax x (SFopp y).
Proof.
  destruct x as [sx|sx| |sx mx ex], y as [sy|sy| |sy my ey]; simpl;
    try reflexivity;
    destruct sx, sy; reflexivity.
Qed.

Lemma float_sub_add_opp (x y : float) : (x - y = x + - y)%float.
Proof.
  apply Prim2SF_inj.
  rewrite FloatAxioms.sub_spec, FloatAxioms.add_spec, FloatAxioms.opp_spec.
  apply SFsub_add_opp.
Qed.

(** Comparing the other way round gives the opposite answer, and no answer
    exactly when one side is NaN. *)
Lemma SFcompare_swap x y :
  SFcompare y x = CompOpp <$> SFcompare x y.
Proof.
  destruct x as [sx|sx| |sx mx ex], y as [sy|sy| |sy my ey]; simpl;
    try reflexivity;
    try (destruct sx; reflexivity); try (destruct sy; reflexivity);
    try (destruct sx, sy; reflexivity).
  f_equal. rewrite (Z.compare_antisym ex ey).
  change (Pos.compare_cont Eq my mx) with (Pos.compare my mx).
  change (Pos.compare_cont Eq mx my) with (Pos.compare mx my).
  rewrite (Pos.compare_antisym mx my).
  destruct sx, sy; simpl; try reflexivity;
    destruct (ex ?= ey)%Z; simpl; try reflexivity;
    destruct (mx ?= my)%positive; reflexivity.
Qed.

Lemma SFcompare_some x y :
  SFeqb x x = true → SFeqb y y = true → ∃ c, SFcompare x y = Some c.
Proof.
  destruct x as [sx|sx| |sx mx ex], y as [sy|sy| |sy my ey];
    try discriminate; intros _ _; simpl; eauto.
Qed.

Lemma SF_lt_false x y :
  SFltb x y = false →
  negb (SFeqb x x) = true ∨ negb (SFeqb y y) = true ∨ SFleb y x = true.
Proof.
  intros H. destruct (SFeqb x x) eqn:Hx; [|auto].
  destruct (SFeqb y y) eqn:Hy; [|auto]. right; right.
  destruct (SFcompare_some x y Hx Hy) as [c Hc].
  unfold SFltb in H. unfold SFleb. rewrite (SFcompare_swap x y), Hc in *.
  destruct c; simpl; try reflexivity. discriminate.
Qed.

Lemma SF_le_false x y :
  SFleb x y = false →
  negb (SFeqb x x) = true ∨ negb (SFeqb y y) = true ∨ SFltb y x = true.
Proof.
  intros H. destruct (SFeqb x x) eqn:Hx; [|auto].
  destruct (SFeqb y y) eqn:Hy; [|auto]. right; right.
  destruct (SFcompare_some x y Hx Hy) as [c Hc].
  unfold SFleb in H. unfold SFltb. rewrite (SFcompare_swap x y), Hc in *.
  destruct c; simpl; try reflexivity; discriminate.
Qed.

(** [x < y] fails only if [y <= x] or one of the two is NaN. *)
Lemma float_ltb_false (x y : float) :
  (x <? y)%float = false →
  is_nan x = true ∨ is_nan y = true ∨ (y <=? x)%float = true.
Proof.
  intros H. unfold is_nan. rewrite FloatAxioms.ltb_spec in H.
  rewrite FloatAxioms.leb_spec, !FloatAxioms.eqb_spec.
  apply (SF_lt_false (Prim2SF x) (Prim2SF y) H).
Qed.

(** [x <= y] fails only if [y < x] or one of the two is NaN. *)
Lemma float_leb_false (x y : float) :
  (x <=? y)%float = false →
  is_nan x = true ∨ is_nan y = true ∨ (y <? x)%float = true.
Proof.
  intros H. unfold is_nan. rewrite FloatAxioms.leb_spec in H.
  rewrite FloatAxioms.ltb_spec, !FloatAxioms.eqb_spec.
  apply (SF_le_false (Prim2SF x) (Prim2SF y) H).
Qed.

(** ** The account methods on binary64, in closed form *)

Lemma deposit64_eq now amount a :
  Float64.deposit now amount a =
    if negb (Float64._is_active a) then (Raise InactiveAccount, a)
    else if (amount <=? 0)%float then (Raise InvalidDeposit, a)
    else (Return true, deposited64 now amount a).
Proof.
  unfold Float64.deposit, bind, get, raise_if, raise, ret, modify,
    Float64._add_transaction.
  destruct (Float64._is_active a); simpl; [|reflexivity].
  destruct (amount <=? 0)%float; reflexivity.
Qed.

Lemma Account_withdraw64_eq now amount a :
  Float64.Account_withdraw now amount a =
    if negb (Float64._is_active a) then (Raise InactiveAccount, a)
    else if (amount <=? 0)%float then (Raise InvalidWithdrawal, a)
    else if (Float64._balance a <? amount)%float
    then (Raise InsufficientFunds, a)
    else (Return true, withdrawn64 now amount a).
Proof.
  unfold Float64.Account_withdraw, bind, get, raise_if, raise, ret, modify,
    Float64._add_transaction.
  destruct (Float64._is_active a); simpl; [|reflexivity].
  destruct (amount <=? 0)%float; simpl; [reflexivity|].
  destruct (Float64._balance a <? amount)%float; reflexivity.
Qed.

Lemma withdraw64_eq now amount a :
  Float64.withdraw now amount a =
    match Float64._account_type a with
    | SAVINGS =>
        if (Float64._balance a - amount <? Float64.MINIMUM_BALANCE)%float
        then (Raise BelowMinimumBalance, a)
        else Float64.Account_withdraw now amount a
    | CURRENT =>
        if (Float64._balance a - amount <? - Float64.OVERDRAFT_LIMIT)%float
        then (Raise OverdraftLimitExceeded, a)
        else Float64.Account_withdraw now amount a
    end.
Proof.
  unfold Float64.withdraw, Float64.SavingsAccount_withdraw,
    Float64.CurrentAccount_withdraw, bind, get, raise_if, raise, ret.
  destruct a as [n h b l [] f]; simpl;
    match goal with
    | |- context [if ?c then _ else _] => destruct c
    end; reflexivity.
Qed.

(** A [withdraw] that raises has not touched the account, and one that
    returns has returned [True], left [withdrawn64] and seen [amount <= 0]
    fail. *)
Lemma withdraw64_cases now amount a :
  (∃ e, Float64.withdraw now amount a = (Raise e, a))
  ∨ (Float64.withdraw now amount a = (Return true, withdrawn64 now amount a)
     ∧ (amount <=? 0)%float = false).
Proof.
  rewrite withdraw64_eq, Account_withdraw64_eq.
  destruct (amount <=? 0)%float;
    destruct (Float64._account_type a);
    repeat match goal with
           | |- context [if ?c then _ else _] => destruct c
           end; eauto.
Qed.

Lemma calculate_interest64_eq now a :
  Float64.calculate_interest now a =
    match Float64._account_type a with
    | SAVINGS =>
        (Return (Float64._balance a * Float64.INTEREST_RATE / 12)%float,
         credited64 now a)
    | CURRENT => (Return 0%float, a)
    end.
Proof. destruct a as [n h b l [] f]; reflexivity. Qed.

(** An amount that is not [<= 0] is positive or NaN. *)
Lemma accepted_amount (amount : float) :
  (amount <=? 0)%float = false →
  is_nan amount = true ∨ (0 <? amount)%float = true.
Proof.
  intros H. destruct (float_leb_false _ _ H) as [Hn|[Hn|Hlt]]; auto.
  discriminate.
Qed.

(** ** Withdrawal policies on binary64 *)



(** The edges of the rule, on the code's own arithmetic.  At a balance of
    exactly 1000.0 an amount of 2^-47 is too small to move the float
    difference, so the test passes, the call returns and the balance stays
    1000.0.  After [deposit(nan)], which the sign test lets through, the
    balance is NaN and every later withdrawal returns with balance NaN. *)
Example savings_withdraw_at_the_minimum :
  (1000 - 0x1p-47 = 1000)%float
  ∧ Float64.withdraw "t1" 0x1p-47 savings64_1000
    = (Return true, withdrawn64 "t1" 0x1p-47 savings64_1000)
  ∧ Float64._balance (withdrawn64 "t1" 0x1p-47 savings64_1000) = 1000%float.
Proof. repeat split. Qed.

Example savings_balance_nan :
  let a1 := snd (Float64.deposit "t1" nan savings64_1500) in
  let a2 := snd (Float64.withdraw "t2" 1000000 a1) in
  Float64.deposit "t1" nan savings64_1500 = (Return true, a1)
  ∧ Float64._balance a1 = nan
  ∧ Float64.withdraw "t2" 1000000 a1 = (Return true, a2)
  ∧ Float64._balance a2 = nan
  ∧ (Float64._balance a2 <? Float64.MINIMUM_BALANCE)%float = false.
Proof. repeat split. Qed.

(** C5.  [withdraw] is the variant's policy test, on the float
    [balance - amount], followed, only when the test passes, by the shared
    method; so a call whose float difference breaks the policy raises the
    policy's error before the account's status or the sign of the amount is
    looked at, on an inactive account and for a non-positive amount
    alike. *)
Theorem withdraw_policy_test_first now amount a :
  (Float64._account_type a = SAVINGS →
     Float64.withdraw now amount a =
       (if (Float64._balance a - amount <? Float64.MINIMUM_BALANCE)%float
        then (Raise BelowMinimumBalance, a)
        else Float64.Account_withdraw now amount a)
     ∧ ((Float64._balance a - amount <? Float64.MINIMUM_BALANCE)%float = true →
        Float64.withdraw now amount a = (Raise BelowMinimumBalance, a)))
  ∧ (Float64._account_type a = CURRENT →
     Float64.withdraw now amount a =
       (if (Float64._balance a - amount <? - Float64.OVERDRAFT_LIMIT)%float
        then (Raise OverdraftLimitExceeded, a)
        else Float64.Account_withdraw now amount a)
     ∧ ((Float64._balance a - amount <? - Float64.OVERDRAFT_LIMIT)%float = true →
        Float64.withdraw now amount a = (Raise OverdraftLimitExceeded, a))).
Proof.
  split; intros Hty; rewrite withdraw64_eq, Hty; (split; [reflexivity|]);
    intros ->; reflexivity.
Qed.

Lemma withdraw_policy_test_first_witness :
  let a := Float64.mkAccount "0000000002" "Bob Ray" 0 [] SAVINGS false in
  (Float64._is_active a = false
   ∧ (-5 <=? 0)%float = true
   ∧ Float64.withdraw "t" (-5) a = (Raise BelowMinimumBalance, a))
  ∧ (Float64._is_active current64_inactive = false
     ∧ Float64.withdraw "t" 20000 current64_inactive
       = (Raise OverdraftLimitExceeded, current64_inactive)).
Proof.
  intros a. split.
  - split; [reflexivity|]. split; [reflexivity|].
    apply (proj1 (withdraw_policy_test_first "t" (-5) a)); reflexivity.
  - split; [reflexivity|].
    apply (proj2 (withdraw_policy_test_first "t" 20000 current64_inactive));
      reflexivity.
Defined.

(** Where the float difference does not break the policy, the shared
    checks speak: on the inactive Savings account holding 1000.0, an amount
    of 2^-47 leaves the difference at 1000.0 and the call raises the
    inactive error; an amount of -5 on that account breaks both shared
    preconditions and no policy, the difference being 1005.0, and the
    inactive error is raised again. *)
Example withdraw_inactive_at_the_minimum :
  Float64.withdraw "t" 0x1p-47 savings64_1000_inactive
  = (Raise InactiveAccount, savings64_1000_inactive)
  ∧ Float64.withdraw "t" (-5) savings64_1000_inactive
    = (Raise InactiveAccount, savings64_1000_inactive).
Proof. repeat split. Qed.

(** ** Interest on binary64 *)

(** C6.  [calculate_interest] on a Savings account holding [b] returns the
    float [(b * 0.045) / 12], each operation rounded as the machine rounds
    it and [0.045] the float of that literal; it adds that amount to the
    balance and appends one "Interest Credit" record for it.  On a Current
    account it returns [0.0] and the account is as before. *)
Theorem calculate_interest_by_variant
    (now number holder : string) (b : float) (log : list Float64.Transaction)
    (active : bool) :
  Float64.INTEREST_RATE = 0.045%float
  ∧ Float64.calculate_interest now
      (Float64.mkAccount number holder b log SAVINGS active)
    = (Return (b * Float64.INTEREST_RATE / 12)%float,
       Float64.mkAccount number holder
         (b + b * Float64.INTEREST_RATE / 12)%float
         (log ++ [Float64.mkTransaction now
                    (TransactionType_value INTEREST_CREDIT)
                    (b * Float64.INTEREST_RATE / 12)%float
                    (b + b * Float64.INTEREST_RATE / 12)%float])
         SAVINGS active)
  ∧ Float64.calculate_interest now
      (Float64.mkAccount number holder b log CURRENT active)
    = (Return 0%float, Float64.mkAccount number holder b log CURRENT active).
Proof. repeat split. Qed.

(** The amount credited on a balance of 1.0 is the float
    8646911284551352 * 2^-61, that is 1080863910568919 / 2^58, the float
    nearest to 0.00375, not the rational 3/800. *)
Example interest_on_one :
  fst (Float64.calculate_interest "t"
         (Float64.mkAccount "0000000001" "Alice Smith" 1 [] SAVINGS true))
  = Return (1 * Float64.INTEREST_RATE / 12)%float
  ∧ Prim2SF (1 * Float64.INTEREST_RATE / 12)%float
    = S754_finite false 8646911284551352 (-61)
  ∧ Prim2SF Float64.INTEREST_RATE = S754_finite false 6485183463413514 (-57).
Proof. repeat split. Qed.

(** ** The ledger on binary64 *)

Lemma running_total_snoc log t :
  running_total (log ++ [t]) = (running_total log + Float64.tx_amount t)%float.
Proof. unfold running_total. rewrite fold_left_app. reflexivity. Qed.

Lemma perform_cases o a :
  (∃ e, perform o a = (Raise e, a))
  ∨ (perform o a = (Return tt, a)
     ∧ ∃ now, o = OpInterest now ∧ Float64._account_type a = CURRENT)
  ∨ (∃ a' t, perform o a = (Return tt, a')
       ∧ Float64._transactions a' = Float64._transactions a ++ [t]
       ∧ Float64._balance a' = (Float64._balance a + Float64.tx_amount t)%float
       ∧ Float64.tx_balance t = Float64._balance a'
       ∧ Float64.tx_amount t = recorded_amount o a
       ∧ amount_accepted o
       ∧ (∀ now, o = OpInterest now → Float64._account_type a = SAVINGS)).
Proof.
  destruct o as [now amount|now amount|now]; unfold perform, bind.
  - rewrite deposit64_eq.
    destruct (negb (Float64._is_active a)); [left; eauto|].
    destruct (amount <=? 0)%float eqn:Hpos; [left; eauto|].
    right; right. eexists _, _.
    split; [reflexivity|]. split; [reflexivity|]. split; [reflexivity|].
    split; [reflexivity|]. split; [reflexivity|].
    split; [split; [exact Hpos|apply accepted_amount, Hpos]|discriminate].
  - destruct (withdraw64_cases now amount a) as [[e ->]|[-> Hpos]];
      [left; eauto|].
    right; right. eexists _, _.
    split; [reflexivity|]. split; [reflexivity|].
    split; [apply float_sub_add_opp|].
    split; [reflexivity|]. split; [reflexivity|].
    split; [split; [exact Hpos|apply accepted_amount, Hpos]|discriminate].
  - rewrite calculate_interest64_eq.
    destruct (Float64._account_type a) eqn:Hty.
    + right; right. eexists _, _.
      split; [reflexivity|]. split; [reflexivity|]. split; [reflexivity|].
      split; [reflexivity|]. split; [reflexivity|].
      split; [exact I|]. intros _ _. reflexivity.
    + right; left. split; [reflexivity|]. eauto.
Qed.

Lemma perform_balanced o a : balanced a → balanced (snd (perform o a)).
Proof.
  intros Hb.
  destruct (perform_cases o a)
    as [[e ->]|[[-> _]|(a' & t & -> & Hlog & Hbal & _)]]; try exact Hb.
  unfold balanced. simpl. rewrite Hlog, Hbal, running_total_snoc, Hb.
  reflexivity.
Qed.

Lemma apply_ops_balanced ops a : balanced a → balanced (apply_ops ops a).
Proof.
  revert a. induction ops as [|o ops IH]; intros a Hb; [exact Hb|].
  apply IH, perform_balanced, Hb.
Qed.

(** C4 as the claim has it fails, on four counts.  [calculate_interest] on
    a Current account returns and appends no record.  [deposit(nan)]
    returns and records the amount NaN, which is not positive.
    [calculate_interest] on a Savings account holding 0.0 records the
    amount 0.0, which is not positive.  And "the sum" of floats is not one
    number: after deposits of 1e16, 1.0 and 1.0 the balance is 1e16, which
    is what the recorded amounts add up to in the order of the log, while
    the same three amounts added in the opposite order, or exactly, make
    10000000000000002. *)
Lemma ledger_claim_fails :
  let current := Float64.CurrentAccount_init "0000000001" "Ann Lee" in
  let savings := Float64.SavingsAccount_init "0000000002" "Ann Lee" in
  (perform (OpInterest "t") current = (Return tt, current)
   ∧ ¬ ∃ t, Float64._transactions current
            = Float64._transactions current ++ [t])
  ∧ (∃ a', perform (OpDeposit "t" nan) savings = (Return tt, a')
           ∧ Float64.tx_amount <$> Float64._transactions a' = [nan]
           ∧ (0 <? nan)%float = false)
  ∧ (∃ a', perform (OpInterest "t") savings = (Return tt, a')
           ∧ Float64.tx_amount <$> Float64._transactions a' = [0%float]
           ∧ (0 <? 0)%float = false)
  ∧ (let a' := apply_ops [OpDeposit "t1" 1e16; OpDeposit "t2" 1;
                          OpDeposit "t3" 1] savings in
     Float64.tx_amount <$> Float64._transactions a' = [1e16; 1; 1]%float
     ∧ Float64._balance a' = 1e16%float
     ∧ (0 + 1e16 + 1 + 1 = 1e16)%float
     ∧ (0 + 1 + 1 + 1e16 = 10000000000000002)%float
     ∧ Float64._balance a' ≠ 10000000000000002%float).
Proof.
  simpl. repeat split; try reflexivity.
  - intros [t Ht]. simpl in Ht. destruct t; discriminate.
  - eexists. repeat split; reflexivity.
  - eexists. repeat split; reflexivity.
  - intros H. apply (f_equal Prim2SF) in H. vm_compute in H. discriminate.
Qed.

(** C4, amended.  From creation and through any sequence of [deposit],
    [withdraw] and [calculate_interest] calls, on either variant, the
    balance is the total of the recorded amounts added up in floating
    point, from zero, in the order of the log.  Each [deposit], [withdraw]
    or Savings [calculate_interest] that returns appends exactly one
    record, carrying the balance after the call and the signed amount: the
    deposit as given and the withdrawal negated, of an amount that is
    positive or NaN, and the interest as computed; the balance moves by the
    float addition of that amount.  A Current [calculate_interest] returns
    without touching the account. *)
Theorem ledger_balance_is_running_total
    (number holder : string) (ty : AccountType) (ops : list AccountOp) :
  balanced (apply_ops ops (Float64.Account_init number holder ty))
  ∧ (∀ o a a',
       perform o a = (Return tt, a') →
       (∀ now, o = OpInterest now → Float64._account_type a = SAVINGS) →
       (∃ t, Float64._transactions a' = Float64._transactions a ++ [t]
             ∧ Float64.tx_balance t = Float64._balance a'
             ∧ Float64.tx_amount t = recorded_amount o a
             ∧ Float64._balance a'
               = (Float64._balance a + recorded_amount o a)%float)
       ∧ amount_accepted o
       ∧ (balanced a → balanced a'))
  ∧ (∀ now a, Float64._account_type a = CURRENT →
       perform (OpInterest now) a = (Return tt, a)).
Proof.
  split; [apply apply_ops_balanced; reflexivity|]. split.
  - intros o a a' Hrun Hnot.
    assert (balanced a → balanced a') as Hb'.
    { intros Hb. change a' with (snd (Return tt, a')). rewrite <- Hrun.
      apply perform_balanced, Hb. }
    destruct (perform_cases o a)
      as [[e He]|[[_ (now & -> & Hty)]
                 |(a1 & t & H1 & Hlog & Hbal & Htb & Hamt & Hacc & _)]].
    + rewrite He in Hrun. discriminate.
    + rewrite (Hnot now eq_refl) in Hty. discriminate.
    + rewrite H1 in Hrun. injection Hrun as <-. rewrite <- Hamt. eauto 8.
  - intros now a Hty. unfold perform, bind.
    rewrite calculate_interest64_eq, Hty. reflexivity.
Qed.

Lemma ledger_balance_is_running_total_witness :
  balanced (apply_ops [OpDeposit "t0" 1500; OpWithdraw "t1" 400;
                       OpWithdraw "t2" 200; OpInterest "t3";
                       OpDeposit "t4" nan]
              (Float64.Account_init "0000000001" "Alice Smith" SAVINGS))
  ∧ ((∃ t, Float64._transactions (withdrawn64 "t1" 400 savings64_1500)
           = Float64._transactions savings64_1500 ++ [t]
           ∧ Float64.tx_balance t
             = Float64._balance (withdrawn64 "t1" 400 savings64_1500)
           ∧ Float64.tx_amount t = (- 400)%float
           ∧ Float64._balance (withdrawn64 "t1" 400 savings64_1500)
             = (1500 + - 400)%float)
     ∧ ((400 <=? 0)%float = false
        ∧ (is_nan 400 = true ∨ (0 <? 400)%float = true))
     ∧ (balanced savings64_1500 →
        balanced (withdrawn64 "t1" 400 savings64_1500)))
  ∧ perform (OpInterest "t") current64_inactive
    = (Return tt, current64_inactive).
Proof.
  pose proof (ledger_balance_is_running_total "0000000001" "Alice Smith"
    SAVINGS
    [OpDeposit "t0" 1500; OpWithdraw "t1" 400; OpWithdraw "t2" 200;
     OpInterest "t3"; OpDeposit "t4" nan]) as (H1 & H2 & H3).
  split; [exact H1|]. split.
  - apply (H2 (OpWithdraw "t1" 400) savings64_1500).
    + reflexivity.
    + discriminate.
  - apply H3. reflexivity.
Defined.

(** ** Deposits on binary64 *)

(** X1.  [deposit] returns exactly when the account is active and the test
    [amount <= 0] fails, that is for an amount that is positive or NaN; the
    balance then becomes the float [balance + amount] and the log gains one
    "Deposit" record holding that amount and the new balance, nothing else
    moving.  Otherwise it raises with the account untouched: the inactive
    error on an inactive account whatever the amount, the amount error on an
    active one. *)
Theorem deposit_outcomes now amount a :
  (Float64._is_active a = false →
   Float64.deposit now amount a = (Raise InactiveAccount, a))
  ∧ (Float64._is_active a = true → (amount <=? 0)%float = true →
     Float64.deposit now amount a = (Raise InvalidDeposit, a))
  ∧ (Float64._is_active a = true → (amount <=? 0)%float = false →
     Float64.deposit now amount a = (Return true, deposited64 now amount a))
  ∧ (∀ r a', Float64.deposit now amount a = (Return r, a') →
     Float64._is_active a = true
     ∧ (is_nan amount = true ∨ (0 <? amount)%float = true)
     ∧ a' = deposited64 now amount a).
Proof.
  rewrite deposit64_eq. split; [|split; [|split]].
  - intros ->. reflexivity.
  - intros -> ->. reflexivity.
  - intros -> ->. reflexivity.
  - intros r a'. destruct (Float64._is_active a); [|discriminate]. simpl.
    destruct (amount <=? 0)%float eqn:Hpos; [discriminate|].
    intros [= _ <-]. repeat split. apply accepted_amount, Hpos.
Qed.

Lemma deposit_outcomes_witness :
  Float64.deposit "t" 50 current64_inactive
  = (Raise InactiveAccount, current64_inactive)
  ∧ Float64.deposit "t" (-50) savings64_1500
    = (Raise InvalidDeposit, savings64_1500)
  ∧ Float64.deposit "t" 50 savings64_1500
    = (Return true, deposited64 "t" 50 savings64_1500)
  ∧ (Float64._is_active savings64_1500 = true
     ∧ (is_nan nan = true ∨ (0 <? nan)%float = true)
     ∧ deposited64 "t" nan savings64_1500 = deposited64 "t" nan savings64_1500).
Proof.
  split; [|split; [|split]].
  - apply (proj1 (deposit_outcomes "t" 50 current64_inactive)). reflexivity.
  - apply (proj1 (proj2 (deposit_outcomes "t" (-50) savings64_1500)));
      reflexivity.
  - apply (proj1 (proj2 (proj2 (deposit_outcomes "t" 50 savings64_1500))));
      reflexivity.
  - apply (proj2 (proj2 (proj2 (deposit_outcomes "t" nan savings64_1500)))
             true (deposited64 "t" nan savings64_1500)).
    reflexivity.
Defined.

(** A deposit need not raise the balance: on 1e16 a deposit of 1.0 returns
    and the balance is still 1e16. *)
Example deposit_absorbed :
  Float64._balance
    (deposited64 "t" 1
       (Float64.mkAccount "0000000001" "Alice Smith" 1e16 [] CURRENT true))
  = 1e16%float.
Proof. reflexivity. Qed.

(** * Properties of names and credentials, on Unicode text *)

(** ** The validators *)

Lemma match_class_boundedU_unfold cls lo hi s :
  Unicode.match_class_bounded cls lo hi s =
    ((lo =? 0)%nat && Unicode.at_dollar s)
    || match hi, s with
       | S hi', c :: s' =>
           cls c && Unicode.match_class_bounded cls (pred lo) hi' s'
       | _, _ => false
       end.
Proof. destruct hi, s; reflexivity. Qed.

Lemma match_class_boundedU_spec cls lo hi s :
  Unicode.match_class_bounded cls lo hi s = true
  ↔ ∃ w t, s = w ++ t
           ∧ (lo ≤ length w ≤ hi)%nat
           ∧ forallb cls w = true
           ∧ Unicode.at_dollar t = true.
Proof.
  revert lo s. induction hi as [|hi IH]; intros lo s;
    rewrite match_class_boundedU_unfold, orb_true_iff, andb_true_iff,
      Nat.eqb_eq.
  - split.
    + intros [[-> Hd]|Hf]; [|destruct s; discriminate].
      exists [], s. repeat split; auto.
    + intros (w & t & -> & [Hlo Hhi] & _ & Hd). left.
      destruct w; simpl in *; [split; [lia|exact Hd]|lia].
  - split.
    + intros [[-> Hd]|Hr].
      * exists [], s. repeat split; auto. simpl. lia.
      * destruct s as [|c s']; [discriminate|].
        apply andb_true_iff in Hr as [Hc Hr].
        apply IH in Hr as (w & t & -> & [Hlo Hhi] & Hall & Hd).
        exists (c :: w), t. simpl. rewrite Hc, Hall.
        repeat split; auto; lia.
    + intros (w & t & -> & [Hlo Hhi] & Hall & Hd).
      destruct w as [|c w]; simpl in *.
      * left. split; [lia|exact Hd].
      * right. apply andb_true_iff in Hall as [Hc Hall]. rewrite Hc. simpl.
        apply IH. exists w, t. repeat split; auto; lia.
Qed.

Lemma at_dollarU_spec t :
  Unicode.at_dollar t = true ↔ t = [] ∨ t = [10%N].
Proof.
  split.
  - destruct t as [|c [|c' t']]; simpl; try discriminate; [auto|].
    intros Hc. apply N.eqb_eq in Hc. subst. auto.
  - intros [-> | ->]; reflexivity.
Qed.

Lemma in_range_spec lo hi c :
  Unicode.in_range lo hi c = true ↔ (lo ≤ c ≤ hi)%N.
Proof.
  unfold Unicode.in_range. rewrite andb_true_iff, !N.leb_le. reflexivity.
Qed.

Lemma is_name_char_spec c :
  Unicode.is_name_char c = true
  ↔ ascii_letter c ∨ c ∈ unicode_white_space.
Proof.
  unfold Unicode.is_name_char, Unicode.is_space, Unicode.is_upper,
    Unicode.is_lower, ascii_letter, unicode_white_space.
  rewrite !orb_true_iff, !in_range_spec, !N.eqb_eq, !elem_of_cons,
    elem_of_nil.
  lia.
Qed.

(** X13.  [_validate_name] accepts the names of 2 to 50 characters, each a
    letter A to Z or a to z or a white-space character of Unicode (a name
    of blanks only among them) and, because of [$], such a name followed by
    one more line feed, which may bring the length to 51; it accepts
    nothing else. *)
Theorem validate_name_spec name :
  Unicode._validate_name name = true
  ↔ holder_name_well_formed name
    ∨ ∃ w, name = w ++ [10%N] ∧ holder_name_well_formed w.
Proof.
  assert (∀ w, forallb Unicode.is_name_char w = true
               ↔ Forall (λ c, ascii_letter c ∨ c ∈ unicode_white_space) w)
    as Hall_iff.
  { intros w. rewrite forallb_forall, Forall_forall. split; intros H c Hc.
    - apply is_name_char_spec, H, list_elem_of_In, Hc.
    - apply is_name_char_spec, H, list_elem_of_In, Hc. }
  unfold Unicode._validate_name, holder_name_well_formed.
  rewrite match_class_boundedU_spec. split.
  - intros (w & t & -> & Hlen & Hall & Hd). apply Hall_iff in Hall.
    apply at_dollarU_spec in Hd as [-> | ->].
    + left. rewrite app_nil_r. auto.
    + right. eauto.
  - intros [[Hlen Hall]|(w & -> & Hlen & Hall)]; apply Hall_iff in Hall.
    + exists name, []. rewrite app_nil_r. auto.
    + exists w, [10%N]. auto.
Qed.

Example validate_name_edges :
  Unicode._validate_name (Unicode.of_string "  ") = true
  ∧ Unicode._validate_name (Unicode.of_string "A") = false
  ∧ Unicode._validate_name [] = false
  ∧ Unicode._validate_name (Unicode.of_string "Anne-Marie") = false
  ∧ Unicode._validate_name [65; 108; 0x2003]%N = true
  ∧ Unicode._validate_name [65; 108; 0x200B]%N = false
  ∧ Unicode._validate_name
      (Unicode.of_string
         "Abcdefghij Abcdefghij Abcdefghij Abcdefghij Abcdef" ++ [10%N])
    = true
  ∧ length
      (Unicode.of_string
         "Abcdefghij Abcdefghij Abcdefghij Abcdefghij Abcdef" ++ [10%N])
    = 51%nat.
Proof. repeat split; reflexivity. Qed.

(** ** Encoding and hashing *)

Lemma is_surrogate_spec c : Unicode.is_surrogate c = true ↔ surrogate c.
Proof. apply in_range_spec. Qed.

Lemma encode_point_None c :
  Unicode.encode_point c = None ↔ surrogate c.
Proof.
  unfold Unicode.encode_point. rewrite <- is_surrogate_spec.
  destruct (c <? 128)%N eqn:H1.
  - split; [discriminate|]. intros H. apply is_surrogate_spec in H.
    apply N.ltb_lt in H1. unfold surrogate in H. lia.
  - destruct (c <? 2048)%N eqn:H2.
    + split; [discriminate|]. intros H. apply is_surrogate_spec in H.
      apply N.ltb_lt in H2. unfold surrogate in H. lia.
    + destruct (Unicode.is_surrogate c); [tauto|].
      destruct (c <? 65536)%N; split; discriminate.
Qed.

(** [str.encode()] raises exactly on the strings that hold a surrogate. *)
Lemma encode_None s : Unicode.encode s = None ↔ Exists surrogate s.
Proof.
  induction s as [|c s IH]; simpl.
  - split; [discriminate|]. intros H. inversion H.
  - rewrite Exists_cons, <- IH, <- encode_point_None.
    destruct (Unicode.encode_point c), (Unicode.encode s);
      split; try discriminate; try tauto; intros [H|H]; discriminate.
Qed.

Lemma create_userU_eq {Account} h name password (b : Unicode.Bank Account) :
  Unicode.create_user h name password b =
    if negb (Unicode._validate_username name) then (Unicode.Raise InvalidUsernameU, b)
    else if negb (Unicode._validate_password password)
    then (Unicode.Raise WeakPasswordU, b)
    else if bool_decide (is_Some (Unicode._users b !! name))
    then (Unicode.Raise UsernameTakenU, b)
    else match Unicode.encode password with
         | None => (Unicode.Raise Unicode.UnicodeEncodeError, b)
         | Some data =>
             (Unicode.Return true,
              Unicode.mkBank (Unicode._accounts b)
                (<[name := Unicode.mkUser name (h data)]> (Unicode._users b))
                (<[name := []]> (Unicode._account_holders b)))
         end.
Proof.
  unfold Unicode.create_user, Unicode.User_init, Unicode._hash_password.
  destruct (Unicode.encode password); reflexivity.
Qed.

Lemma authenticate_userU_eq {Account} h name password
    (b : Unicode.Bank Account) :
  Unicode.authenticate_user h name password b =
    match Unicode._users b !! name with
    | None => Unicode.Return false
    | Some user =>
        match Unicode.encode password with
        | None => Unicode.Raise Unicode.UnicodeEncodeError
        | Some data =>
            Unicode.Return (bool_decide (h data = Unicode.password_hash user))
        end
    end.
Proof.
  unfold Unicode.authenticate_user, Unicode.verify_password,
    Unicode._hash_password.
  destruct (Unicode._users b !! name) as [user|]; [|reflexivity].
  destruct (Unicode.encode password) as [data|]; [|reflexivity].
  destruct (bool_decide (h data = Unicode.password_hash user)); reflexivity.
Qed.

(** ** Authentication *)

(** C8 as the claim has it fails: with "alice_01" registered,
    [authenticate_user] called with a candidate password that holds the
    lone surrogate U+DCFF raises UnicodeEncodeError, out of
    [password.encode()]. *)
Lemma authenticate_user_raises :
  Unicode.create_user example_digest_of_bytes alice strong_pass
    Unicode.Bank_init = (Unicode.Return true, alice_bank)
  ∧ Unicode.authenticate_user example_digest_of_bytes alice surrogate_pass
      alice_bank
    = Unicode.Raise Unicode.UnicodeEncodeError.
Proof. split; vm_compute; reflexivity. Qed.

(** C8, amended.  [authenticate_user] raises in one case only, with
    UnicodeEncodeError: the username is registered and the candidate
    password cannot be encoded, which is when it holds a surrogate code
    point.  In every other case it returns, and it returns [True] exactly
    when the username is registered and the hash of the candidate equals
    the stored hash; so it returns [False] for a candidate whose hash
    differs and for an unregistered name, and [True] for the password a
    successful [create_user] has just registered. *)
Theorem authenticate_user_outcomes {Account} h name password
    (b : Unicode.Bank Account) :
  (∀ e, Unicode.authenticate_user h name password b = Unicode.Raise e
        ↔ e = Unicode.UnicodeEncodeError
          ∧ is_Some (Unicode._users b !! name)
          ∧ Exists surrogate password)
  ∧ (Unicode.authenticate_user h name password b = Unicode.Return true
     ↔ ∃ user data, Unicode._users b !! name = Some user
                    ∧ Unicode.encode password = Some data
                    ∧ h data = Unicode.password_hash user)
  ∧ (∀ user data, Unicode._users b !! name = Some user →
       Unicode.encode password = Some data →
       h data ≠ Unicode.password_hash user →
       Unicode.authenticate_user h name password b = Unicode.Return false)
  ∧ (Unicode._users b !! name = None →
     Unicode.authenticate_user h name password b = Unicode.Return false)
  ∧ (∀ b', Unicode.create_user h name password b = (Unicode.Return true, b') →
       Unicode.authenticate_user h name password b' = Unicode.Return true).
Proof.
  rewrite authenticate_userU_eq.
  split; [|split; [|split; [|split]]].
  - intros e. rewrite <- encode_None.
    destruct (Unicode._users b !! name) as [user|].
    + destruct (Unicode.encode password) as [data|].
      * split; [discriminate|]. intros (_ & _ & H). discriminate.
      * split; [intros [= <-]; eauto|]. intros (-> & _ & _). reflexivity.
    + split; [discriminate|]. intros (_ & [u H] & _). discriminate.
  - destruct (Unicode._users b !! name) as [user|].
    + destruct (Unicode.encode password) as [data|].
      * case_bool_decide as Heq.
        -- split; [eauto|reflexivity].
        -- split; [discriminate|].
           intros (user' & data' & [= <-] & [= <-] & Heq'). contradiction.
      * split; [discriminate|]. intros (user' & data' & _ & H & _).
        discriminate.
    + split; [discriminate|]. intros (user' & data' & H & _). discriminate.
  - intros user data -> -> Hne. rewrite bool_decide_eq_false_2; auto.
  - intros ->. reflexivity.
  - intros b'. rewrite create_userU_eq, authenticate_userU_eq.
    destruct (negb (Unicode._validate_username name)); [discriminate|].
    destruct (negb (Unicode._validate_password password)); [discriminate|].
    destruct (bool_decide (is_Some (Unicode._users b !! name)));
      [discriminate|].
    destruct (Unicode.encode password) as [data|]; [|discriminate].
    intros [= <-]. simpl. rewrite lookup_insert_eq. simpl.
    rewrite bool_decide_eq_true_2; reflexivity.
Qed.

Lemma authenticate_user_outcomes_witness :
  Unicode.authenticate_user example_digest_of_bytes alice
    (Unicode.of_string "Wr0ng!Pass") alice_bank = Unicode.Return false
  ∧ Unicode.authenticate_user example_digest_of_bytes
      (Unicode.of_string "bob_0002") strong_pass alice_bank
    = Unicode.Return false
  ∧ Unicode.authenticate_user example_digest_of_bytes alice strong_pass
      alice_bank = Unicode.Return true.
Proof.
  split; [|split].
  - apply (proj1 (proj2 (proj2
      (authenticate_user_outcomes example_digest_of_bytes alice
         (Unicode.of_string "Wr0ng!Pass") alice_bank)))
      (Unicode.mkUser alice
         (example_digest_of_bytes (Unicode.of_string "Str0ng!Pass")))
      (Unicode.of_string "Wr0ng!Pass")).
    + vm_compute. reflexivity.
    + vm_compute. reflexivity.
    + vm_compute. discriminate.
  - apply (proj1 (proj2 (proj2 (proj2
      (authenticate_user_outcomes example_digest_of_bytes
         (Unicode.of_string "bob_0002") strong_pass alice_bank))))).
    vm_compute. reflexivity.
  - apply (proj2 (proj2 (proj2 (proj2
      (authenticate_user_outcomes (Account := unit) example_digest_of_bytes
         alice strong_pass Unicode.Bank_init))))).
    vm_compute. reflexivity.
Defined.

(** ** Registration *)

(** X18.  [create_user] tests the username format, then the password, then
    whether the name is taken, and raises for the first test that fails; in
    particular it never replaces a registered user.  When all three pass,
    the password is encoded and hashed: on a password that holds a
    surrogate this raises UnicodeEncodeError; otherwise the call returns
    [True], and the new user, holding the hash of the encoded password, and
    an empty owner list are then under the name, the accounts, the other
    users and the other owner lists being as before.  A call that raises
    leaves the bank untouched. *)
Theorem create_user_outcomes {Account} h name password
    (b : Unicode.Bank Account) :
  (Unicode._validate_username name = false →
   Unicode.create_user h name password b = (Unicode.Raise InvalidUsernameU, b))
  ∧ (Unicode._validate_username name = true →
     Unicode._validate_password password = false →
     Unicode.create_user h name password b = (Unicode.Raise WeakPasswordU, b))
  ∧ (Unicode._validate_username name = true →
     Unicode._validate_password password = true →
     is_Some (Unicode._users b !! name) →
     Unicode.create_user h name password b
     = (Unicode.Raise UsernameTakenU, b))
  ∧ (Unicode._validate_username name = true →
     Unicode._validate_password password = true →
     Unicode._users b !! name = None →
     Exists surrogate password →
     Unicode.create_user h name password b
     = (Unicode.Raise Unicode.UnicodeEncodeError, b))
  ∧ (Unicode._validate_username name = true →
     Unicode._validate_password password = true →
     Unicode._users b !! name = None →
     ¬ Exists surrogate password →
     ∃ data b', Unicode.encode password = Some data
           ∧ Unicode.create_user h name password b = (Unicode.Return true, b')
           ∧ Unicode._users b' !! name = Some (Unicode.mkUser name (h data))
           ∧ Unicode.get_user_accounts b' name = []
           ∧ Unicode._accounts b' = Unicode._accounts b
           ∧ (∀ u, u ≠ name →
                Unicode._users b' !! u = Unicode._users b !! u
                ∧ Unicode._account_holders b' !! u
                  = Unicode._account_holders b !! u))
  ∧ (∀ e b', Unicode.create_user h name password b = (Unicode.Raise e, b') →
       b' = b).
Proof.
  rewrite create_userU_eq. split; [|split; [|split; [|split; [|split]]]].
  - intros ->. reflexivity.
  - intros -> ->. reflexivity.
  - intros -> -> Hsome. rewrite bool_decide_eq_true_2 by exact Hsome.
    reflexivity.
  - intros -> -> Hnone Hsur. simpl.
    rewrite bool_decide_eq_false_2
      by (rewrite Hnone; intros [u Hu]; discriminate).
    apply encode_None in Hsur. rewrite Hsur. reflexivity.
  - intros -> -> Hnone Hsur. simpl.
    rewrite bool_decide_eq_false_2
      by (rewrite Hnone; intros [u Hu]; discriminate).
    rewrite <- encode_None in Hsur.
    destruct (Unicode.encode password) as [data|]; [|contradiction].
    eexists _, _. split; [reflexivity|]. split; [reflexivity|].
    unfold Unicode.get_user_accounts. simpl. rewrite !lookup_insert_eq.
    split; [reflexivity|]. split; [reflexivity|]. split; [reflexivity|].
    intros u Hu. rewrite !lookup_insert_ne by auto. split; reflexivity.
  - intros e b'.
    repeat match goal with
           | |- context [if ?c then _ else _] => destruct c
           | |- context [match ?c with Some _ => _ | None => _ end] =>
               destruct c
           end; intros [= _ <-] || discriminate; reflexivity.
Qed.

Lemma create_user_outcomes_witness :
  Unicode.create_user example_digest_of_bytes (Unicode.of_string "al")
    strong_pass (Unicode.Bank_init (Account := unit))
  = (Unicode.Raise InvalidUsernameU, Unicode.Bank_init)
  ∧ Unicode.create_user example_digest_of_bytes alice
      (Unicode.of_string "password") (Unicode.Bank_init (Account := unit))
    = (Unicode.Raise WeakPasswordU, Unicode.Bank_init)
  ∧ Unicode.create_user example_digest_of_bytes alice
      (Unicode.of_string "0ther!Pass") alice_bank
    = (Unicode.Raise UsernameTakenU, alice_bank)
  ∧ Unicode.create_user example_digest_of_bytes alice surrogate_pass
      (Unicode.Bank_init (Account := unit))
    = (Unicode.Raise Unicode.UnicodeEncodeError, Unicode.Bank_init)
  ∧ ∃ data b',
      Unicode.encode strong_pass = Some data
      ∧ Unicode.create_user example_digest_of_bytes alice strong_pass
          (Unicode.Bank_init (Account := unit))
        = (Unicode.Return true, b')
      ∧ Unicode._users b' !! alice
        = Some (Unicode.mkUser alice (example_digest_of_bytes data))
      ∧ Unicode.get_user_accounts b' alice = []
      ∧ Unicode._accounts b' = Unicode._accounts Unicode.Bank_init
      ∧ (∀ u, u ≠ alice →
           Unicode._users b' !! u
           = Unicode._users (Unicode.Bank_init (Account := unit)) !! u
           ∧ Unicode._account_holders b' !! u
             = Unicode._account_holders
                 (Unicode.Bank_init (Account := unit)) !! u).
Proof.
  split; [|split; [|split; [|split]]].
  - apply (proj1 (create_user_outcomes example_digest_of_bytes
                    (Unicode.of_string "al") strong_pass Unicode.Bank_init)).
    reflexivity.
  - apply (proj1 (proj2 (create_user_outcomes example_digest_of_bytes alice
                           (Unicode.of_string "password") Unicode.Bank_init)));
      reflexivity.
  - apply (proj1 (proj2 (proj2 (create_user_outcomes example_digest_of_bytes
                                  alice (Unicode.of_string "0ther!Pass")
                                  alice_bank)))); try reflexivity.
    vm_compute. eauto.
  - apply (proj1 (proj2 (proj2 (proj2
             (create_user_outcomes example_digest_of_bytes alice
                surrogate_pass Unicode.Bank_init))))); try reflexivity.
    apply encode_None. reflexivity.
  - apply (proj1 (proj2 (proj2 (proj2 (proj2
             (create_user_outcomes example_digest_of_bytes alice
                strong_pass Unicode.Bank_init)))))); try reflexivity.
    intros H. apply encode_None in H. discriminate.
Defined.

(** * Properties of the bank's amounts, on binary64 *)

(** ** Transfers on binary64 *)

Lemma set_accounts64_insert_same k a b :
  Float64._accounts b !! k = Some a → Float64.set_accounts (<[k := a]>) b = b.
Proof.
  intros H. destruct b as [accs us hs]. unfold Float64.set_accounts.
  simpl in *. f_equal. apply insert_id, H.
Qed.

Lemma set_accounts64_insert_alter k a f b :
  Float64._accounts b !! k = Some a →
  Float64.set_accounts (<[k := f a]>) b = update_account64 k f b.
Proof.
  intros H. unfold update_account64, Float64.set_accounts. f_equal.
  apply map_eq. intros i. destruct (decide (k = i)) as [<-|Hne].
  - rewrite lookup_insert_eq, lookup_alter_eq, H. reflexivity.
  - rewrite lookup_insert_ne, lookup_alter_ne by exact Hne. reflexivity.
Qed.

Lemma on_account64_raise {A} k (m : M Float64.Account A) b a e :
  Float64._accounts b !! k = Some a → m a = (Raise e, a) →
  Float64.on_account k m b = (Raise e, b).
Proof.
  intros Hk Hm. unfold Float64.on_account. rewrite Hk, Hm.
  rewrite (set_accounts64_insert_same _ _ _ Hk). reflexivity.
Qed.

Lemma on_account64_return {A} k (m : M Float64.Account A) b a v f :
  Float64._accounts b !! k = Some a → m a = (Return v, f a) →
  Float64.on_account k m b = (Return v, update_account64 k f b).
Proof.
  intros Hk Hm. unfold Float64.on_account. rewrite Hk, Hm.
  rewrite (set_accounts64_insert_alter _ _ _ _ Hk). reflexivity.
Qed.

Lemma update_account64_lookup k f b i :
  Float64._accounts (update_account64 k f b) !! i
  = if decide (k = i) then f <$> Float64._accounts b !! i
    else Float64._accounts b !! i.
Proof.
  unfold update_account64. simpl. destruct (decide (k = i)) as [<-|Hne].
  - apply lookup_alter_eq.
  - apply lookup_alter_ne, Hne.
Qed.

(** [Float64.transfer] in closed form: the three guards in the order of the
    source, then the sender's [withdraw], whose exception leaves the bank
    as it was and whose return is followed by the remaining three steps,
    none of which can raise. *)
Lemma transfer64_eq now s r amount b :
  Float64.transfer now s r amount b =
    if (amount <=? 0)%float then (Raise ValidationError_amount, b)
    else match Float64._accounts b !! s, Float64._accounts b !! r with
         | Some sender, Some receiver =>
             if negb (Float64._is_active sender)
                || negb (Float64._is_active receiver)
             then (Raise InactiveAccounts, b)
             else match Float64.withdraw (now 0%nat) amount sender with
                  | (Raise e, _) => (Raise e, b)
                  | (Return _, _) =>
                      (Return true, transferred64 now s r amount b)
                  end
         | _, _ => (Raise AccountNotFound, b)
         end.
Proof.
  unfold Float64.transfer, Float64.get_account.
  destruct (amount <=? 0)%float eqn:Hpos; [reflexivity|].
  rewrite (bind_return _ _ b tt b) by reflexivity.
  rewrite (bind_return _ _ b b b) by reflexivity.
  destruct (Float64._accounts b !! s) as [sender|] eqn:Hs; [|reflexivity].
  destruct (Float64._accounts b !! r) as [receiver|] eqn:Hr; [|reflexivity].
  destruct (Float64._is_active sender) eqn:Has; [|reflexivity].
  destruct (Float64._is_active receiver) eqn:Har; [|reflexivity].
  rewrite (bind_return _ _ b tt b) by reflexivity.
  destruct (withdraw64_cases (now 0%nat) amount sender) as [[e He]|[Hw _]].
  { rewrite He. apply bind_raise, (on_account64_raise _ _ _ _ _ Hs He). }
  rewrite Hw.
  set (b1 := update_account64 s (withdrawn64 (now 0%nat) amount) b).
  rewrite (bind_return _ _ b true b1)
    by apply (on_account64_return _ _ _ _ _ _ Hs Hw).
  assert (∃ a1, Float64._accounts b1 !! r = Some a1
                ∧ Float64._is_active a1 = true) as (a1 & Hr1 & Hact1).
  { unfold b1. rewrite update_account64_lookup.
    destruct (decide (s = r)) as [<-|_].
    - rewrite Hs. simpl. eexists. split; [reflexivity|]. exact Has.
    - rewrite Hr. eauto. }
  assert (Float64.deposit (now 1%nat) amount a1
          = (Return true, deposited64 (now 1%nat) amount a1)) as Hd.
  { rewrite deposit64_eq, Hact1, Hpos. reflexivity. }
  set (b2 := update_account64 r (deposited64 (now 1%nat) amount) b1).
  rewrite (bind_return _ _ b1 true b2)
    by apply (on_account64_return _ _ _ _ _ _ Hr1 Hd).
  assert (is_Some (Float64._accounts b2 !! s)) as [a2 Hs2].
  { unfold b2, b1. rewrite !update_account64_lookup, Hs.
    repeat case_decide; simpl; eauto. }
  set (b3 := update_account64 s
               (stamped64 (now 2%nat) TRANSFER_SENT (- amount)%float) b2).
  rewrite (bind_return _ _ b2 tt b3)
    by apply (on_account64_return _ _ _ _ _ _ Hs2 eq_refl).
  assert (is_Some (Float64._accounts b3 !! r)) as [a3 Hr3].
  { unfold b3, b2. rewrite !update_account64_lookup, Hr1.
    repeat case_decide; simpl; eauto. }
  rewrite (bind_return _ _ b3 tt (transferred64 now s r amount b))
    by apply (on_account64_return _ _ _ _ _ _ Hr3 eq_refl).
  reflexivity.
Qed.

Lemma transferred64_sender now s r amount b A :
  s ≠ r → Float64._accounts b !! s = Some A →
  Float64._accounts (transferred64 now s r amount b) !! s
  = Some (stamped64 (now 2%nat) TRANSFER_SENT (- amount)%float
            (withdrawn64 (now 0%nat) amount A)).
Proof.
  intros Hne Hs. unfold transferred64.
  rewrite !update_account64_lookup, Hs.
  repeat case_decide; try congruence. reflexivity.
Qed.

Lemma transferred64_receiver now s r amount b B :
  s ≠ r → Float64._accounts b !! r = Some B →
  Float64._accounts (transferred64 now s r amount b) !! r
  = Some (stamped64 (now 3%nat) TRANSFER_RECEIVED amount
            (deposited64 (now 1%nat) amount B)).
Proof.
  intros Hne Hr. unfold transferred64.
  rewrite !update_account64_lookup, Hr.
  repeat case_decide; try congruence. reflexivity.
Qed.

Lemma transferred64_other now s r amount b k :
  k ≠ s → k ≠ r →
  Float64._accounts (transferred64 now s r amount b) !! k
  = Float64._accounts b !! k.
Proof.
  intros Hs Hr. unfold transferred64. rewrite !update_account64_lookup.
  repeat case_decide; congruence.
Qed.

Lemma transfer64_return_inv now s r amount b v b' :
  Float64.transfer now s r amount b = (Return v, b') →
  v = true ∧ b' = transferred64 now s r amount b
  ∧ (amount <=? 0)%float = false
  ∧ ∃ A B, Float64._accounts b !! s = Some A
           ∧ Float64._accounts b !! r = Some B
           ∧ Float64._is_active A = true ∧ Float64._is_active B = true
           ∧ Float64.withdraw (now 0%nat) amount A
             = (Return true, withdrawn64 (now 0%nat) amount A).
Proof.
  rewrite transfer64_eq.
  destruct (amount <=? 0)%float eqn:Hpos; [discriminate|].
  destruct (Float64._accounts b !! s) as [A|]; [|discriminate].
  destruct (Float64._accounts b !! r) as [B|]; [|discriminate].
  destruct (Float64._is_active A) eqn:HA; [|discriminate].
  destruct (Float64._is_active B) eqn:HB; [|discriminate]. simpl.
  destruct (withdraw64_cases (now 0%nat) amount A) as [[e He]|[Hw _]].
  - rewrite He. discriminate.
  - rewrite Hw. intros [= <- <-]. split; [reflexivity|].
    split; [reflexivity|]. split; [reflexivity|].
    exists A, B. rewrite HA, HB. auto.
Qed.

(** X10.  A transfer is logged twice on each side.  After a transfer that
    returns, between two different accounts, the sender's balance is the
    float [balance - amount] and its log has gained a "Withdrawal" and a
    "Transfer Sent" record, both of [-amount]; the receiver's balance is
    the float [balance + amount] and its log has gained a "Deposit" and a
    "Transfer Received" record, both of [amount]; all four records carry
    the new balance of their side.  So where a log added up to its balance
    before, it now adds up to the new balance with the amount applied a
    second time. *)
Theorem transfer_logged_twice now s r amount b A B v b' :
  s ≠ r →
  Float64.get_account b s = Some A → Float64.get_account b r = Some B →
  Float64.transfer now s r amount b = (Return v, b') →
  ∃ A' B',
    Float64.get_account b' s = Some A' ∧ Float64.get_account b' r = Some B'
    ∧ Float64._balance A' = (Float64._balance A - amount)%float
    ∧ Float64._balance B' = (Float64._balance B + amount)%float
    ∧ Float64._transactions A' =
        Float64._transactions A ++
          [Float64.mkTransaction (now 0%nat) "Withdrawal" (- amount)%float
             (Float64._balance A');
           Float64.mkTransaction (now 2%nat) "Transfer Sent" (- amount)%float
             (Float64._balance A')]
    ∧ Float64._transactions B' =
        Float64._transactions B ++
          [Float64.mkTransaction (now 1%nat) "Deposit" amount
             (Float64._balance B');
           Float64.mkTransaction (now 3%nat) "Transfer Received" amount
             (Float64._balance B')]
    ∧ (balanced A →
       running_total (Float64._transactions A')
       = (Float64._balance A' + - amount)%float)
    ∧ (balanced B →
       running_total (Float64._transactions B')
       = (Float64._balance B' + amount)%float).
Proof.
  unfold Float64.get_account. intros Hne Hs Hr Hrun.
  apply transfer64_return_inv in Hrun as (_ & -> & _ & _).
  eexists _, _.
  split; [apply (transferred64_sender _ _ _ _ _ _ Hne Hs)|].
  split; [apply (transferred64_receiver _ _ _ _ _ _ Hne Hr)|].
  simpl. rewrite <- !app_assoc. simpl.
  split; [reflexivity|]. split; [reflexivity|].
  split; [reflexivity|]. split; [reflexivity|].
  change (Float64._transactions A ++ ?x :: [?y])
    with (Float64._transactions A ++ [x] ++ [y]).
  change (Float64._transactions B ++ ?x :: [?y])
    with (Float64._transactions B ++ [x] ++ [y]).
  rewrite !app_assoc, !running_total_snoc. simpl.
  unfold balanced. split; intros <-; [|reflexivity].
  rewrite float_sub_add_opp. reflexivity.
Qed.

Lemma transfer_logged_twice_witness :
  let b := example_bank64 CURRENT SAVINGS 500 200 in
  let b' := transferred64 example_clock "0000000001" "0000000002" 100 b in
  ∃ A' B',
    Float64.get_account b' "0000000001" = Some A'
    ∧ Float64.get_account b' "0000000002" = Some B'
    ∧ Float64._balance A' = (500 - 100)%float
    ∧ Float64._balance B' = (200 + 100)%float
    ∧ Float64._transactions A' =
        [Float64.mkTransaction "d" "Deposit" 500 500] ++
          [Float64.mkTransaction "t0" "Withdrawal" (- 100)%float
             (Float64._balance A');
           Float64.mkTransaction "t2" "Transfer Sent" (- 100)%float
             (Float64._balance A')]
    ∧ Float64._transactions B' =
        [Float64.mkTransaction "d" "Deposit" 200 200] ++
          [Float64.mkTransaction "t1" "Deposit" 100 (Float64._balance B');
           Float64.mkTransaction "t3" "Transfer Received" 100
             (Float64._balance B')]
    ∧ (balanced (funded64 "0000000001" CURRENT 500) →
       running_total (Float64._transactions A')
       = (Float64._balance A' + - 100)%float)
    ∧ (balanced (funded64 "0000000002" SAVINGS 200) →
       running_total (Float64._transactions B')
       = (Float64._balance B' + 100)%float).
Proof.
  intros b b'.
  apply (transfer_logged_twice example_clock "0000000001" "0000000002" 100 b
           (funded64 "0000000001" CURRENT 500)
           (funded64 "0000000002" SAVINGS 200) true);
    try (vm_compute; reflexivity).
  discriminate.
Defined.

(** After the transfer of 100 from 500 to 200 neither log adds up to its
    balance: 300 against 400, 400 against 300.  A sender holding 1e16 that
    transfers 1.0 still holds 1e16, to which its log still adds up; the
    receiver has the 1.0. *)
Example transfer_logs_and_balances :
  let b' := transferred64 example_clock "0000000001" "0000000002" 100
              (example_bank64 CURRENT SAVINGS 500 200) in
  let c := example_bank64 CURRENT CURRENT 1e16 0 in
  (∃ A' B', Float64.get_account b' "0000000001" = Some A'
            ∧ Float64.get_account b' "0000000002" = Some B'
            ∧ Float64._balance A' = 400%float
            ∧ running_total (Float64._transactions A') = 300%float
            ∧ Float64._balance B' = 300%float
            ∧ running_total (Float64._transactions B') = 400%float)
  ∧ (∃ c' A' B',
       Float64.transfer example_clock "0000000001" "0000000002" 1 c
       = (Return true, c')
       ∧ Float64.get_account c' "0000000001" = Some A'
       ∧ Float64.get_account c' "0000000002" = Some B'
       ∧ Float64._balance A' = 1e16%float
       ∧ running_total (Float64._transactions A') = 1e16%float
       ∧ Float64._balance B' = 1%float).
Proof.
  split.
  - eexists _, _. repeat split; vm_compute; reflexivity.
  - eexists _, _, _.
    split; [rewrite transfer64_eq; vm_compute; reflexivity|].
    repeat split; vm_compute; reflexivity.
Qed.

(** X11.  A transfer from an account to itself goes through the same
    gates as any other (it returns exactly when the account's own
    [withdraw] returns); the balance ends at the float
    [(balance - amount) + amount], and the log gains four records:
    "Withdrawal", "Deposit", "Transfer Sent" and "Transfer Received".  No
    other account moves. *)
Theorem transfer_to_self now s amount b A v b' :
  Float64.get_account b s = Some A →
  Float64.transfer now s s amount b = (Return v, b') →
  Float64.withdraw (now 0%nat) amount A
  = (Return true, withdrawn64 (now 0%nat) amount A)
  ∧ ∃ A',
      Float64.get_account b' s = Some A'
      ∧ Float64._balance A' = (Float64._balance A - amount + amount)%float
      ∧ Float64._transactions A' =
          Float64._transactions A ++
            [Float64.mkTransaction (now 0%nat) "Withdrawal" (- amount)%float
               (Float64._balance A - amount)%float;
             Float64.mkTransaction (now 1%nat) "Deposit" amount
               (Float64._balance A - amount + amount)%float;
             Float64.mkTransaction (now 2%nat) "Transfer Sent"
               (- amount)%float
               (Float64._balance A - amount + amount)%float;
             Float64.mkTransaction (now 3%nat) "Transfer Received" amount
               (Float64._balance A - amount + amount)%float]
      ∧ (∀ k, k ≠ s → Float64.get_account b' k = Float64.get_account b k).
Proof.
  unfold Float64.get_account. intros Hs Hrun.
  apply transfer64_return_inv in Hrun
    as (_ & -> & _ & A0 & _ & Hs0 & _ & _ & _ & Hw).
  rewrite Hs in Hs0. injection Hs0 as <-.
  split; [exact Hw|].
  eexists. split; [|split; [|split]].
  - unfold transferred64. rewrite !update_account64_lookup, Hs.
    rewrite !decide_True by reflexivity. reflexivity.
  - reflexivity.
  - simpl. rewrite <- !app_assoc. reflexivity.
  - intros k Hk. apply transferred64_other; exact Hk.
Qed.

Lemma transfer_to_self_witness :
  let b := example_bank64 CURRENT SAVINGS 500 200 in
  let b' := transferred64 example_clock "0000000001" "0000000001" 100 b in
  Float64.withdraw "t0" 100 (funded64 "0000000001" CURRENT 500)
  = (Return true, withdrawn64 "t0" 100 (funded64 "0000000001" CURRENT 500))
  ∧ ∃ A',
      Float64.get_account b' "0000000001" = Some A'
      ∧ Float64._balance A' = (500 - 100 + 100)%float
      ∧ Float64._transactions A' =
          [Float64.mkTransaction "d" "Deposit" 500 500] ++
            [Float64.mkTransaction "t0" "Withdrawal" (- 100)%float
               (500 - 100)%float;
             Float64.mkTransaction "t1" "Deposit" 100 (500 - 100 + 100)%float;
             Float64.mkTransaction "t2" "Transfer Sent" (- 100)%float
               (500 - 100 + 100)%float;
             Float64.mkTransaction "t3" "Transfer Received" 100
               (500 - 100 + 100)%float]
      ∧ (∀ k, k ≠ "0000000001" →
           Float64.get_account b' k = Float64.get_account b k).
Proof.
  intros b b'.
  apply (transfer_to_self example_clock "0000000001" 100 b
           (funded64 "0000000001" CURRENT 500) true).
  - vm_compute. reflexivity.
  - rewrite transfer64_eq. vm_compute. reflexivity.
Defined.

(** The balance need not come back to where it was: 1975.18 less 610.68
    plus 610.68 is 1975.1799999999998. *)
Example transfer_to_self_rounds :
  (1975.18 - 610.68 + 610.68)%float = 0x1.edcb851eb851ep+10%float
  ∧ 1975.18%float = 0x1.edcb851eb851fp+10%float.
Proof. split; reflexivity. Qed.

(** ** The monthly interest run *)

(** X12.  [calculate_all_interest] returns without raising and keeps the
    users, the owner lists and the set of account numbers; to every account
    that is both Savings and active it credits the float
    [balance * 0.045 / 12], the balance becoming the float sum and the log
    gaining one "Interest Credit" record, and it leaves every Current
    account and every inactive account exactly as it was. *)
Theorem calculate_all_interest_effect now b :
  ∃ b',
    Float64.calculate_all_interest now b = (Return tt, b')
    ∧ Float64._users b' = Float64._users b
    ∧ Float64._account_holders b' = Float64._account_holders b
    ∧ (∀ k, Float64.get_account b k = None → Float64.get_account b' k = None)
    ∧ (∀ k a, Float64.get_account b k = Some a →
         Float64._account_type a = SAVINGS → Float64._is_active a = true →
         Float64.get_account b' k = Some (credited64 (now k) a))
    ∧ (∀ k a, Float64.get_account b k = Some a →
         Float64._account_type a = CURRENT ∨ Float64._is_active a = false →
         Float64.get_account b' k = Some a).
Proof.
  eexists. split; [reflexivity|]. split; [reflexivity|].
  split; [reflexivity|]. unfold Float64.get_account. simpl.
  split; [|split]; intros k; [intros Hk|intros a Hk ..];
    rewrite map_lookup_imap, Hk; simpl; [reflexivity| |].
  - intros Hty Hact.
    rewrite bool_decide_eq_true_2, Hact by exact Hty. simpl.
    rewrite calculate_interest64_eq, Hty. reflexivity.
  - intros [Hty|Hact].
    + rewrite bool_decide_eq_false_2; [reflexivity|].
      rewrite Hty. discriminate.
    + rewrite Hact, andb_false_r. reflexivity.
Qed.

Lemma calculate_all_interest_effect_witness :
  let b := example_bank64 SAVINGS CURRENT 500 200 in
  ∃ b',
    Float64.calculate_all_interest (λ k, String.append "i" k) b
    = (Return tt, b')
    ∧ Float64.get_account b' "0000000001"
      = Some (credited64 "i0000000001" (funded64 "0000000001" SAVINGS 500))
    ∧ Float64.get_account b' "0000000002"
      = Some (funded64 "0000000002" CURRENT 200).
Proof.
  intros b.
  destruct (calculate_all_interest_effect (λ k, String.append "i" k) b)
    as (b' & Hrun & _ & _ & _ & Hsav & Hcur).
  exists b'. split; [exact Hrun|]. split.
  - apply (Hsav "0000000001"); vm_compute; reflexivity.
  - apply (Hcur "0000000002"); [vm_compute; reflexivity|left; reflexivity].
Defined.

(** * The single-account program *)

Lemma replay_snoc start log transaction_type amount :
  replay start (log ++ [(transaction_type, amount)])
  = if String.eqb transaction_type "Deposit"
    then (replay start log + amount)%float
    else if String.eqb transaction_type "Withdrawal"
    then (replay start log - amount)%float
    else replay start log.
Proof. unfold replay. rewrite fold_left_app. reflexivity. Qed.

Lemma statement_loop_replay fmt statement log :
  fst (BankingProject.statement_loop fmt statement log) = replay 0 log.
Proof.
  unfold BankingProject.statement_loop, replay.
  generalize 0%float. revert statement.
  induction log as [|[transaction_type amount] log IH];
    intros statement start; [reflexivity|].
  simpl. apply IH.
Qed.

Lemma simple_perform_replay i o a :
  BankingProject.balance a = replay i (BankingProject.transactions a) →
  BankingProject.balance (simple_perform o a)
  = replay i (BankingProject.transactions (simple_perform o a)).
Proof.
  intros Ha.
  destruct o as [amount|amount]; simpl;
    [unfold BankingProject.deposit|unfold BankingProject.withdraw];
    destruct (amount <=? 0)%float; simpl; auto.
  - rewrite replay_snoc, <- Ha. reflexivity.
  - destruct (BankingProject.balance a <? amount)%float; simpl; auto.
    rewrite replay_snoc, <- Ha. reflexivity.
Qed.

(** X15.  An account of the single-account program is created with initial
    balance [i] unless [i < 0] holds.  After any run of deposits and
    withdrawals its balance is its log replayed on [i], in float
    arithmetic, while the running balance that [print_statement] recomputes
    is the same log replayed on 0.0: the "New Balance" figures of the
    statement leave the initial balance out. *)
Theorem simple_account_statement_offset fmt statement name i a ops :
  BankingProject.Account_init name i = BankingProject.Ok a →
  let a' := simple_apply ops a in
  (i <? 0)%float = false
  ∧ BankingProject.balance a = i
  ∧ BankingProject.balance a' = replay i (BankingProject.transactions a')
  ∧ fst (BankingProject.statement_loop fmt statement
           (BankingProject.transactions a'))
    = replay 0 (BankingProject.transactions a').
Proof.
  unfold BankingProject.Account_init.
  destruct (i <? 0)%float eqn:Hi; [discriminate|].
  intros [= <-]. split; [reflexivity|]. split; [reflexivity|].
  split; [|apply statement_loop_replay].
  assert (∀ a, BankingProject.balance a
               = replay i (BankingProject.transactions a) →
               BankingProject.balance (simple_apply ops a)
               = replay i (BankingProject.transactions (simple_apply ops a)))
    as Hinv.
  { induction ops as [|o ops IH]; intros a Ha; [exact Ha|].
    apply IH, simple_perform_replay, Ha. }
  apply Hinv. reflexivity.
Qed.

Lemma simple_account_statement_offset_witness :
  let a := BankingProject.mkAccount "Ann" 100 [] in
  let a' := simple_apply [SimpleDeposit 50; SimpleWithdraw 30;
                          SimpleWithdraw 500] a in
  (100 <? 0)%float = false
  ∧ BankingProject.balance a = 100%float
  ∧ BankingProject.balance a' = replay 100 (BankingProject.transactions a')
  ∧ fst (BankingProject.statement_loop example_format "s"
           (BankingProject.transactions a'))
    = replay 0 (BankingProject.transactions a').
Proof.
  apply (simple_account_statement_offset example_format "s" "Ann" 100).
  reflexivity.
Defined.

(** Opened with 100, after a deposit of 50, a withdrawal of 30 and a
    refused withdrawal of 500 the account holds 120 and its statement ends
    on 20.  Opened with 0.1 (0x1.999999999999ap-4), after a deposit of 0.2
    (0x1.999999999999ap-3) it holds 0.30000000000000004
    (0x1.3333333333334p-2) and its statement ends on 0.2. *)
Example simple_account_run :
  let a := simple_apply [SimpleDeposit 50; SimpleWithdraw 30;
                         SimpleWithdraw 500]
             (BankingProject.mkAccount "Ann" 100 []) in
  let c := simple_apply [SimpleDeposit 0x1.999999999999ap-3]
             (BankingProject.mkAccount "Cy" 0x1.999999999999ap-4 []) in
  BankingProject.balance a = 120%float
  ∧ BankingProject.transactions a
    = [("Deposit", 50%float); ("Withdrawal", 30%float)]
  ∧ fst (BankingProject.statement_loop example_format "s"
           (BankingProject.transactions a)) = 20%float
  ∧ BankingProject.balance c = 0x1.3333333333334p-2%float
  ∧ fst (BankingProject.statement_loop example_format "s"
           (BankingProject.transactions c)) = 0x1.999999999999ap-3%float.
Proof. repeat split; reflexivity. Qed.

(** X16.  [withdraw] of the single-account program makes two tests, in this
    order: [amount <= 0] raises [InvalidAmountError], also when the balance
    would not cover the amount, and [balance < amount] raises
    [InsufficientBalanceError]; a call that raises changes nothing.  When
    both tests fail the call returns, the balance becomes the float
    [balance - amount] and the log gains the unsigned amount.  The whole
    balance can be taken out.  Both tests fail on NaN, so a returning call
    has an amount that is positive and at most the balance, or a NaN among
    the two. *)
Theorem simple_withdraw_outcomes amount a :
  ((amount <=? 0)%float = true →
   BankingProject.withdraw amount a
   = (BankingProject.Err
        (BankingProject.InvalidAmountError
           "Withdrawal amount must be positive."), a))
  ∧ ((amount <=? 0)%float = false →
     (BankingProject.balance a <? amount)%float = true →
     BankingProject.withdraw amount a
     = (BankingProject.Err
          (BankingProject.InsufficientBalanceError
             "Insufficient balance for withdrawal."), a))
  ∧ ((amount <=? 0)%float = false →
     (BankingProject.balance a <? amount)%float = false →
     BankingProject.withdraw amount a
     = (BankingProject.Ok tt,
        BankingProject.mkAccount (BankingProject.name a)
          (BankingProject.balance a - amount)%float
          (BankingProject.transactions a ++ [("Withdrawal", amount)])))
  ∧ (∀ e a', BankingProject.withdraw amount a = (BankingProject.Err e, a') →
     a' = a)
  ∧ (∀ a', BankingProject.withdraw amount a = (BankingProject.Ok tt, a') →
     (is_nan amount = true ∨ (0 <? amount)%float = true)
     ∧ (is_nan amount = true ∨ is_nan (BankingProject.balance a) = true
        ∨ (amount <=? BankingProject.balance a)%float = true)).
Proof.
  unfold BankingProject.withdraw. split; [|split; [|split; [|split]]].
  - intros ->. reflexivity.
  - intros -> ->. reflexivity.
  - intros -> ->. reflexivity.
  - intros e a'. destruct (amount <=? 0)%float; [congruence|].
    destruct (_ <? amount)%float; congruence.
  - intros a'. destruct (amount <=? 0)%float eqn:Hpos; [discriminate|].
    destruct (_ <? amount)%float eqn:Hlt; [discriminate|]. intros _.
    split; [apply accepted_amount, Hpos|].
    destruct (float_ltb_false _ _ Hlt) as [H|[H|H]]; auto.
Qed.

Lemma simple_withdraw_outcomes_witness :
  let a := BankingProject.mkAccount "Ann" 100 [] in
  BankingProject.withdraw (- 5) a
  = (BankingProject.Err
       (BankingProject.InvalidAmountError
          "Withdrawal amount must be positive."), a)
  ∧ BankingProject.withdraw 101 a
    = (BankingProject.Err
         (BankingProject.InsufficientBalanceError
            "Insufficient balance for withdrawal."), a)
  ∧ BankingProject.withdraw 100 a
    = (BankingProject.Ok tt,
       BankingProject.mkAccount "Ann" (100 - 100)%float
         [("Withdrawal", 100%float)])
  ∧ BankingProject.withdraw nan a
    = (BankingProject.Ok tt,
       BankingProject.mkAccount "Ann" (100 - nan)%float
         [("Withdrawal", nan)]).
Proof.
  intros a.
  pose proof (simple_withdraw_outcomes (- 5) a) as (H1 & _).
  pose proof (simple_withdraw_outcomes 101 a) as (_ & H2 & _).
  pose proof (simple_withdraw_outcomes 100 a) as (_ & _ & H3 & _).
  pose proof (simple_withdraw_outcomes nan a) as (_ & _ & H4 & _).
  split; [apply H1; reflexivity|].
  split; [apply H2; reflexivity|].
  split; [apply H3; reflexivity|].
  apply H4; reflexivity.
Defined.

(** * The sign of binary64 results

    What the rounding of the machine cannot do: turn the sum of two amounts
    that are not below zero, or the difference [x - y] of two amounts with
    [y <= x], into a negative number.  The argument is on the specification
    of the IEEE operations ([SpecFloat]), to which the primitive floats
    conform. *)
Lemma SF_not_negative_ltb z m e :
  SF_not_negative z = true → SFltb z (S754_finite true m e) = false.
Proof. destruct z as [[]|[]| |[] mz ez]; try discriminate; reflexivity. Qed.

Lemma SF_not_negative_zero z :
  SF_not_negative z = true ↔ SFltb z (S754_zero false) = false.
Proof.
  destruct z as [[]|[]| |[] mz ez]; split; intros H;
    try reflexivity; discriminate.
Qed.

Lemma binary_round_aux_sign prec emax m e l :
  SF_not_negative (binary_round_aux prec emax false m e l) = true.
Proof.
  unfold binary_round_aux.
  destruct (shr_fexp prec emax m e l) as [mrs' e'].
  destruct (shr_fexp prec emax _ e' loc_Exact) as [mrs'' e''].
  destruct (shr_m mrs''); try reflexivity.
  destruct (_ <=? _)%Z; reflexivity.
Qed.

Lemma binary_normalize_sign prec emax m e :
  (0 ≤ m)%Z → SF_not_negative (binary_normalize prec emax m e false) = true.
Proof.
  destruct m as [|p|p]; [reflexivity| |lia]. intros _. simpl.
  unfold binary_round. destruct (shl_align _ _ _) as [mz ez].
  apply binary_round_aux_sign.
Qed.

Lemma digits2_pos_bounds m :
  (2 ^ (Zpos (digits2_pos m) - 1) ≤ Zpos m < 2 ^ Zpos (digits2_pos m))%Z.
Proof.
  induction m as [m IH|m IH|]; simpl digits2_pos.
  - rewrite Pos2Z.inj_succ.
    replace (Z.succ (Zpos (digits2_pos m)) - 1)%Z
      with (Z.succ (Zpos (digits2_pos m) - 1))%Z by lia.
    rewrite !Z.pow_succ_r by lia. lia.
  - rewrite Pos2Z.inj_succ.
    replace (Z.succ (Zpos (digits2_pos m)) - 1)%Z
      with (Z.succ (Zpos (digits2_pos m) - 1))%Z by lia.
    rewrite !Z.pow_succ_r by lia. lia.
  - simpl. lia.
Qed.

Lemma iter_xO_pow m d : Zpos (Pos.iter xO m d) = (Zpos m * 2 ^ Zpos d)%Z.
Proof.
  induction d as [|d IH] using Pos.peano_ind.
  - simpl. lia.
  - rewrite Pos.iter_succ, Pos2Z.inj_succ, Z.pow_succ_r by lia.
    rewrite Pos2Z.inj_xO, IH. lia.
Qed.

Lemma shl_align_value m e e' :
  (e' ≤ e)%Z →
  Zpos (fst (shl_align m e e')) = (Zpos m * 2 ^ (e - e'))%Z.
Proof.
  intros Hle. unfold shl_align.
  destruct (e' - e)%Z as [|d|d] eqn:Hd; simpl.
  - replace (e - e')%Z with 0%Z by lia. lia.
  - lia.
  - rewrite iter_xO_pow. f_equal. f_equal. lia.
Qed.

(** Of two canonical positive floats the larger has the larger aligned
    mantissa. *)
Lemma aligned_mantissa_le mx ex my ey :
  bounded prec emax mx ex = true → bounded prec emax my ey = true →
  SFltb (S754_finite false mx ex) (S754_finite false my ey) = false →
  (Zpos (fst (shl_align my ey (Z.min ex ey)))
   ≤ Zpos (fst (shl_align mx ex (Z.min ex ey))))%Z.
Proof.
  unfold bounded, canonical_mantissa, fexp, emin, SFltb. simpl SFcompare.
  intros Hx Hy Hlt.
  apply andb_true_iff in Hx as [Hx _]. apply andb_true_iff in Hy as [Hy _].
  apply Z.eqb_eq in Hx, Hy.
  pose proof (digits2_pos_bounds mx) as Hdx.
  pose proof (digits2_pos_bounds my) as Hdy.
  rewrite !shl_align_value by lia.
  destruct (ex ?= ey)%Z eqn:Hc; [| discriminate |].
  - apply Z.compare_eq in Hc. subst ey.
    rewrite Z.min_id, Z.sub_diag, Z.pow_0_r, !Z.mul_1_r.
    change (Pos.compare_cont Eq mx my) with (mx ?= my)%positive in Hlt.
    destruct (mx ?= my)%positive eqn:Hm; try discriminate.
    + apply Pos.compare_eq in Hm. subst. lia.
    + apply Pos.compare_gt_iff in Hm. lia.
  - apply Z.compare_gt_iff in Hc.
    rewrite Z.min_r by lia. rewrite Z.sub_diag, Z.pow_0_r, Z.mul_1_r.
    unfold prec, emax in *.
    assert (Zpos (digits2_pos my) ≤ 53)%Z as Hmy by lia.
    assert (Zpos (digits2_pos mx) = 53)%Z as Hmx by lia.
    rewrite Hmx in Hdx.
    assert (Zpos my < 2 ^ 53)%Z as Hb.
    { eapply Z.lt_le_trans; [apply Hdy|]. apply Z.pow_le_mono_r; lia. }
    assert (2 ^ 1 ≤ 2 ^ (ex - ey))%Z as Hp
      by (apply Z.pow_le_mono_r; lia).
    change (53 - 1)%Z with 52%Z in Hdx.
    change (2 ^ 1)%Z with 2%Z in Hp.
    assert (2 ^ 53 = 2 * 2 ^ 52)%Z as E by reflexivity.
    nia.
Qed.

Lemma SFsub_not_negative x y :
  valid_binary x = true → valid_binary y = true →
  SFleb y (S754_zero false) = false →
  SFltb x y = false →
  SF_not_negative (SFsub prec emax x y) = true.
Proof.
  intros Hx Hy Hpos Hlt.
  destruct x as [sx|sx| |sx mx ex], y as [sy|sy| |sy my ey];
    try reflexivity; try discriminate;
    try (destruct sx, sy; try reflexivity; discriminate);
    try (destruct sx; try reflexivity; discriminate);
    try (destruct sy; try reflexivity; discriminate).
  destruct sy; [discriminate|]. destruct sx; [discriminate|].
  unfold SFsub. apply binary_normalize_sign. unfold cond_Zopp.
  pose proof (aligned_mantissa_le mx ex my ey Hx Hy Hlt). lia.
Qed.

Lemma SF_not_positive_ltb z m e :
  SF_not_positive z = true → SFltb z (S754_finite false m e) = true.
Proof. destruct z as [[]|[]| |[] mz ez]; try discriminate; reflexivity. Qed.

Lemma shr_1_nonneg mrs : (0 ≤ shr_m mrs → 0 ≤ shr_m (shr_1 mrs))%Z.
Proof.
  destruct mrs as [m r s]. simpl.
  destruct m as [|[p|p|]|[p|p|]]; simpl; lia.
Qed.

Lemma iter_pos_shr_1_nonneg p mrs :
  (0 ≤ shr_m mrs → 0 ≤ shr_m (SpecFloat.iter_pos shr_1 p mrs))%Z.
Proof.
  revert mrs. induction p as [p IH|p IH|]; intros mrs H; simpl.
  - apply IH, IH, shr_1_nonneg, H.
  - apply IH, IH, H.
  - apply shr_1_nonneg, H.
Qed.

Lemma shr_fexp_nonneg prec emax m e l :
  (0 ≤ m → 0 ≤ shr_m (fst (shr_fexp prec emax m e l)))%Z.
Proof.
  intros H. unfold shr_fexp, shr.
  assert (shr_m (shr_record_of_loc m l) = m) as E
    by (destruct l as [|[]]; reflexivity).
  destruct (_ - e)%Z; simpl; try lia.
  apply iter_pos_shr_1_nonneg. lia.
Qed.

Lemma round_nearest_even_nonneg m l :
  (0 ≤ m → 0 ≤ round_nearest_even m l)%Z.
Proof.
  intros H. destruct l as [|[]]; simpl; try lia.
  destruct (Z.even m); lia.
Qed.

Lemma binary_round_aux_negative prec emax m e l :
  (0 ≤ m)%Z →
  SF_not_positive (binary_round_aux prec emax true m e l) = true.
Proof.
  intros H. unfold binary_round_aux.
  pose proof (shr_fexp_nonneg prec emax m e l H) as H1.
  destruct (shr_fexp prec emax m e l) as [mrs' e']. simpl in H1.
  pose proof (shr_fexp_nonneg prec emax
                (round_nearest_even (shr_m mrs') (loc_of_shr_record mrs'))
                e' loc_Exact (round_nearest_even_nonneg _ _ H1)) as H2.
  destruct (shr_fexp prec emax _ e' loc_Exact) as [mrs'' e'']. simpl in H2.
  destruct (shr_m mrs''); try reflexivity; [|lia].
  destruct (_ <=? _)%Z; reflexivity.
Qed.

Lemma binary_normalize_negative prec emax m e :
  (m < 0)%Z → SF_not_positive (binary_normalize prec emax m e false) = true.
Proof.
  destruct m as [|p|p]; try lia. intros _. simpl.
  unfold binary_round. destruct (shl_align _ _ _) as [mz ez].
  apply binary_round_aux_negative. lia.
Qed.

Lemma aligned_mantissa_lt mx ex my ey :
  bounded prec emax mx ex = true → bounded prec emax my ey = true →
  SFltb (S754_finite false mx ex) (S754_finite false my ey) = true →
  (Zpos (fst (shl_align mx ex (Z.min ex ey)))
   < Zpos (fst (shl_align my ey (Z.min ex ey))))%Z.
Proof.
  unfold bounded, canonical_mantissa, fexp, emin, SFltb. simpl SFcompare.
  intros Hx Hy Hlt.
  apply andb_true_iff in Hx as [Hx _]. apply andb_true_iff in Hy as [Hy _].
  apply Z.eqb_eq in Hx, Hy.
  pose proof (digits2_pos_bounds mx) as Hdx.
  pose proof (digits2_pos_bounds my) as Hdy.
  rewrite !shl_align_value by lia.
  destruct (ex ?= ey)%Z eqn:Hc; [| | discriminate].
  - apply Z.compare_eq in Hc. subst ey.
    rewrite Z.min_id, Z.sub_diag, Z.pow_0_r, !Z.mul_1_r.
    change (Pos.compare_cont Eq mx my) with (mx ?= my)%positive in Hlt.
    destruct (mx ?= my)%positive eqn:Hm; try discriminate.
    change (mx < my)%positive in Hm. lia.
  - change (ex < ey)%Z in Hc.
    rewrite Z.min_l by lia. rewrite Z.sub_diag, Z.pow_0_r, Z.mul_1_r.
    unfold prec, emax in *.
    assert (Zpos (digits2_pos mx) ≤ 53)%Z as Hmx by lia.
    assert (Zpos (digits2_pos my) = 53)%Z as Hmy by lia.
    rewrite Hmy in Hdy.
    assert (Zpos mx < 2 ^ 53)%Z as Hb.
    { eapply Z.lt_le_trans; [apply Hdx|]. apply Z.pow_le_mono_r; lia. }
    assert (2 ^ 1 ≤ 2 ^ (ey - ex))%Z as Hp
      by (apply Z.pow_le_mono_r; lia).
    change (53 - 1)%Z with 52%Z in Hdy.
    change (2 ^ 1)%Z with 2%Z in Hp.
    assert (2 ^ 53 = 2 * 2 ^ 52)%Z as E by reflexivity.
    nia.
Qed.

(** [x < y] with [y] positive: [x - y] is not above zero and not NaN. *)
Lemma SFsub_not_positive x y :
  valid_binary x = true → valid_binary y = true →
  SFleb y (S754_zero false) = false →
  SFltb x y = true →
  SF_not_positive (SFsub prec emax x y) = true.
Proof.
  intros Hx Hy Hpos Hlt.
  destruct x as [sx|sx| |sx mx ex], y as [sy|sy| |sy my ey];
    try reflexivity; try discriminate;
    try (destruct sx, sy; try reflexivity; discriminate);
    try (destruct sx; try reflexivity; discriminate);
    try (destruct sy; try reflexivity; discriminate).
  destruct sy; [discriminate|].
  unfold SFsub. apply binary_normalize_negative. unfold cond_Zopp.
  destruct sx; [lia|].
  pose proof (aligned_mantissa_lt mx ex my ey Hx Hy Hlt). lia.
Qed.

Lemma SFadd_not_negative x y :
  SF_not_negative x = true → SF_not_negative y = true →
  SF_not_negative (SFadd prec emax x y) = true.
Proof.
  destruct x as [[]|[]| |[] mx ex], y as [[]|[]| |[] my ey];
    try discriminate; try reflexivity.
  intros _ _. unfold SFadd. apply binary_normalize_sign.
  unfold cond_Zopp. lia.
Qed.

Lemma SFmul_not_negative x y :
  SF_not_negative x = true → SF_not_negative y = true →
  SF_not_negative (SFmul prec emax x y) = true.
Proof.
  destruct x as [[]|[]| |[] mx ex], y as [[]|[]| |[] my ey];
    try discriminate; try reflexivity.
  intros _ _. apply binary_round_aux_sign.
Qed.

Lemma SFdiv_not_negative x my ey :
  SF_not_negative x = true →
  SF_not_negative (SFdiv prec emax x (S754_finite false my ey)) = true.
Proof.
  destruct x as [[]|[]| |[] mx ex]; try discriminate; try reflexivity.
  intros _. unfold SFdiv.
  destruct (SFdiv_core_binary _ _ _ _ _ _) as [[mz ez] lz].
  apply binary_round_aux_sign.
Qed.

(** ** The same facts on the machine's floats *)

Lemma not_below_zero_spec x :
  not_below_zero x ↔ SF_not_negative (Prim2SF x) = true.
Proof.
  unfold not_below_zero. rewrite FloatAxioms.ltb_spec.
  symmetry. apply SF_not_negative_zero.
Qed.

(** What is not below zero is not below -10000 either. *)
Lemma not_below_overdraft x :
  not_below_zero x → (x <? - Float64.OVERDRAFT_LIMIT)%float = false.
Proof.
  intros H. apply not_below_zero_spec in H.
  rewrite FloatAxioms.ltb_spec. apply SF_not_negative_ltb, H.
Qed.

Lemma SFleb_false_ltb x y : SFleb x y = false → SFltb x y = false.
Proof.
  unfold SFleb, SFltb. destruct (SFcompare x y) as [[]|]; congruence.
Qed.

(** An amount the sign test lets through is not below zero. *)
Lemma accepted_not_below_zero amount :
  (amount <=? 0)%float = false → not_below_zero amount.
Proof.
  unfold not_below_zero. rewrite FloatAxioms.leb_spec, FloatAxioms.ltb_spec.
  apply SFleb_false_ltb.
Qed.

Lemma float_add_not_below x y :
  not_below_zero x → not_below_zero y → not_below_zero (x + y).
Proof.
  rewrite !not_below_zero_spec, FloatAxioms.add_spec.
  apply SFadd_not_negative.
Qed.

(** [y <= x] for a [y] that passed the sign test: [x - y] is not below
    zero. *)
Lemma float_sub_not_below x y :
  (y <=? 0)%float = false → (x <? y)%float = false →
  not_below_zero (x - y).
Proof.
  rewrite not_below_zero_spec, FloatAxioms.sub_spec,
    FloatAxioms.leb_spec, FloatAxioms.ltb_spec.
  apply SFsub_not_negative; apply Prim2SF_valid.
Qed.

(** [x < y] for a [y] that passed the sign test: [x - y] is below 1000. *)
Lemma float_sub_below_minimum x y :
  (y <=? 0)%float = false → (x <? y)%float = true →
  (x - y <? Float64.MINIMUM_BALANCE)%float = true.
Proof.
  rewrite FloatAxioms.leb_spec, !FloatAxioms.ltb_spec, FloatAxioms.sub_spec.
  intros Hpos Hlt. apply SF_not_positive_ltb.
  apply SFsub_not_positive; auto using Prim2SF_valid.
Qed.

(** The monthly interest on a balance that is not below zero is not below
    zero. *)
Lemma interest_not_below b :
  not_below_zero b → not_below_zero (b * Float64.INTEREST_RATE / 12).
Proof.
  rewrite !not_below_zero_spec, FloatAxioms.div_spec, FloatAxioms.mul_spec.
  intros H. apply SFdiv_not_negative, SFmul_not_negative; [exact H|].
  reflexivity.
Qed.

(** ** Withdrawals that return *)

Lemma withdraw64_return_inv now amount a r a' :
  Float64.withdraw now amount a = (Return r, a') →
  r = true ∧ a' = withdrawn64 now amount a
  ∧ Float64._is_active a = true
  ∧ (amount <=? 0)%float = false
  ∧ (Float64._balance a <? amount)%float = false.
Proof.
  rewrite withdraw64_eq, Account_withdraw64_eq.
  destruct (Float64._is_active a); simpl;
    destruct (amount <=? 0)%float;
    destruct (Float64._balance a <? amount)%float;
    destruct (Float64._account_type a);
    repeat match goal with
           | |- context [if ?c then _ else _] => destruct c
           end; try discriminate; intros [= <- <-]; auto.
Qed.

(** X2.  When [withdraw] returns.  On a Savings account: exactly when the
    account is active, the test [amount <= 0] fails and the float
    [balance - amount] is not below 1000; the test [amount > balance] of the
    shared method then fails of itself, so that "Insufficient balance" is
    never raised on a Savings account that passed the first two.  On a
    Current account: exactly when the account is active and the tests
    [amount <= 0] and [amount > balance] fail; the overdraft test then
    fails of itself, so that the overdraft limit never decides a withdrawal
    that returns.  The call then returns [True], the balance is the float
    [balance - amount], which is not below zero, and the log has one more
    "Withdrawal" record of [-amount]. *)
Theorem withdraw_returns_iff now amount a :
  ((∃ r a', Float64.withdraw now amount a = (Return r, a'))
   ↔ Float64._is_active a = true
     ∧ (amount <=? 0)%float = false
     ∧ match Float64._account_type a with
       | SAVINGS =>
           (Float64._balance a - amount <? Float64.MINIMUM_BALANCE)%float
           = false
       | CURRENT => (Float64._balance a <? amount)%float = false
       end)
  ∧ (∀ r a', Float64.withdraw now amount a = (Return r, a') →
       r = true ∧ a' = withdrawn64 now amount a
       ∧ (Float64._balance a <? amount)%float = false
       ∧ (Float64._balance a - amount <? - Float64.OVERDRAFT_LIMIT)%float
         = false
       ∧ not_below_zero (Float64._balance a'))
  ∧ (∀ e a', Float64.withdraw now amount a = (Raise e, a') → a' = a).
Proof.
  split; [|split].
  - split.
    + intros (r & a' & Hrun).
      pose proof (withdraw64_return_inv _ _ _ _ _ Hrun)
        as (_ & _ & Hact & Hpos & Hle).
      split; [exact Hact|]. split; [exact Hpos|].
      rewrite withdraw64_eq in Hrun.
      destruct (Float64._account_type a); [|exact Hle].
      destruct (_ <? Float64.MINIMUM_BALANCE)%float;
        [discriminate|reflexivity].
    + intros (Hact & Hpos & Hty).
      rewrite withdraw64_eq, Account_withdraw64_eq, Hact, Hpos.
      destruct (Float64._account_type a).
      * rewrite Hty.
        destruct (Float64._balance a <? amount)%float eqn:Hlt;
          [|simpl; eauto].
        rewrite (float_sub_below_minimum _ _ Hpos Hlt) in Hty. discriminate.
      * rewrite Hty.
        rewrite (not_below_overdraft _ (float_sub_not_below _ _ Hpos Hty)).
        simpl. eauto.
  - intros r a' Hrun.
    apply withdraw64_return_inv in Hrun as (-> & -> & _ & Hpos & Hle).
    pose proof (float_sub_not_below _ _ Hpos Hle) as Hnb.
    split; [reflexivity|]. split; [reflexivity|]. split; [exact Hle|].
    split; [apply not_below_overdraft, Hnb|exact Hnb].
  - intros e a' Hrun.
    destruct (withdraw64_cases now amount a) as [[e' He]|[Hw _]];
      congruence.
Qed.

Lemma withdraw_returns_iff_witness :
  (∃ r a', Float64.withdraw "t1" 400 savings64_1500 = (Return r, a'))
  ∧ (∃ r a',
       Float64.withdraw "t1" 100 (funded64 "0000000001" CURRENT 500)
       = (Return r, a'))
  ∧ not_below_zero
      (Float64._balance
         (withdrawn64 "t1" 500 (funded64 "0000000001" CURRENT 500))).
Proof.
  split; [|split].
  - apply (proj2 (proj1 (withdraw_returns_iff "t1" 400 savings64_1500))).
    repeat split.
  - apply (proj2 (proj1 (withdraw_returns_iff "t1" 100
                           (funded64 "0000000001" CURRENT 500)))).
    repeat split.
  - apply (proj1 (proj2 (withdraw_returns_iff "t1" 500
                           (funded64 "0000000001" CURRENT 500))) true).
    reflexivity.
Defined.

(** ** No balance below zero *)

Lemma deposited64_not_below now amount a :
  (amount <=? 0)%float = false →
  not_below_zero (Float64._balance a) →
  not_below_zero (Float64._balance (deposited64 now amount a)).
Proof.
  intros Hpos Ha. apply float_add_not_below;
    [exact Ha|apply accepted_not_below_zero, Hpos].
Qed.

Lemma credited64_not_below now a :
  not_below_zero (Float64._balance a) →
  not_below_zero (Float64._balance (credited64 now a)).
Proof.
  intros Ha. apply float_add_not_below; [exact Ha|].
  apply interest_not_below, Ha.
Qed.

Lemma deposit64_not_below now amount a r a' :
  Float64.deposit now amount a = (r, a') →
  not_below_zero (Float64._balance a) →
  not_below_zero (Float64._balance a').
Proof.
  rewrite deposit64_eq.
  destruct (negb (Float64._is_active a)); [intros [= _ <-]; auto|].
  destruct (amount <=? 0)%float eqn:Hpos; intros [= _ <-]; auto.
  apply deposited64_not_below, Hpos.
Qed.

Lemma withdraw64_not_below now amount a r a' :
  Float64.withdraw now amount a = (r, a') →
  not_below_zero (Float64._balance a) →
  not_below_zero (Float64._balance a').
Proof.
  intros Hrun Ha. destruct r as [v|e].
  - apply withdraw64_return_inv in Hrun as (_ & -> & _ & Hpos & Hle).
    apply float_sub_not_below; assumption.
  - destruct (withdraw64_cases now amount a) as [[e' He]|[Hw _]];
      congruence.
Qed.

Lemma calculate_interest64_not_below now a r a' :
  Float64.calculate_interest now a = (r, a') →
  not_below_zero (Float64._balance a) →
  not_below_zero (Float64._balance a').
Proof.
  rewrite calculate_interest64_eq.
  destruct (Float64._account_type a); intros [= _ <-]; auto.
  apply credited64_not_below.
Qed.

Lemma perform_not_below o a :
  not_below_zero (Float64._balance a) →
  not_below_zero (Float64._balance (snd (perform o a))).
Proof.
  intros Ha. destruct o as [now amount|now amount|now]; unfold perform, bind.
  - destruct (Float64.deposit now amount a) as [[v|e] a'] eqn:Hrun;
      apply (deposit64_not_below _ _ _ _ _ Hrun Ha).
  - destruct (Float64.withdraw now amount a) as [[v|e] a'] eqn:Hrun;
      apply (withdraw64_not_below _ _ _ _ _ Hrun Ha).
  - destruct (Float64.calculate_interest now a) as [[v|e] a'] eqn:Hrun;
      apply (calculate_interest64_not_below _ _ _ _ Hrun Ha).
Qed.

Lemma update_account64_not_below k f b :
  (∀ a, Float64._accounts b !! k = Some a →
        not_below_zero (Float64._balance a) →
        not_below_zero (Float64._balance (f a))) →
  balances_not_below_zero b →
  balances_not_below_zero (update_account64 k f b).
Proof.
  intros Hf Hb i a. rewrite update_account64_lookup.
  destruct (decide (k = i)) as [<-|_]; [|apply Hb].
  destruct (Float64._accounts b !! k) as [a0|] eqn:Hk; [|discriminate].
  intros [= <-]. apply (Hf a0 eq_refl), (Hb k a0 Hk).
Qed.

Lemma on_account64_not_below {A} k (m : M Float64.Account A) b r b' :
  (∀ a ra a', m a = (ra, a') →
        not_below_zero (Float64._balance a) →
        not_below_zero (Float64._balance a')) →
  Float64.on_account k m b = (r, b') →
  balances_not_below_zero b → balances_not_below_zero b'.
Proof.
  intros Hm Hrun Hb. unfold Float64.on_account in Hrun.
  destruct (Float64._accounts b !! k) as [a|] eqn:Hk;
    [|injection Hrun as _ <-; exact Hb].
  destruct (m a) as [ra a'] eqn:Hma. injection Hrun as _ <-.
  intros i ai. simpl. destruct (decide (k = i)) as [<-|Hne].
  - rewrite lookup_insert_eq. intros [= <-].
    apply (Hm a ra a' Hma), (Hb k a Hk).
  - rewrite lookup_insert_ne by exact Hne. apply Hb.
Qed.

Lemma transfer64_not_below now s r amount b res b' :
  Float64.transfer now s r amount b = (res, b') →
  balances_not_below_zero b → balances_not_below_zero b'.
Proof.
  intros Hrun Hb. destruct res as [v|e].
  - apply transfer64_return_inv in Hrun
      as (_ & -> & Hpos & A & B & Hs & Hr & _ & _ & Hw).
    apply withdraw64_return_inv in Hw as (_ & _ & _ & _ & Hle).
    unfold transferred64.
    repeat apply update_account64_not_below; try exact Hb;
      try (intros a _ Ha; exact Ha).
    + intros a _ Ha. apply deposited64_not_below; assumption.
    + intros a Ha _. rewrite Hs in Ha. injection Ha as <-.
      apply float_sub_not_below; assumption.
  - revert Hrun. rewrite transfer64_eq.
    repeat match goal with
           | |- context [if ?c then _ else _] => destruct c
           | |- context [match ?o with Some _ => _ | None => _ end] =>
               destruct o
           | |- context [let (_, _) := ?p in _] => destruct p as [[?|?] ?]
           end; intros [= _ <-] || discriminate; exact Hb.
Qed.

Lemma calculate_all_interest64_not_below now b res b' :
  Float64.calculate_all_interest now b = (res, b') →
  balances_not_below_zero b → balances_not_below_zero b'.
Proof.
  intros [= _ <-] Hb k a. simpl. rewrite map_lookup_imap.
  destruct (Float64._accounts b !! k) as [a0|] eqn:Hk; [|discriminate].
  simpl. intros [= <-].
  destruct (bool_decide (Float64._account_type a0 = SAVINGS)
            && Float64._is_active a0); [|apply (Hb k a0 Hk)].
  destruct (Float64.calculate_interest (now k) a0) as [r a'] eqn:Hrun.
  apply (calculate_interest64_not_below _ _ _ _ Hrun), (Hb k a0 Hk).
Qed.

Lemma amount_step_not_below b b' :
  amount_step b b' →
  balances_not_below_zero b → balances_not_below_zero b'.
Proof.
  intros [now s r amount b0 res b1 Hrun|now b0 res b1 Hrun
         |k now amount b0 res b1 Hrun|k now amount b0 res b1 Hrun
         |k now b0 res b1 Hrun|k b0 res b1 Hrun].
  - apply (transfer64_not_below _ _ _ _ _ _ _ Hrun).
  - apply (calculate_all_interest64_not_below _ _ _ _ Hrun).
  - apply (on_account64_not_below _ _ _ _ _
             (deposit64_not_below now amount) Hrun).
  - apply (on_account64_not_below _ _ _ _ _
             (withdraw64_not_below now amount) Hrun).
  - apply (on_account64_not_below _ _ _ _ _
             (calculate_interest64_not_below now) Hrun).
  - apply (on_account64_not_below k Float64.toggle_account_status b0 res b1);
      [|exact Hrun].
    intros a ra a' [= _ <-] Ha. exact Ha.
Qed.

(** X20.  No balance is ever below zero, the overdraft limit of Current
    accounts notwithstanding.  From its creation and through any sequence
    of [deposit], [withdraw] and [calculate_interest] calls, returning or
    raising, the balance of an account is never below zero: it is zero,
    positive or NaN.  And in a bank where no balance is below zero, none is
    after any sequence of transfers, interest runs and calls of the account
    methods. *)
Theorem balance_never_below_zero :
  (∀ number holder ty ops,
     not_below_zero
       (Float64._balance
          (apply_ops ops (Float64.Account_init number holder ty))))
  ∧ (∀ b b', balances_not_below_zero b → rtc amount_step b b' →
       balances_not_below_zero b').
Proof.
  split.
  - intros number holder ty ops.
    assert (∀ a, not_below_zero (Float64._balance a) →
                 not_below_zero (Float64._balance (apply_ops ops a))) as H.
    { induction ops as [|o ops IH]; intros a Ha; [exact Ha|].
      apply IH, perform_not_below, Ha. }
    apply H. reflexivity.
  - intros b b' Hb Hsteps. induction Hsteps as [|b0 b1 b2 Hstep _ IH];
      [exact Hb|].
    apply IH, (amount_step_not_below _ _ Hstep Hb).
Qed.

Lemma balance_never_below_zero_witness :
  not_below_zero
    (Float64._balance
       (apply_ops [OpDeposit "t0" 500; OpWithdraw "t1" 5000;
                   OpWithdraw "t2" 500; OpDeposit "t3" nan]
          (Float64.Account_init "0000000002" "Alice Smith" CURRENT)))
  ∧ balances_not_below_zero
      (transferred64 example_clock "0000000001" "0000000002" 500
         (example_bank64 CURRENT SAVINGS 500 200)).
Proof.
  split.
  - apply (proj1 balance_never_below_zero).
  - apply (proj2 balance_never_below_zero
             (example_bank64 CURRENT SAVINGS 500 200)).
    + intros k a. unfold example_bank64. simpl.
      destruct (decide (k = "0000000001")) as [->|Hne1].
      * rewrite lookup_insert_eq. intros [= <-]. reflexivity.
      * rewrite lookup_insert_ne by auto.
        destruct (decide (k = "0000000002")) as [->|Hne2].
        -- rewrite lookup_insert_eq. intros [= <-]. reflexivity.
        -- rewrite lookup_insert_ne by auto. rewrite lookup_empty.
           discriminate.
    + apply rtc_once.
      apply (amount_step_transfer example_clock "0000000001" "0000000002"
               500 _ (Return true)).
      rewrite transfer64_eq. vm_compute. reflexivity.
Defined.
